(** * A shallow embedding of the multi-turn VQA annotation tool

    The development follows the single source file of the repository,
    [VQA标注器.py]: the drawing canvas ([DrawingCanvas]), the annotation
    records ([VisualAnnotation], [QAAnnotation]) and the session
    controller ([ImageQAAnnotator]).

    Modelling decisions, all stated once here:
    - Python numbers (ints and finite floats) are rationals [Q] and their
      arithmetic is exact: the rounding of floating point operations is
      not modelled.  [int(..)] truncates, [round(..)] rounds half to even,
      [/] raises on a zero divisor.  Results that are stored are
      normalised with [Qred].
    - Python [None] is [None] of an [option]; attributes that are only
      created by a method ([images_folder], [x_offset], ...) are options
      that are [None] until that method has run.
    - Exceptions are explicit: a method is a function from the state to an
      [Outcome] that is either [Done] with a result and the new state or
      [Raised] with the exception and the state mutated so far.
    - The conversation lists are Python list objects: they live in a store
      ([heap]) and the session holds references to them, so that sharing
      between [current_annotation] and [all_annotations] is visible.
    - The Tk canvas is a display list of objects with integer ids handed
      out by a counter that starts at 1; calls into Tk and PIL succeed,
      and canvas coordinates are window coordinates.  Reading and
      writing the annotation file succeeds; the file is the data that
      [json] writes and reads, not its text.
    - The widgets of the window are kept as their contents (entry texts,
      list rows, status and dialog messages). *)

From Stdlib Require Import ZArith QArith Qround Qabs String Ascii List Lia Lqa.
From stdpp Require Import base option list gmap strings.

Local Open Scope string_scope.
Local Open Scope Z_scope.
Local Open Scope list_scope.

(** ** Python values *)

Module Py.

(** [int(q)]: truncation towards zero. *)
Definition int (q : Q) : Z := Z.quot (Qnum q) (Zpos (Qden q)).

(** [round(q)] with no digits: to the nearest integer, ties to even. *)
Definition round (q : Q) : Z :=
  let f := Qfloor q in
  let r := (q - inject_Z f)%Q in
  match (r ?= 1 # 2)%Q with
  | Lt => f
  | Gt => f + 1
  | Eq => if Z.even f then f else f + 1
  end.

(** Truthiness of an optional integer ([None] and [0] are false). *)
Definition truthy (o : option Z) : bool :=
  match o with
  | Some n => negb (Z.eqb n 0)
  | None => false
  end.

(** [str.strip()] over the ASCII white space characters. *)
Definition is_space (a : ascii) : bool :=
  let n := nat_of_ascii a in
  (Nat.leb 9 n && Nat.leb n 13) || (Nat.leb 28 n && Nat.leb n 32).

Fixpoint lstrip (s : string) : string :=
  match s with
  | String a s' => if is_space a then lstrip s' else s
  | EmptyString => EmptyString
  end.

Fixpoint rstrip (s : string) : string :=
  match s with
  | String a s' =>
      match rstrip s' with
      | EmptyString => if is_space a then EmptyString else String a EmptyString
      | t => String a t
      end
  | EmptyString => EmptyString
  end.

Definition strip (s : string) : string := rstrip (lstrip s).

Definition is_empty (s : string) : bool :=
  match s with EmptyString => true | _ => false end.

(** [l.remove(x)]: without the first occurrence of [x]. *)
Fixpoint remove_first (x : Z) (l : list Z) : list Z :=
  match l with
  | y :: l' => if Z.eqb x y then l' else y :: remove_first x l'
  | [] => []
  end.

(** [del l[a:b]] for [0 <= a <= b]. *)
Definition del_slice {A} (a b : nat) (l : list A) : list A :=
  take a l ++ drop b l.

End Py.

(** Exceptions that the modelled code can raise. *)
Inductive Exn :=
| KeyError (key : string)
| IndexError
| ValueError
| ZeroDivisionError
| AttributeError (attr : string)
| OSError.

Inductive Outcome (S A : Type) :=
| Done (a : A) (s : S)
| Raised (e : Exn) (s : S).
Arguments Done {S A} a s.
Arguments Raised {S A} e s.

Definition M (S A : Type) := S -> Outcome S A.

Definition ret {S A} (a : A) : M S A := fun s => Done a s.
Definition raise {S A} (e : Exn) : M S A := fun s => Raised e s.
Definition bind {S A B} (m : M S A) (k : A -> M S B) : M S B :=
  fun s => match m s with
           | Done a s' => k a s'
           | Raised e s' => Raised e s'
           end.
Definition get {S} : M S S := fun s => Done s s.
Definition gets {S A} (f : S -> A) : M S A := fun s => Done (f s) s.
Definition modify {S} (f : S -> S) : M S unit := fun s => Done tt (f s).

(** [try: body except Exception as e: handler e] *)
Definition try_except {S A} (body : M S A) (handler : Exn -> M S A) : M S A :=
  fun s => match body s with
           | Done a s' => Done a s'
           | Raised e s' => handler e s'
           end.

(** Run a method of a component inside the object that owns it. *)
Definition lift {S T A} (proj : S -> T) (inj : T -> S -> S) (m : M T A) : M S A :=
  fun s => match m (proj s) with
           | Done a t => Done a (inj t s)
           | Raised e t => Raised e (inj t s)
           end.

Global Instance M_ret {S} : MRet (M S) := fun A a => ret a.
Global Instance M_bind {S} : MBind (M S) := fun A B k m => bind m k.

(** The state an outcome ends in, whether it returned or raised. *)
Definition final {S A} (o : Outcome S A) : S :=
  match o with Done _ s => s | Raised _ s => s end.


(** ** class DrawMode *)

Inductive DrawMode := NONE | RECT | POLY | POINT.

Global Instance DrawMode_eq_dec : EqDecision DrawMode.
Proof. solve_decision. Defined.

(** [DrawMode.name] and the lookup [DrawMode[name]]. *)
Definition mode_name (m : DrawMode) : string :=
  match m with
  | NONE => "NONE" | RECT => "RECT" | POLY => "POLY" | POINT => "POINT"
  end.

Definition mode_of_name (s : string) : option DrawMode :=
  if decide (s = "NONE") then Some NONE
  else if decide (s = "RECT") then Some RECT
  else if decide (s = "POLY") then Some POLY
  else if decide (s = "POINT") then Some POINT
  else None.

(** [mode == DrawMode.X], where [mode] may be Python's [None]. *)
Definition mode_is (m : option DrawMode) (d : DrawMode) : bool :=
  bool_decide (m = Some d).

(** ** class DrawingCanvas *)

(** What Tk keeps for one canvas item. *)
Inductive CanvasObj :=
| ObjImage (x y : Q)
| ObjRectangle (pts : list Q)
| ObjPolygon (pts : list Q)
| ObjOval (x1 y1 x2 y2 : Q).

Record DrawingCanvas := mkCanvas {
  image_item : option Z;
  current_mode : option DrawMode;
  current_points : list Q;
  current_item : option Z;
  items : list Z;
  (* the Tk widget underneath *)
  tk_objects : list (Z * CanvasObj);
  tk_next : Z
}.

Module Canvas.

(** [DrawingCanvas.__init__] *)
Definition init : DrawingCanvas :=
  mkCanvas None (Some NONE) [] None [] [] 1.

Definition with_draft (pts : list Q) (it : option Z) (c : DrawingCanvas) :=
  mkCanvas (image_item c) (current_mode c) pts it (items c)
           (tk_objects c) (tk_next c).

Definition with_items (l : list Z) (c : DrawingCanvas) :=
  mkCanvas (image_item c) (current_mode c) (current_points c)
           (current_item c) l (tk_objects c) (tk_next c).

Definition with_mode (m : option DrawMode) (c : DrawingCanvas) :=
  mkCanvas (image_item c) m (current_points c) (current_item c) (items c)
           (tk_objects c) (tk_next c).

(** Tk: [create_*] appends an item and returns its id. *)
Definition tk_create (o : CanvasObj) (c : DrawingCanvas) : Z * DrawingCanvas :=
  (tk_next c,
   mkCanvas (image_item c) (current_mode c) (current_points c)
            (current_item c) (items c)
            (tk_objects c ++ [(tk_next c, o)]) (tk_next c + 1)).

(** Tk: [delete(id)]. *)
Definition tk_delete (id : Z) (c : DrawingCanvas) : DrawingCanvas :=
  mkCanvas (image_item c) (current_mode c) (current_points c)
           (current_item c) (items c)
           (filter (fun p => p.1 <> id) (tk_objects c)) (tk_next c).

(** Tk: [delete("all")]. *)
Definition tk_delete_all (c : DrawingCanvas) : DrawingCanvas :=
  mkCanvas (image_item c) (current_mode c) (current_points c)
           (current_item c) (items c) [] (tk_next c).

Definition set_pts (pts : list Q) (o : CanvasObj) : CanvasObj :=
  match o with
  | ObjRectangle _ => ObjRectangle pts
  | ObjPolygon _ => ObjPolygon pts
  | other => other
  end.

(** Tk: [coords(id, *pts)]. *)
Definition tk_coords (id : Z) (pts : list Q) (c : DrawingCanvas) : DrawingCanvas :=
  mkCanvas (image_item c) (current_mode c) (current_points c)
           (current_item c) (items c)
           (map (fun p => if decide (p.1 = id) then (p.1, set_pts pts p.2) else p)
                (tk_objects c))
           (tk_next c).

(** [clear_item]: drop the unfinished drawing, if there is one. *)
Definition clear_item (c : DrawingCanvas) : DrawingCanvas :=
  match current_item c with
  | Some id =>
      if Py.truthy (Some id)
      then with_draft [] None (tk_delete id c)
      else c
  | None => c
  end.

(** [set_mode] *)
Definition set_mode (m : DrawMode) (c : DrawingCanvas) : DrawingCanvas :=
  let c := with_mode (Some m) c in
  let c := with_draft [] (current_item c) c in
  clear_item c.

(** [on_left_click] with [event.x, event.y = x, y]. *)
Definition on_left_click (x y : Q) (c : DrawingCanvas) : DrawingCanvas :=
  if mode_is (current_mode c) NONE then c
  else
    let c := clear_item c in
    if mode_is (current_mode c) RECT then
      let pts := [x; y; x; y] in
      let '(id, c) := tk_create (ObjRectangle pts) (with_draft pts (current_item c) c) in
      with_draft (current_points c) (Some id) c
    else if mode_is (current_mode c) POLY then
      let pts := current_points c ++ [x; y] in
      let '(id, c) := tk_create (ObjPolygon pts) (with_draft pts (current_item c) c) in
      with_draft (current_points c) (Some id) c
    else if mode_is (current_mode c) POINT then
      let pts := [x; y] in
      let '(id, c) :=
        tk_create (ObjOval (x - 2) (y - 2) (x + 2) (y + 2))%Q
                  (with_draft pts (current_item c) c) in
      with_draft (current_points c) (Some id) c
    else c.

(** [on_drag] *)
Definition on_drag (x y : Q) (c : DrawingCanvas) : DrawingCanvas :=
  match current_item c with
  | Some id =>
      if mode_is (current_mode c) RECT && Py.truthy (Some id) then
        let pts := take 2 (current_points c) ++ [x; y] in
        tk_coords id pts (with_draft pts (Some id) c)
      else c
  | None => c
  end.

(** The dictionary that [on_right_click] returns. *)
Record Finished := mkFinished {
  f_mode : option DrawMode;
  f_points : list Q;
  f_draw_id : Z
}.

(** [on_right_click]: finish the drawing and hand it out. *)
Definition on_right_click (c : DrawingCanvas) : option Finished * DrawingCanvas :=
  match current_item c with
  | None => (None, c)
  | Some id =>
      if mode_is (current_mode c) NONE then (None, c)
      else
        let '(id, c) :=
          if mode_is (current_mode c) POLY then
            let '(id', c') := tk_create (ObjPolygon (current_points c)) (tk_delete id c) in
            (id', with_draft (current_points c') (Some id') c')
          else (id, c) in
        let c := with_items (items c ++ [id]) c in
        let r := mkFinished (current_mode c) (current_points c) id in
        (Some r, with_draft [] None (with_mode None c))
  end.

(** [load_image] *)
Definition load_image (offsets : option (Q * Q)) (c : DrawingCanvas) : DrawingCanvas :=
  let '(ox, oy) := default (0%Q, 0%Q) offsets in
  let '(id, c) := tk_create (ObjImage ox oy) c in
  mkCanvas (Some id) (current_mode c) (current_points c)
           (current_item c) (items c) (tk_objects c) (tk_next c).

(** [load_draw]: draw a stored shape; [None] when nothing was drawn.
    In point mode [x, y = pts[:2]] needs two numbers. *)
Definition load_draw (m : option DrawMode) (pts : list Q) : M DrawingCanvas (option Z) :=
  fun c =>
    let finish (p : Z * DrawingCanvas) : Outcome DrawingCanvas (option Z) :=
      let '(id, c) := p in
      let c := with_draft (current_points c) (Some id) c in
      let c := with_items (items c ++ [id]) c in
      let c := with_draft (current_points c) None c in
      Done (last (items c)) c in
    if mode_is m RECT && bool_decide (length pts = 4%nat) then
      finish (tk_create (ObjRectangle pts) c)
    else if mode_is m POLY && bool_decide (6 <= length pts)%nat then
      finish (tk_create (ObjPolygon pts) c)
    else if mode_is m POINT then
      match take 2 pts with
      | [x; y] => finish (tk_create (ObjOval (x - 8) (y - 8) (x + 8) (y + 8))%Q c)
      | _ => Raised ValueError c
      end
    else Done None c.

(** [clear_all] *)
Definition clear_all (c : DrawingCanvas) : DrawingCanvas :=
  let c := clear_item c in
  let c := fold_left (fun c id => tk_delete id c) (items c) c in
  with_items [] c.

(** [delete_item] *)
Definition delete_item (id : Z) (c : DrawingCanvas) : bool * DrawingCanvas :=
  if bool_decide (id ∈ items c) then
    (true, tk_delete id (with_items (Py.remove_first id (items c)) c))
  else (false, c).

(** [reset] *)
Definition reset (c : DrawingCanvas) : DrawingCanvas :=
  let c := tk_delete_all c in
  mkCanvas None (Some NONE) [] None [] (tk_objects c) (tk_next c).

End Canvas.

(** ** The annotation records *)

(** [VisualAnnotation]: a region in image-pixel coordinates.  The mode is
    whatever the canvas handed out.  Nothing in the class checks it, and
    [on_right_click] leaves the mode of the canvas at Python's [None], so
    the field is an option; in a reachable session it is always a member
    of [DrawMode]. *)
Record VisualAnnotation := mkVisual {
  coords : list Q;
  mode : option DrawMode
}.

(** [QAAnnotation]: one turn of the conversation. *)
Record QAAnnotation := mkQA {
  role : string;
  text : string;
  visual_refs : option (list VisualAnnotation)
}.

(** One entry of [current_draw_info]: the dictionary of a finished or
    re-displayed drawing.  The key ["is_Q"] is optional. *)
Record DrawInfo := mkDrawInfo {
  di_mode : option DrawMode;
  di_points : list Q;
  di_draw_id : option Z;
  di_is_Q : option bool
}.

(** ** The annotation file

    [annotations.json] as the data that [json.dump] writes and [json.load]
    returns: an array of objects with the keys ["image"] and
    ["conversations"], each conversation an object with ["from"],
    ["value"] and optionally ["visual_refs"]. *)
Record JRef := mkJRef {
  j_mode : string;
  j_coords : list Q
}.

Record JTurn := mkJTurn {
  j_from : string;
  j_value : string;
  j_visual_refs : option (list JRef)
}.

Record JItem := mkJItem {
  j_image : string;
  j_conversations : list JTurn
}.

Inductive AnnFile :=
| Parsed (data : list JItem)
| Malformed.

(** A folder on disk: its listing, the sizes of the images that decode,
    and the annotation file if there is one. *)
Record Folder := mkFolder {
  listing : list string;
  images : list (string * (Z * Z));
  annotations_json : option AnnFile
}.

Global Instance Folder_inhabited : Inhabited Folder :=
  populate (mkFolder [] [] None).

(** ** Widgets *)

(** A row of the question/answer list box. *)
Inductive Row :=
| RowTurn (is_question : bool) (count : nat) (qa : QAAnnotation)
| RowSeparator.

Inductive Status :=
| StReady
| StMode (m : DrawMode)
| StClearedCurrent
| StClearedAll
| StFolder (folder : string)
| StLoaded (file_name : string)
| StDrawFinished (d : DrawInfo)
| StAnnotationOutOfRange (index : Z)
| StIndexOutOfRange (index : Z)
| StAnnotationsLoaded (n : nat)
| StSaved (folder : string).

Inductive ZoomLabel :=
| LabelFit
| LabelPercent (p : Z).

Inductive Dialog :=
| WarnNoImages
| WarnEmptyField
| WarnNoFolder
| ErrLoadImage (e : Exn)
| ErrSave (e : Exn)
| ErrLoadAnnotations (e : Exn).

(** ** class ImageQAAnnotator *)

(** A reference to a conversation list object. *)
Abbreviation loc := nat.

(** [x_offset], [y_offset], [current_img_width], [current_img_height]:
    created together by [fit_window]. *)
Record Geometry := mkGeometry {
  x_offset : Q;
  y_offset : Q;
  current_img_width : Z;
  current_img_height : Z
}.

(** The attributes of the window object, the contents of its widgets, and
    the world around it: the store of list objects ([heap], [next_loc]),
    the message boxes shown so far ([dialogs]), the folders on disk and
    the size of the canvas on screen. *)
Record ImageQAAnnotator := mkImageQAAnnotator {
  image_files : list string;
  all_annotations : list (string * loc);
  current_image_index : Z;
  current_original_image : option (Z * Z);
  current_draw_info : list DrawInfo;
  current_annotation : loc;
  is_query_input : bool;
  zoom_factor : Q;
  min_zoom : Q;
  max_zoom : Q;
  fit_to_window : bool;
  images_folder : option string;
  geometry : option Geometry;
  heap : gmap loc (list QAAnnotation);
  next_loc : loc;
  drawing_canvas : DrawingCanvas;
  question_entry : string;
  answer_entry : string;
  qa_listbox : list Row;
  image_tree : list (bool * string);
  image_tree_selection : option nat;
  status_var : Status;
  zoom_label : ZoomLabel;
  dialogs : list Dialog;
  disk : gmap string Folder;
  canvas_size : Z * Z
}.

(** Attribute assignment, one setter per attribute. *)
Definition set_image_files (v : list string) (a : ImageQAAnnotator)
    : ImageQAAnnotator :=
  mkImageQAAnnotator v (all_annotations a) (current_image_index a)
    (current_original_image a) (current_draw_info a) (current_annotation a)
    (is_query_input a) (zoom_factor a) (min_zoom a) (max_zoom a)
    (fit_to_window a) (images_folder a) (geometry a) (heap a) (next_loc a)
    (drawing_canvas a) (question_entry a) (answer_entry a) (qa_listbox a)
    (image_tree a) (image_tree_selection a) (status_var a) (zoom_label a)
    (dialogs a) (disk a) (canvas_size a).

Definition set_all_annotations (v : list (string * loc)) (a : ImageQAAnnotator)
    : ImageQAAnnotator :=
  mkImageQAAnnotator (image_files a) v (current_image_index a)
    (current_original_image a) (current_draw_info a) (current_annotation a)
    (is_query_input a) (zoom_factor a) (min_zoom a) (max_zoom a)
    (fit_to_window a) (images_folder a) (geometry a) (heap a) (next_loc a)
    (drawing_canvas a) (question_entry a) (answer_entry a) (qa_listbox a)
    (image_tree a) (image_tree_selection a) (status_var a) (zoom_label a)
    (dialogs a) (disk a) (canvas_size a).

Definition set_current_image_index (v : Z) (a : ImageQAAnnotator)
    : ImageQAAnnotator :=
  mkImageQAAnnotator (image_files a) (all_annotations a) v
    (current_original_image a) (current_draw_info a) (current_annotation a)
    (is_query_input a) (zoom_factor a) (min_zoom a) (max_zoom a)
    (fit_to_window a) (images_folder a) (geometry a) (heap a) (next_loc a)
    (drawing_canvas a) (question_entry a) (answer_entry a) (qa_listbox a)
    (image_tree a) (image_tree_selection a) (status_var a) (zoom_label a)
    (dialogs a) (disk a) (canvas_size a).

Definition set_current_original_image (v : option (Z * Z)) (a : ImageQAAnnotator)
    : ImageQAAnnotator :=
  mkImageQAAnnotator (image_files a) (all_annotations a)
    (current_image_index a) v (current_draw_info a) (current_annotation a)
    (is_query_input a) (zoom_factor a) (min_zoom a) (max_zoom a)
    (fit_to_window a) (images_folder a) (geometry a) (heap a) (next_loc a)
    (drawing_canvas a) (question_entry a) (answer_entry a) (qa_listbox a)
    (image_tree a) (image_tree_selection a) (status_var a) (zoom_label a)
    (dialogs a) (disk a) (canvas_size a).

Definition set_current_draw_info (v : list DrawInfo) (a : ImageQAAnnotator)
    : ImageQAAnnotator :=
  mkImageQAAnnotator (image_files a) (all_annotations a)
    (current_image_index a) (current_original_image a) v
    (current_annotation a) (is_query_input a) (zoom_factor a) (min_zoom a)
    (max_zoom a) (fit_to_window a) (images_folder a) (geometry a) (heap a)
    (next_loc a) (drawing_canvas a) (question_entry a) (answer_entry a)
    (qa_listbox a) (image_tree a) (image_tree_selection a) (status_var a)
    (zoom_label a) (dialogs a) (disk a) (canvas_size a).

Definition set_current_annotation (v : loc) (a : ImageQAAnnotator)
    : ImageQAAnnotator :=
  mkImageQAAnnotator (image_files a) (all_annotations a)
    (current_image_index a) (current_original_image a) (current_draw_info a) v
    (is_query_input a) (zoom_factor a) (min_zoom a) (max_zoom a)
    (fit_to_window a) (images_folder a) (geometry a) (heap a) (next_loc a)
    (drawing_canvas a) (question_entry a) (answer_entry a) (qa_listbox a)
    (image_tree a) (image_tree_selection a) (status_var a) (zoom_label a)
    (dialogs a) (disk a) (canvas_size a).

Definition set_is_query_input (v : bool) (a : ImageQAAnnotator)
    : ImageQAAnnotator :=
  mkImageQAAnnotator (image_files a) (all_annotations a)
    (current_image_index a) (current_original_image a) (current_draw_info a)
    (current_annotation a) v (zoom_factor a) (min_zoom a) (max_zoom a)
    (fit_to_window a) (images_folder a) (geometry a) (heap a) (next_loc a)
    (drawing_canvas a) (question_entry a) (answer_entry a) (qa_listbox a)
    (image_tree a) (image_tree_selection a) (status_var a) (zoom_label a)
    (dialogs a) (disk a) (canvas_size a).

Definition set_zoom_factor (v : Q) (a : ImageQAAnnotator)
    : ImageQAAnnotator :=
  mkImageQAAnnotator (image_files a) (all_annotations a)
    (current_image_index a) (current_original_image a) (current_draw_info a)
    (current_annotation a) (is_query_input a) v (min_zoom a) (max_zoom a)
    (fit_to_window a) (images_folder a) (geometry a) (heap a) (next_loc a)
    (drawing_canvas a) (question_entry a) (answer_entry a) (qa_listbox a)
    (image_tree a) (image_tree_selection a) (status_var a) (zoom_label a)
    (dialogs a) (disk a) (canvas_size a).

Definition set_min_zoom (v : Q) (a : ImageQAAnnotator)
    : ImageQAAnnotator :=
  mkImageQAAnnotator (image_files a) (all_annotations a)
    (current_image_index a) (current_original_image a) (current_draw_info a)
    (current_annotation a) (is_query_input a) (zoom_factor a) v (max_zoom a)
    (fit_to_window a) (images_folder a) (geometry a) (heap a) (next_loc a)
    (drawing_canvas a) (question_entry a) (answer_entry a) (qa_listbox a)
    (image_tree a) (image_tree_selection a) (status_var a) (zoom_label a)
    (dialogs a) (disk a) (canvas_size a).

Definition set_max_zoom (v : Q) (a : ImageQAAnnotator)
    : ImageQAAnnotator :=
  mkImageQAAnnotator (image_files a) (all_annotations a)
    (current_image_index a) (current_original_image a) (current_draw_info a)
    (current_annotation a) (is_query_input a) (zoom_factor a) (min_zoom a) v
    (fit_to_window a) (images_folder a) (geometry a) (heap a) (next_loc a)
    (drawing_canvas a) (question_entry a) (answer_entry a) (qa_listbox a)
    (image_tree a) (image_tree_selection a) (status_var a) (zoom_label a)
    (dialogs a) (disk a) (canvas_size a).

Definition set_fit_to_window (v : bool) (a : ImageQAAnnotator)
    : ImageQAAnnotator :=
  mkImageQAAnnotator (image_files a) (all_annotations a)
    (current_image_index a) (current_original_image a) (current_draw_info a)
    (current_annotation a) (is_query_input a) (zoom_factor a) (min_zoom a)
    (max_zoom a) v (images_folder a) (geometry a) (heap a) (next_loc a)
    (drawing_canvas a) (question_entry a) (answer_entry a) (qa_listbox a)
    (image_tree a) (image_tree_selection a) (status_var a) (zoom_label a)
    (dialogs a) (disk a) (canvas_size a).

Definition set_images_folder (v : option string) (a : ImageQAAnnotator)
    : ImageQAAnnotator :=
  mkImageQAAnnotator (image_files a) (all_annotations a)
    (current_image_index a) (current_original_image a) (current_draw_info a)
    (current_annotation a) (is_query_input a) (zoom_factor a) (min_zoom a)
    (max_zoom a) (fit_to_window a) v (geometry a) (heap a) (next_loc a)
    (drawing_canvas a) (question_entry a) (answer_entry a) (qa_listbox a)
    (image_tree a) (image_tree_selection a) (status_var a) (zoom_label a)
    (dialogs a) (disk a) (canvas_size a).

Definition set_geometry (v : option Geometry) (a : ImageQAAnnotator)
    : ImageQAAnnotator :=
  mkImageQAAnnotator (image_files a) (all_annotations a)
    (current_image_index a) (current_original_image a) (current_draw_info a)
    (current_annotation a) (is_query_input a) (zoom_factor a) (min_zoom a)
    (max_zoom a) (fit_to_window a) (images_folder a) v (heap a) (next_loc a)
    (drawing_canvas a) (question_entry a) (answer_entry a) (qa_listbox a)
    (image_tree a) (image_tree_selection a) (status_var a) (zoom_label a)
    (dialogs a) (disk a) (canvas_size a).

Definition set_heap (v : gmap loc (list QAAnnotation)) (a : ImageQAAnnotator)
    : ImageQAAnnotator :=
  mkImageQAAnnotator (image_files a) (all_annotations a)
    (current_image_index a) (current_original_image a) (current_draw_info a)
    (current_annotation a) (is_query_input a) (zoom_factor a) (min_zoom a)
    (max_zoom a) (fit_to_window a) (images_folder a) (geometry a) v
    (next_loc a) (drawing_canvas a) (question_entry a) (answer_entry a)
    (qa_listbox a) (image_tree a) (image_tree_selection a) (status_var a)
    (zoom_label a) (dialogs a) (disk a) (canvas_size a).

Definition set_next_loc (v : loc) (a : ImageQAAnnotator)
    : ImageQAAnnotator :=
  mkImageQAAnnotator (image_files a) (all_annotations a)
    (current_image_index a) (current_original_image a) (current_draw_info a)
    (current_annotation a) (is_query_input a) (zoom_factor a) (min_zoom a)
    (max_zoom a) (fit_to_window a) (images_folder a) (geometry a) (heap a) v
    (drawing_canvas a) (question_entry a) (answer_entry a) (qa_listbox a)
    (image_tree a) (image_tree_selection a) (status_var a) (zoom_label a)
    (dialogs a) (disk a) (canvas_size a).

Definition set_drawing_canvas (v : DrawingCanvas) (a : ImageQAAnnotator)
    : ImageQAAnnotator :=
  mkImageQAAnnotator (image_files a) (all_annotations a)
    (current_image_index a) (current_original_image a) (current_draw_info a)
    (current_annotation a) (is_query_input a) (zoom_factor a) (min_zoom a)
    (max_zoom a) (fit_to_window a) (images_folder a) (geometry a) (heap a)
    (next_loc a) v (question_entry a) (answer_entry a) (qa_listbox a)
    (image_tree a) (image_tree_selection a) (status_var a) (zoom_label a)
    (dialogs a) (disk a) (canvas_size a).

Definition set_question_entry (v : string) (a : ImageQAAnnotator)
    : ImageQAAnnotator :=
  mkImageQAAnnotator (image_files a) (all_annotations a)
    (current_image_index a) (current_original_image a) (current_draw_info a)
    (current_annotation a) (is_query_input a) (zoom_factor a) (min_zoom a)
    (max_zoom a) (fit_to_window a) (images_folder a) (geometry a) (heap a)
    (next_loc a) (drawing_canvas a) v (answer_entry a) (qa_listbox a)
    (image_tree a) (image_tree_selection a) (status_var a) (zoom_label a)
    (dialogs a) (disk a) (canvas_size a).

Definition set_answer_entry (v : string) (a : ImageQAAnnotator)
    : ImageQAAnnotator :=
  mkImageQAAnnotator (image_files a) (all_annotations a)
    (current_image_index a) (current_original_image a) (current_draw_info a)
    (current_annotation a) (is_query_input a) (zoom_factor a) (min_zoom a)
    (max_zoom a) (fit_to_window a) (images_folder a) (geometry a) (heap a)
    (next_loc a) (drawing_canvas a) (question_entry a) v (qa_listbox a)
    (image_tree a) (image_tree_selection a) (status_var a) (zoom_label a)
    (dialogs a) (disk a) (canvas_size a).

Definition set_qa_listbox (v : list Row) (a : ImageQAAnnotator)
    : ImageQAAnnotator :=
  mkImageQAAnnotator (image_files a) (all_annotations a)
    (current_image_index a) (current_original_image a) (current_draw_info a)
    (current_annotation a) (is_query_input a) (zoom_factor a) (min_zoom a)
    (max_zoom a) (fit_to_window a) (images_folder a) (geometry a) (heap a)
    (next_loc a) (drawing_canvas a) (question_entry a) (answer_entry a) v
    (image_tree a) (image_tree_selection a) (status_var a) (zoom_label a)
    (dialogs a) (disk a) (canvas_size a).

Definition set_image_tree (v : list (bool * string)) (a : ImageQAAnnotator)
    : ImageQAAnnotator :=
  mkImageQAAnnotator (image_files a) (all_annotations a)
    (current_image_index a) (current_original_image a) (current_draw_info a)
    (current_annotation a) (is_query_input a) (zoom_factor a) (min_zoom a)
    (max_zoom a) (fit_to_window a) (images_folder a) (geometry a) (heap a)
    (next_loc a) (drawing_canvas a) (question_entry a) (answer_entry a)
    (qa_listbox a) v (image_tree_selection a) (status_var a) (zoom_label a)
    (dialogs a) (disk a) (canvas_size a).

Definition set_image_tree_selection (v : option nat) (a : ImageQAAnnotator)
    : ImageQAAnnotator :=
  mkImageQAAnnotator (image_files a) (all_annotations a)
    (current_image_index a) (current_original_image a) (current_draw_info a)
    (current_annotation a) (is_query_input a) (zoom_factor a) (min_zoom a)
    (max_zoom a) (fit_to_window a) (images_folder a) (geometry a) (heap a)
    (next_loc a) (drawing_canvas a) (question_entry a) (answer_entry a)
    (qa_listbox a) (image_tree a) v (status_var a) (zoom_label a) (dialogs a)
    (disk a) (canvas_size a).

Definition set_status_var (v : Status) (a : ImageQAAnnotator)
    : ImageQAAnnotator :=
  mkImageQAAnnotator (image_files a) (all_annotations a)
    (current_image_index a) (current_original_image a) (current_draw_info a)
    (current_annotation a) (is_query_input a) (zoom_factor a) (min_zoom a)
    (max_zoom a) (fit_to_window a) (images_folder a) (geometry a) (heap a)
    (next_loc a) (drawing_canvas a) (question_entry a) (answer_entry a)
    (qa_listbox a) (image_tree a) (image_tree_selection a) v (zoom_label a)
    (dialogs a) (disk a) (canvas_size a).

Definition set_zoom_label (v : ZoomLabel) (a : ImageQAAnnotator)
    : ImageQAAnnotator :=
  mkImageQAAnnotator (image_files a) (all_annotations a)
    (current_image_index a) (current_original_image a) (current_draw_info a)
    (current_annotation a) (is_query_input a) (zoom_factor a) (min_zoom a)
    (max_zoom a) (fit_to_window a) (images_folder a) (geometry a) (heap a)
    (next_loc a) (drawing_canvas a) (question_entry a) (answer_entry a)
    (qa_listbox a) (image_tree a) (image_tree_selection a) (status_var a) v
    (dialogs a) (disk a) (canvas_size a).

Definition set_dialogs (v : list Dialog) (a : ImageQAAnnotator)
    : ImageQAAnnotator :=
  mkImageQAAnnotator (image_files a) (all_annotations a)
    (current_image_index a) (current_original_image a) (current_draw_info a)
    (current_annotation a) (is_query_input a) (zoom_factor a) (min_zoom a)
    (max_zoom a) (fit_to_window a) (images_folder a) (geometry a) (heap a)
    (next_loc a) (drawing_canvas a) (question_entry a) (answer_entry a)
    (qa_listbox a) (image_tree a) (image_tree_selection a) (status_var a)
    (zoom_label a) v (disk a) (canvas_size a).

Definition set_disk (v : gmap string Folder) (a : ImageQAAnnotator)
    : ImageQAAnnotator :=
  mkImageQAAnnotator (image_files a) (all_annotations a)
    (current_image_index a) (current_original_image a) (current_draw_info a)
    (current_annotation a) (is_query_input a) (zoom_factor a) (min_zoom a)
    (max_zoom a) (fit_to_window a) (images_folder a) (geometry a) (heap a)
    (next_loc a) (drawing_canvas a) (question_entry a) (answer_entry a)
    (qa_listbox a) (image_tree a) (image_tree_selection a) (status_var a)
    (zoom_label a) (dialogs a) v (canvas_size a).

Definition set_canvas_size (v : Z * Z) (a : ImageQAAnnotator)
    : ImageQAAnnotator :=
  mkImageQAAnnotator (image_files a) (all_annotations a)
    (current_image_index a) (current_original_image a) (current_draw_info a)
    (current_annotation a) (is_query_input a) (zoom_factor a) (min_zoom a)
    (max_zoom a) (fit_to_window a) (images_folder a) (geometry a) (heap a)
    (next_loc a) (drawing_canvas a) (question_entry a) (answer_entry a)
    (qa_listbox a) (image_tree a) (image_tree_selection a) (status_var a)
    (zoom_label a) (dialogs a) (disk a) v.

(** A method without a result: an event handler. *)
Abbreviation Handler := (M ImageQAAnnotator unit).

(** *** Dictionaries, lists and the store *)

(** A Python [dict] with string keys: keys in insertion order. *)
Module Dict.
Section Ops.
Context {V : Type}.

(** [d.get(k)] *)
Fixpoint get (k : string) (d : list (string * V)) : option V :=
  match d with
  | (k', v) :: d' => if decide (k = k') then Some v else get k d'
  | [] => None
  end.

(** [d[k] = v]: in place for a key that is there, at the end otherwise. *)
Fixpoint set (k : string) (v : V) (d : list (string * V)) : list (string * V) :=
  match d with
  | (k', v') :: d' =>
      if decide (k = k') then (k, v) :: d' else (k', v') :: set k v d'
  | [] => [(k, v)]
  end.

(** [del d[k]] *)
Fixpoint del (k : string) (d : list (string * V)) : list (string * V) :=
  match d with
  | (k', v') :: d' => if decide (k = k') then d' else (k', v') :: del k d'
  | [] => []
  end.

(** [k in d] *)
Definition mem (k : string) (d : list (string * V)) : bool :=
  bool_decide (is_Some (get k d)).
End Ops.
End Dict.

(** [l[i]] for a Python index, which counts from the end when negative. *)
Definition py_index {A} (l : list A) (i : Z) : option A :=
  if 0 <=? i then l !! Z.to_nat i
  else if - Z.of_nat (length l) <=? i then l !! Z.to_nat (Z.of_nat (length l) + i)
  else None.

(** The list object behind a reference. *)
Definition deref (l : loc) (a : ImageQAAnnotator) : list QAAnnotation := heap a !!! l.

(** A new list object. *)
Definition alloc (v : list QAAnnotation) : M ImageQAAnnotator loc :=
  fun a => Done (next_loc a)
                (set_next_loc (S (next_loc a))
                   (set_heap (<[next_loc a := v]> (heap a)) a)).

(** In-place change of a list object. *)
Definition mutate (l : loc) (f : list QAAnnotation -> list QAAnnotation)
    : Handler :=
  modify (fun a => set_heap (<[l := f (deref l a)]> (heap a)) a).

Definition canvas {A} (m : M DrawingCanvas A) : M ImageQAAnnotator A :=
  lift drawing_canvas set_drawing_canvas m.

Definition canvas_do (f : DrawingCanvas -> DrawingCanvas) : Handler :=
  modify (fun a => set_drawing_canvas (f (drawing_canvas a)) a).

Definition messagebox (d : Dialog) : Handler :=
  modify (fun a => set_dialogs (dialogs a ++ [d]) a).

Definition status (s : Status) : Handler := modify (set_status_var s).

(** *** The coordinate transform *)

(** Screen to image pixels, the comprehension of [on_draw_finished]:
    even positions are x coordinates, odd positions y coordinates. *)
Definition to_image_space (zoom xoff yoff : Q) (pts : list Q) : list Q :=
  imap (fun i x => if Nat.even i then Qred ((x - xoff) / zoom)
                   else Qred ((x - yoff) / zoom))%Q pts.

(** Image pixels to screen, the comprehension of [show_qa_pair]. *)
Definition to_screen_space (zoom xoff yoff : Q) (pts : list Q) : list Q :=
  imap (fun i x => if Nat.even i then Qred (x * zoom + xoff)
                   else Qred (x * zoom + yoff))%Q pts.

(** The comprehensions read [self.x_offset] and divide only when there is
    a coordinate to convert. *)
Definition image_points (pts : list Q) : M ImageQAAnnotator (list Q) :=
  fun a =>
    match pts with
    | [] => Done [] a
    | _ :: _ =>
        match geometry a with
        | None => Raised (AttributeError "x_offset") a
        | Some g =>
            if Qeq_bool (zoom_factor a) 0 then Raised ZeroDivisionError a
            else Done (to_image_space (zoom_factor a) (x_offset g) (y_offset g) pts) a
        end
    end.

Definition screen_points (pts : list Q) : M ImageQAAnnotator (list Q) :=
  fun a =>
    match pts with
    | [] => Done [] a
    | _ :: _ =>
        match geometry a with
        | None => Raised (AttributeError "x_offset") a
        | Some g =>
            Done (to_screen_space (zoom_factor a) (x_offset g) (y_offset g) pts) a
        end
    end.

(** *** Numbers and file names *)

Definition Qltb (x y : Q) : bool := negb (Qle_bool y x).

(** [min(x, y)] and [max(x, y)] of two numbers. *)
Definition py_min (x y : Q) : Q := if Qltb y x then y else x.
Definition py_max (x y : Q) : Q := if Qltb x y then y else x.

(** [x / y], which raises on a zero divisor. *)
Definition truediv {S} (x y : Q) : M S Q :=
  if Qeq_bool y 0 then raise ZeroDivisionError else mret (Qred (x / y)).

Definition lower_ascii (a : ascii) : ascii :=
  let n := nat_of_ascii a in
  if Nat.leb 65 n && Nat.leb n 90 then ascii_of_nat (n + 32) else a.

Fixpoint lower (s : string) : string :=
  match s with
  | String a s' => String (lower_ascii a) (lower s')
  | EmptyString => EmptyString
  end.

Definition endswith (s suffix : string) : bool :=
  String.prefix (String.rev suffix) (String.rev s).

(** The filter of [open_images_folder]. *)
Definition is_image_name (f : string) : bool :=
  existsb (endswith (lower f)) [".png"; ".jpg"; ".jpeg"; ".bmp"; ".gif"].

(** *** The viewport *)

(** [display_image]: the scaled image replaces everything on the canvas. *)
Definition display_image : Handler :=
  g ← gets geometry;
  match g with
  | None => raise (AttributeError "current_img_width")
  | Some g =>
      canvas_do Canvas.reset;;
      canvas_do (Canvas.load_image (Some (x_offset g, y_offset g)))
  end.

(** [fit_window] *)
Definition fit_window : Handler :=
  img ← gets current_original_image;
  match img with
  | None => mret tt
  | Some (img_width, img_height) =>
      modify (set_fit_to_window true);;
      '(canvas_width, canvas_height) ← gets canvas_size;
      width_ratio ← truediv (inject_Z canvas_width) (inject_Z img_width);
      height_ratio ← truediv (inject_Z canvas_height) (inject_Z img_height);
      modify (set_zoom_factor (py_min width_ratio height_ratio));;
      modify (fun a => if Qltb (zoom_factor a) (min_zoom a)
                       then set_zoom_factor (min_zoom a) a else a);;
      z ← gets zoom_factor;
      let w := Py.int (inject_Z img_width * z) in
      let h := Py.int (inject_Z img_height * z) in
      modify (set_geometry
                (Some (mkGeometry (inject_Z ((canvas_width - w) / 2))
                                  (inject_Z ((canvas_height - h) / 2)) w h)));;
      modify (set_zoom_label LabelFit);;
      display_image;;
      modify (set_fit_to_window false)
  end.

(** [zoom]; [pos] is [None] for the defaults [x=None, y=None]. *)
Definition zoom (pos : option (Q * Q)) (scale_up : Z) : Handler :=
  img ← gets current_original_image;
  match img with
  | None => mret tt
  | Some (img_width, img_height) =>
      '(canvas_width, canvas_height) ← gets canvas_size;
      let '(x, y) := default (inject_Z (canvas_width / 2),
                              inject_Z (canvas_height / 2)) pos in
      modify (fun a =>
        if scale_up =? 0 then set_zoom_factor 1 a
        else if 0 <? scale_up then
          set_zoom_factor (py_min (Qred (zoom_factor a * (11 # 10))) (max_zoom a)) a
        else
          set_zoom_factor (py_max (Qred (zoom_factor a / (11 # 10))) (min_zoom a)) a);;
      g ← gets geometry;
      match g with
      | None => raise (AttributeError "x_offset")
      | Some g =>
          pos_x ← truediv (x - x_offset g) (inject_Z (current_img_width g));
          pos_y ← truediv (y - y_offset g) (inject_Z (current_img_height g));
          z ← gets zoom_factor;
          let w := Py.int (inject_Z img_width * z) in
          let h := Py.int (inject_Z img_height * z) in
          modify (set_geometry
                    (Some (mkGeometry
                             (Qred (x - inject_Z (Py.int (inject_Z w * pos_x))))
                             (Qred (y - inject_Z (Py.int (inject_Z h * pos_y))))
                             w h)));;
          modify (set_zoom_label (LabelPercent (Py.int (z * 100))));;
          display_image
      end
  end.

(** [reset_zoom] *)
Definition reset_zoom : Handler := zoom None 0.

(** [on_mousewheel] at canvas position [(x, y)] with the event's [delta]
    and [num]. *)
Definition on_mousewheel (x y : Q) (delta num : Z) : Handler :=
  if (0 <? delta) || (num =? 4) then zoom (Some (x, y)) 1
  else zoom (Some (x, y)) (-1).

(** [resize_draw_canvas] with [event.width, event.height]. *)
Definition resize_draw_canvas (canvas_width canvas_height : Z) : Handler :=
  img ← gets current_original_image;
  match img with
  | None => mret tt
  | Some (img_width, img_height) =>
      width_ratio ← truediv (inject_Z canvas_width) (inject_Z img_width);
      height_ratio ← truediv (inject_Z canvas_height) (inject_Z img_height);
      modify (set_zoom_factor (py_min width_ratio height_ratio));;
      modify (fun a => if Qltb (zoom_factor a) (min_zoom a)
                       then set_zoom_factor (min_zoom a) a else a)
  end.

(** *** The lists of the side panel *)

(** A region whose mode has no [.name] (Python's [None]) cannot be
    rendered. *)
Definition refs_named (qa : QAAnnotation) : bool :=
  match visual_refs qa with
  | Some refs => forallb (fun r => bool_decide (is_Some (mode r))) refs
  | None => true
  end.

(** The loop of [update_qa_list]: the rows inserted, and the exception
    that stopped the loop if one did. *)
Fixpoint qa_rows (count : nat) (convs : list QAAnnotation) : list Row * option Exn :=
  match convs with
  | [] => ([], None)
  | conv :: convs' =>
      let is_q := bool_decide (role conv = "human") || bool_decide (role conv = "user") in
      let count := if is_q then S count else count in
      if refs_named conv then
        let '(rows, e) := qa_rows count convs' in
        (RowTurn is_q count conv :: (if is_q then rows else RowSeparator :: rows), e)
      else ([], Some (AttributeError "name"))
  end.

(** [update_qa_list] *)
Definition update_qa_list : Handler :=
  a ← get;
  let '(rows, e) := qa_rows 0 (deref (current_annotation a) a) in
  modify (set_qa_listbox rows);;
  match e with
  | Some e => raise e
  | None => mret tt
  end.

(** [update_image_list] *)
Definition update_image_list : Handler :=
  modify (fun a =>
    let annotated filename :=
      match Dict.get filename (all_annotations a) with
      | Some l => bool_decide (deref l a <> [])
      | None => false
      end in
    let rows := map (fun filename => (annotated filename, filename)) (image_files a) in
    let i := current_image_index a in
    let sel :=
      if bool_decide (image_files a <> []) && (0 <=? i)
         && (i <? Z.of_nat (length (image_files a)))
      then Some (Z.to_nat i) else None in
    set_image_tree_selection sel (set_image_tree rows a)).

(** *** Loading *)

(** The comprehension over [conv["visual_refs"]]; [DrawMode[name]] raises
    for a name that is no member. *)
Fixpoint load_refs (refs : list JRef) : Exn + list VisualAnnotation :=
  match refs with
  | [] => inr []
  | r :: refs' =>
      match mode_of_name (j_mode r) with
      | None => inl (KeyError (j_mode r))
      | Some m =>
          match load_refs refs' with
          | inl e => inl e
          | inr vs => inr (mkVisual (j_coords r) (Some m) :: vs)
          end
      end
  end.

Fixpoint load_conversations (convs : list JTurn) : Exn + list QAAnnotation :=
  match convs with
  | [] => inr []
  | conv :: convs' =>
      let visual_refs :=
        match j_visual_refs conv with
        | Some refs => match load_refs refs with
                       | inl e => inl e
                       | inr vs => inr (Some vs)
                       end
        | None => inr None
        end in
      match visual_refs with
      | inl e => inl e
      | inr vr =>
          match load_conversations convs' with
          | inl e => inl e
          | inr qas => inr (mkQA (j_from conv) (j_value conv) vr :: qas)
          end
      end
  end.

(** The loop over the items of the file. *)
Fixpoint load_items (data : list JItem) : Handler :=
  match data with
  | [] => mret tt
  | item :: data' =>
      match load_conversations (j_conversations item) with
      | inl e => raise e
      | inr conversations =>
          l ← alloc conversations;
          modify (fun a => set_all_annotations
                             (Dict.set (j_image item) l (all_annotations a)) a);;
          load_items data'
      end
  end.

Definition folder_set (a : ImageQAAnnotator) : option string :=
  match images_folder a with
  | Some f => if Py.is_empty f then None else Some f
  | None => None
  end.

(** [load_existing_annotations] *)
Definition load_existing_annotations : Handler :=
  a ← get;
  match folder_set a with
  | None => mret tt
  | Some folder =>
      match annotations_json (disk a !!! folder) with
      | None => mret tt
      | Some file =>
          try_except
            (match file with
             | Malformed => raise ValueError
             | Parsed data =>
                 load_items data;;
                 n ← gets (fun a => length (all_annotations a));
                 status (StAnnotationsLoaded n)
             end)
            (fun e => messagebox (ErrLoadAnnotations e))
      end
  end.

(** [load_current_image] *)
Definition load_current_image : Handler :=
  a ← get;
  if bool_decide (image_files a = [])
     || (Z.of_nat (length (image_files a)) <=? current_image_index a)
  then mret tt
  else
    match py_index (image_files a) (current_image_index a) with
    | None => raise IndexError
    | Some file_name =>
        match images_folder a with
        | None => raise (AttributeError "images_folder")
        | Some folder =>
            try_except
              (match Dict.get file_name (images (disk a !!! folder)) with
               | None => raise OSError
               | Some size =>
                   modify (set_current_original_image (Some size));;
                   let stored := match Dict.get file_name (all_annotations a) with
                                 | Some l => deref l a
                                 | None => []
                                 end in
                   copy ← alloc stored;
                   modify (set_current_annotation copy);;
                   fit_window;;
                   update_qa_list;;
                   update_image_list;;
                   status (StLoaded file_name)
               end)
              (fun e => messagebox (ErrLoadImage e))
        end
    end.

(** [open_images_folder]; [folder] is what the directory dialog returned,
    the empty string when it was cancelled. *)
Definition open_images_folder (folder : string) : Handler :=
  if Py.is_empty folder then mret tt
  else
    modify (set_images_folder (Some folder));;
    d ← gets disk;
    let files := List.filter is_image_name (listing (d !!! folder)) in
    modify (set_image_files files);;
    match files with
    | [] => messagebox WarnNoImages
    | _ :: _ =>
        status (StFolder folder);;
        load_existing_annotations;;
        update_image_list;;
        modify (set_current_image_index 0);;
        load_current_image
    end.

(** [jump2image] *)
Definition jump2image (index : Z) : Handler :=
  a ← get;
  if (Z.of_nat (length (image_files a)) <=? index) || (index <? 0)
  then status (StIndexOutOfRange index)
  else
    modify (set_current_image_index index);;
    load_current_image.

(** [on_image_selected]; [selected] is the row of the first selected item
    of the image list, if any. *)
Definition on_image_selected (selected : option nat) : Handler :=
  match selected with
  | None => mret tt
  | Some index =>
      i ← gets current_image_index;
      if bool_decide (Z.of_nat index <> i) then jump2image (Z.of_nat index)
      else mret tt
  end.

(** *** Drawing and editing *)

(** [on_draw_finished]: the right click on the canvas. *)
Definition on_draw_finished : Handler :=
  ref ← canvas (fun c => let '(r, c') := Canvas.on_right_click c in Done r c');
  match ref with
  | None => mret tt
  | Some r =>
      pts ← image_points (Canvas.f_points r);
      q ← gets is_query_input;
      let d := mkDrawInfo (Canvas.f_mode r) pts (Some (Canvas.f_draw_id r)) (Some q) in
      modify (fun a => set_current_draw_info (current_draw_info a ++ [d]) a);;
      status (StDrawFinished d)
  end.

(** [on_click_query_entry], [on_click_anwser_entry] *)
Definition on_click_query_entry : Handler := modify (set_is_query_input true).
Definition on_click_anwser_entry : Handler := modify (set_is_query_input false).

(** The loop of [add_qa_pair] over [current_draw_info]; reading
    [draw_item["is_Q"]] raises when the key is missing. *)
Fixpoint split_refs (infos : list DrawInfo)
    (visual_refs_query visual_refs_anwser : list VisualAnnotation)
    : Exn + (list VisualAnnotation * list VisualAnnotation) :=
  match infos with
  | [] => inr (visual_refs_query, visual_refs_anwser)
  | draw_item :: infos' =>
      let ref := mkVisual (di_points draw_item) (di_mode draw_item) in
      match di_is_Q draw_item with
      | None => inl (KeyError "is_Q")
      | Some true => split_refs infos' (visual_refs_query ++ [ref]) visual_refs_anwser
      | Some false => split_refs infos' visual_refs_query (visual_refs_anwser ++ [ref])
      end
  end.

(** [refs or None] *)
Definition or_None {A} (l : list A) : option (list A) :=
  match l with [] => None | _ :: _ => Some l end.

(** [add_qa_pair] *)
Definition add_qa_pair : Handler :=
  a ← get;
  let question := Py.strip (question_entry a) in
  let answer := Py.strip (answer_entry a) in
  if Py.is_empty question || Py.is_empty answer then messagebox WarnEmptyField
  else
    match split_refs (current_draw_info a) [] [] with
    | inl e => raise e
    | inr (visual_refs_query, visual_refs_anwser) =>
        modify (set_current_draw_info []);;
        let question_ann := mkQA "human" question (or_None visual_refs_query) in
        let answer_ann := mkQA "gpt" answer (or_None visual_refs_anwser) in
        mutate (current_annotation a) (fun l => l ++ [question_ann; answer_ann]);;
        update_qa_list;;
        canvas_do Canvas.clear_all;;
        modify (set_question_entry "");;
        modify (set_answer_entry "")
    end.

(** [delete_qa_pair]; [selected] is the first selected row of the list
    box, consulted when no index is given. *)
Definition delete_qa_pair (index : option nat) (selected : option nat) : Handler :=
  let index :=
    match index with
    | Some i => Some i
    | None => (fun s => s `div` 3)%nat <$> selected
    end in
  match index with
  | None => mret tt
  | Some index =>
      cur ← gets current_annotation;
      mutate cur (Py.del_slice (index * 2) (index * 2 + 2));;
      modify (fun a => set_qa_listbox
                         (Py.del_slice (index * 3) (index * 3 + 3) (qa_listbox a)) a)
  end.

(** [clear_qa_pairs]; [confirmed] is the answer to the yes/no dialog. *)
Definition clear_qa_pairs (confirmed : bool) : Handler :=
  if confirmed then
    cur ← gets current_annotation;
    mutate cur (fun _ => []);;
    modify (set_qa_listbox [])
  else mret tt.

(** The loop of [show_qa_pair] over the regions of one turn. *)
Fixpoint show_refs (refs : list VisualAnnotation) : Handler :=
  match refs with
  | [] => mret tt
  | ref :: refs' =>
      canvas_coords ← screen_points (coords ref);
      draw_id ← canvas (Canvas.load_draw (mode ref) canvas_coords);
      modify (fun a => set_current_draw_info
                (current_draw_info a
                 ++ [mkDrawInfo (mode ref) canvas_coords draw_id None]) a);;
      show_refs refs'
  end.

(** [show_qa_pair] *)
Definition show_qa_pair (index : Z) : Handler :=
  a ← get;
  let current := deref (current_annotation a) a in
  if (index <? 0) || (Z.of_nat (length current) <=? index)
  then status (StAnnotationOutOfRange index)
  else
    canvas_do Canvas.clear_all;;
    match py_index current (index / 2 * 2) with
    | None => raise IndexError
    | Some ann =>
        match visual_refs ann with
        | Some refs => show_refs refs
        | None => mret tt
        end
    end.

(** [edit_qa_pair] *)
Definition edit_qa_pair (selected : option nat) : Handler :=
  match selected with
  | None => mret tt
  | Some s =>
      let index := (s `div` 3)%nat in
      modify (set_question_entry "");;
      a ← get;
      let current := deref (current_annotation a) a in
      match current !! (index * 2)%nat with
      | None => raise IndexError
      | Some q =>
          modify (set_question_entry (text q));;
          modify (set_answer_entry "");;
          match current !! (index * 2 + 1)%nat with
          | None => raise IndexError
          | Some ans =>
              modify (set_answer_entry (text ans));;
              show_qa_pair (Z.of_nat (index * 2));;
              delete_qa_pair (Some index) selected
          end
      end
  end.

(** *** Saving *)

(** The comprehension over [qa.visual_refs] in [save_annotations]. *)
Fixpoint dump_refs (refs : list VisualAnnotation) : Exn + list JRef :=
  match refs with
  | [] => inr []
  | ref :: refs' =>
      match mode ref with
      | None => inl (AttributeError "name")
      | Some m =>
          match dump_refs refs' with
          | inl e => inl e
          | inr js =>
              inr (mkJRef (mode_name m)
                          (map (fun x => inject_Z (Py.round x)) (coords ref)) :: js)
          end
      end
  end.

Fixpoint dump_conversations (convs : list QAAnnotation) : Exn + list JTurn :=
  match convs with
  | [] => inr []
  | qa :: convs' =>
      let refs :=
        match visual_refs qa with
        | Some (r :: rs) => match dump_refs (r :: rs) with
                            | inl e => inl e
                            | inr js => inr (Some js)
                            end
        | _ => inr None
        end in
      match refs with
      | inl e => inl e
      | inr vr =>
          match dump_conversations convs' with
          | inl e => inl e
          | inr js => inr (mkJTurn (role qa) (text qa) vr :: js)
          end
      end
  end.

(** The loop over [all_annotations.items()]. *)
Fixpoint dump_items (entries : list (string * list QAAnnotation)) : Exn + list JItem :=
  match entries with
  | [] => inr []
  | (image_id, conversations) :: entries' =>
      match dump_conversations conversations with
      | inl e => inl e
      | inr new_conversations =>
          match dump_items entries' with
          | inl e => inl e
          | inr js => inr (mkJItem image_id new_conversations :: js)
          end
      end
  end.

(** [all_annotations.items()] with every list object read. *)
Definition annotation_items (a : ImageQAAnnotator) : list (string * list QAAnnotation) :=
  map (fun p => (p.1, deref p.2 a)) (all_annotations a).

Definition write_annotations (folder : string) (data : list JItem) : Handler :=
  modify (fun a =>
    let f := disk a !!! folder in
    set_disk (<[folder := mkFolder (listing f) (images f) (Some (Parsed data))]>
                (disk a)) a).

(** [save_annotations] *)
Definition save_annotations : Handler :=
  a ← get;
  match folder_set a with
  | None => messagebox WarnNoFolder
  | Some folder =>
      match py_index (image_files a) (current_image_index a) with
      | None => raise IndexError
      | Some file_name =>
          if bool_decide (length (deref (current_annotation a) a) = 0%nat) then
            if Dict.mem file_name (all_annotations a) then
              modify (set_all_annotations (Dict.del file_name (all_annotations a)))
            else mret tt
          else
            modify (set_all_annotations
                      (Dict.set file_name (current_annotation a) (all_annotations a)));;
            try_except
              (a ← get;
               match dump_items (annotation_items a) with
               | inl e => raise e
               | inr annotations_data =>
                   write_annotations folder annotations_data;;
                   status (StSaved folder)
               end)
              (fun e => messagebox (ErrSave e))
      end
  end.

(** *** The buttons of the drawing tool bar and the window at start *)

Definition button_mode (m : DrawMode) : Handler :=
  canvas_do (Canvas.set_mode m);; status (StMode m).

Definition button_clear_current : Handler :=
  canvas_do Canvas.clear_item;; status StClearedCurrent.

Definition button_clear_all : Handler :=
  canvas_do Canvas.clear_all;;
  modify (set_current_draw_info []);;
  status StClearedAll.

(** The mouse bindings of [setup_image_display]: left button and drag go
    to the canvas, the right button to [on_draw_finished]. *)
Definition left_click (x y : Q) : Handler := canvas_do (Canvas.on_left_click x y).
Definition drag (x y : Q) : Handler := canvas_do (Canvas.on_drag x y).

(** Typing into the two entry fields. *)
Definition type_question (s : string) : Handler := modify (set_question_entry s).
Definition type_answer (s : string) : Handler := modify (set_answer_entry s).

(** The zoom limits that [__init__] sets. *)
Definition default_min_zoom : Q := 1 # 10.
Definition default_max_zoom : Q := 5.

(** [ImageQAAnnotator.__init__] in a world with the given disk and canvas
    size.  The empty list of [current_annotation] is the first object of
    the store. *)
Definition init (d : gmap string Folder) (size : Z * Z) : ImageQAAnnotator :=
  mkImageQAAnnotator
        [] [] 0 None [] 0%nat false 1 default_min_zoom default_max_zoom true
        None None
        {[ 0%nat := [] ]} 1%nat Canvas.init "" "" [] [] None StReady LabelFit []
        d size.

(** Run one event handler after another; an exception ends a handler, is
    reported by Tk, and the event loop goes on. *)
Definition step (m : Handler) (a : ImageQAAnnotator) : ImageQAAnnotator :=
  final (m a).

Definition run (ms : list (Handler)) (a : ImageQAAnnotator) : ImageQAAnnotator :=
  fold_left (fun a m => step m a) ms a.


(** * Specification vocabulary *)

(** [P] survives [m], whether [m] returns or raises. *)
Definition stable {S A} (P : S -> Prop) (m : M S A) : Prop :=
  forall s, P s -> P (final (m s)).

(** ** Zoom *)

(** The handlers that assign [zoom_factor]. *)
Inductive ZoomOp :=
| OpResetZoom
| OpWheel (x y : Q) (delta num : Z)
| OpFitWindow
| OpResize (canvas_width canvas_height : Z).

Definition zoom_op (op : ZoomOp) : Handler :=
  match op with
  | OpResetZoom => reset_zoom
  | OpWheel x y delta num => on_mousewheel x y delta num
  | OpFitWindow => fit_window
  | OpResize w h => resize_draw_canvas w h
  end.

(** The handlers that go through [zoom]. *)
Definition through_zoom (op : ZoomOp) : bool :=
  match op with
  | OpResetZoom | OpWheel _ _ _ _ => true
  | OpFitWindow | OpResize _ _ => false
  end.

(** The limits are the ones of [__init__]. *)
Definition zoom_limits (a : ImageQAAnnotator) : Prop :=
  min_zoom a = default_min_zoom /\ max_zoom a = default_max_zoom.

Definition zoom_at_least_min (a : ImageQAAnnotator) : Prop :=
  zoom_limits a /\ (min_zoom a <= zoom_factor a)%Q.

Definition zoom_in_range (a : ImageQAAnnotator) : Prop :=
  zoom_limits a /\ (min_zoom a <= zoom_factor a)%Q /\ (zoom_factor a <= max_zoom a)%Q.

(** ** The annotation file *)

(** What a save followed by a load makes of the annotations: every
    coordinate rounded, a region list that is empty gone. *)
Definition rounded (x : Q) : Q := inject_Z (Py.round x).

Definition normal_ref (r : VisualAnnotation) : VisualAnnotation :=
  mkVisual (map rounded (coords r)) (mode r).

Definition normal_turn (qa : QAAnnotation) : QAAnnotation :=
  mkQA (role qa) (text qa)
       (match visual_refs qa with
        | Some (r :: rs) => Some (map normal_ref (r :: rs))
        | _ => None
        end).

Definition normal_items (entries : list (string * list QAAnnotation))
    : list (string * list QAAnnotation) :=
  map (fun p => (p.1, map normal_turn p.2)) entries.

(** The data of a turn: its role, its text and its regions, none when
    [visual_refs] is absent. *)
Definition regions (qa : QAAnnotation) : list VisualAnnotation :=
  default [] (visual_refs qa).

Definition turn_data (qa : QAAnnotation) : string * string * list VisualAnnotation :=
  (role qa, text qa, regions qa).

Definition items_data (entries : list (string * list QAAnnotation))
    : list (string * list (string * string * list VisualAnnotation)) :=
  map (fun p => (p.1, map turn_data p.2)) entries.

(** A number that is an integer already. *)
Definition integral (x : Q) : bool := Pos.eqb (Qden x) 1.

Definition items_integral (entries : list (string * list QAAnnotation)) : bool :=
  forallb (fun p => forallb (fun qa =>
    forallb (fun r => forallb integral (coords r)) (regions qa)) p.2) entries.

(** Every region carries a member of [DrawMode]. *)
Definition items_named (entries : list (string * list QAAnnotation)) : bool :=
  forallb (fun p => forallb refs_named p.2) entries.

(** The typing that Python does not check: the keys of the dictionary are
    distinct, and every region of the session carries a member of
    [DrawMode]. *)
Definition well_formed (a : ImageQAAnnotator) : Prop :=
  NoDup (all_annotations a).*1 /\
  items_named (annotation_items a) = true /\
  forallb refs_named (deref (current_annotation a) a) = true.

(** Every reference held by [all_annotations] is an allocated one. *)
Definition closed (a : ImageQAAnnotator) : Prop :=
  forall k l, (k, l) ∈ all_annotations a -> (l < next_loc a)%nat.

(** The session after [all_annotations[file_name] = current_annotation]. *)
Definition entered (file_name : string) (a : ImageQAAnnotator) : ImageQAAnnotator :=
  set_all_annotations
    (Dict.set file_name (current_annotation a) (all_annotations a)) a.

(** The session after the file has been written. *)
Definition written (folder : string) (data : list JItem) (a : ImageQAAnnotator)
    : ImageQAAnnotator :=
  set_status_var (StSaved folder)
    (set_disk (<[folder := mkFolder (listing (disk a !!! folder))
                                    (images (disk a !!! folder))
                                    (Some (Parsed data))]> (disk a)) a).

(** An item of the file and the entry it was written from. *)
Definition written_from (e : string * list QAAnnotation) (item : JItem) : Prop :=
  j_image item = e.1 /\
  load_conversations (j_conversations item) = inr (map normal_turn e.2).

(** A fresh session on the disk that [a] leaves behind, reading the
    annotation file of [folder]. *)
Definition fresh_load (folder : string) (a : ImageQAAnnotator) : ImageQAAnnotator :=
  step load_existing_annotations
       (set_images_folder (Some folder) (init (disk a) (canvas_size a))).

(** ** Editing *)

(** The handlers that edit [current_annotation]. *)
Inductive EditOp :=
| OpType (question answer : string)
| OpAdd
| OpDelete (selected : option nat)
| OpEdit (selected : option nat)
| OpClear (confirmed : bool).

Definition edit_op (op : EditOp) : Handler :=
  match op with
  | OpType question answer => type_question question;; type_answer answer
  | OpAdd => add_qa_pair
  | OpDelete selected => delete_qa_pair None selected
  | OpEdit selected => edit_qa_pair selected
  | OpClear confirmed => clear_qa_pairs confirmed
  end.

(** No entry of [all_annotations] is the list object that
    [current_annotation] names. *)
Definition unshared (a : ImageQAAnnotator) : Prop :=
  forall k l, (k, l) ∈ all_annotations a -> l <> current_annotation a.

(** [s] differs from [a] at most in the contents of the current list
    object and in attributes other than the annotations. *)
Definition edits (a s : ImageQAAnnotator) : Prop :=
  all_annotations s = all_annotations a /\
  current_annotation s = current_annotation a /\
  forall l, l <> current_annotation a -> heap s !!! l = heap a !!! l.

(** ** Reachable sessions *)

(** What the user and the window system can do. *)
Inductive Event :=
| EvOpenFolder (folder : string)
| EvSave
| EvPrevious
| EvNext
| EvSelectImage (row : option nat)
| EvFitWindow
| EvResetZoom
| EvMouseWheel (x y : Q) (delta num : Z)
| EvCanvasSize (width height : Z)
| EvModeButton (m : DrawMode)
| EvClearCurrent
| EvClearAll
| EvLeftClick (x y : Q)
| EvDrag (x y : Q)
| EvRightClick
| EvClickQuestion
| EvClickAnswer
| EvTypeQuestion (s : string)
| EvTypeAnswer (s : string)
| EvAdd
| EvEdit (selected : option nat)
| EvDelete (selected : option nat)
| EvClear (confirmed : bool).

(** The handler that [setup_ui] binds to each event. *)
Definition handle (ev : Event) : Handler :=
  match ev with
  | EvOpenFolder folder => open_images_folder folder
  | EvSave => save_annotations
  | EvPrevious => i ← gets current_image_index; jump2image (i - 1)
  | EvNext => i ← gets current_image_index; jump2image (i + 1)
  | EvSelectImage row => on_image_selected row
  | EvFitWindow => fit_window
  | EvResetZoom => reset_zoom
  | EvMouseWheel x y delta num => on_mousewheel x y delta num
  | EvCanvasSize width height => modify (set_canvas_size (width, height))
  | EvModeButton m => button_mode m
  | EvClearCurrent => button_clear_current
  | EvClearAll => button_clear_all
  | EvLeftClick x y => left_click x y
  | EvDrag x y => drag x y
  | EvRightClick => on_draw_finished
  | EvClickQuestion => on_click_query_entry
  | EvClickAnswer => on_click_anwser_entry
  | EvTypeQuestion s => type_question s
  | EvTypeAnswer s => type_answer s
  | EvAdd => add_qa_pair
  | EvEdit selected => edit_qa_pair selected
  | EvDelete selected => delete_qa_pair None selected
  | EvClear confirmed => clear_qa_pairs confirmed
  end.

(** A session that the window can be in: started on some disk with some
    canvas size, and driven by events. *)
Definition reachable (a : ImageQAAnnotator) : Prop :=
  exists d size evs, a = run (map handle evs) (init d size).

(** A draft on the canvas was started in a mode: with a current item the
    mode is a member of [DrawMode], not Python's [None]. *)
Definition draft_has_mode (c : DrawingCanvas) : Prop :=
  current_item c <> None -> is_Some (current_mode c).

(** Every list object holds regions with a mode. *)
Definition heap_named (a : ImageQAAnnotator) : Prop :=
  forall l convs, heap a !! l = Some convs -> forallb refs_named convs = true.

(** The modes of the session are members of [DrawMode] throughout. *)
Definition modes_typed (a : ImageQAAnnotator) : Prop :=
  draft_has_mode (drawing_canvas a) /\
  Forall (fun d => is_Some (di_mode d)) (current_draw_info a) /\
  heap_named a.

(** The keys of [all_annotations] are distinct. *)
Definition keys_distinct (a : ImageQAAnnotator) : Prop := NoDup (all_annotations a).*1.


(** ** Example sessions *)

(** A small working folder: two images and a text file, no annotation
    file yet, on an 800 by 600 canvas. *)
Definition example_disk : gmap string Folder :=
  {[ "imgs" := mkFolder ["a.png"; "b.JPG"; "notes.txt"]
                        [("a.png", (400, 300)); ("b.JPG", (10, 10))] None ]}.

(** The events of [evs] after those that led to [a]. *)
Definition after (a : ImageQAAnnotator) (evs : list Event) : ImageQAAnnotator :=
  run (map handle evs) a.

(** The folder opened: the first image, 400 by 300, is shown at zoom 2. *)
Definition example_session : ImageQAAnnotator :=
  after (init example_disk (800, 600)) [EvOpenFolder "imgs"].

(** The second image, ten pixels wide and high, on the same canvas. *)
Definition example_small_image : ImageQAAnnotator :=
  after example_session [EvNext].

(** One question and answer typed for the first image, then saved. *)
Definition example_annotated : ImageQAAnnotator :=
  after example_session [EvTypeQuestion "Q1"; EvTypeAnswer "A1"; EvAdd; EvSave].

(** The saved pair cleared again, then saved. *)
Definition example_emptied : ImageQAAnnotator :=
  after example_annotated [EvClear true; EvSave].

(** A second pair added after the save, without saving again. *)
Definition example_edited_after_save : ImageQAAnnotator :=
  after example_annotated [EvTypeQuestion "Q2"; EvTypeAnswer "A2"; EvAdd].

(** Three clicks in polygon mode on a fresh canvas. *)
Definition example_polygon_clicks : DrawingCanvas :=
  Canvas.on_left_click 5 10
    (Canvas.on_left_click 10 0
       (Canvas.on_left_click 0 0 (Canvas.set_mode POLY Canvas.init))).

(** One click in polygon mode on a fresh canvas. *)
Definition example_polygon_one_click : DrawingCanvas :=
  Canvas.on_left_click 3 4 (Canvas.set_mode POLY Canvas.init).

(** A pair whose answer carries a rectangle: the rectangle is drawn while
    the answer field is the active one. *)
Definition example_answer_region : ImageQAAnnotator :=
  after example_session
    [EvModeButton RECT; EvLeftClick 10 10; EvDrag 50 80;
     EvClickAnswer; EvRightClick;
     EvTypeQuestion "Q"; EvTypeAnswer "A"; EvAdd].

(** A pair whose question carries a point. *)
Definition example_question_region : ImageQAAnnotator :=
  after example_session
    [EvModeButton POINT; EvLeftClick 100 100;
     EvClickQuestion; EvRightClick;
     EvTypeQuestion "Q"; EvTypeAnswer "A"; EvAdd].

(** The first row of the list box selected and "edit" pressed. *)
Definition example_editing : ImageQAAnnotator :=
  after example_question_region [EvEdit (Some 0%nat)].

(** A pair with a rectangle whose corners fall on half pixels of the
    image, not saved yet. *)
Definition example_half_pixel : ImageQAAnnotator :=
  after example_session
    [EvModeButton RECT; EvLeftClick 11 11; EvDrag 51 82;
     EvClickQuestion; EvRightClick;
     EvTypeQuestion "Q"; EvTypeAnswer "A"; EvAdd].

(** Two points, the second at a half pixel. *)
Definition example_points : list Q := [3; 4; 5 # 2; 7]%Q.

(** The ids that Tk hands out are positive, and the points of a draft go
    when its item goes. *)
Definition draft_consistent (c : DrawingCanvas) : Prop :=
  1 <= tk_next c /\
  (forall id, current_item c = Some id -> id <> 0) /\
  (current_item c = None -> current_points c = []).

(** * More of the drawing canvas *)

(** A drag for each position of the list, in order. *)
Definition drag_all (drags : list (Q * Q)) (c : DrawingCanvas) : DrawingCanvas :=
  fold_left (fun c p => Canvas.on_drag p.1 p.2 c) drags c.

(** A left click for each position of the list, in order. *)
Definition click_all (clicks : list (Q * Q)) (c : DrawingCanvas) : DrawingCanvas :=
  fold_left (fun c p => Canvas.on_left_click p.1 p.2 c) clicks c.

(** The shapes that [load_draw] draws: a rectangle of four numbers, a
    polygon of six or more, a point of two or more. *)
Definition drawable (m : option DrawMode) (pts : list Q) : bool :=
  (mode_is m RECT && bool_decide (length pts = 4%nat))
  || (mode_is m POLY && bool_decide (6 <= length pts)%nat)
  || (mode_is m POINT && bool_decide (2 <= length pts)%nat).

(** The ids on the canvas come from Tk's counter: they are positive and
    below the next one. *)
Definition ids_fresh (c : DrawingCanvas) : Prop :=
  1 <= tk_next c /\ Forall (fun p => 1 <= p.1 < tk_next c) (tk_objects c).

(** The book-keeping of the canvas: the committed ids and the draft's id
    are ids that Tk handed out, the draft is not among the committed
    shapes, and whatever is drawn is the image, a committed shape or the
    draft. *)
Definition canvas_ok (c : DrawingCanvas) : Prop :=
  ids_fresh c /\
  Forall (fun id => id < tk_next c) (items c) /\
  (forall id, current_item c = Some id -> 1 <= id < tk_next c /\ id ∉ items c) /\
  (forall p, p ∈ tk_objects c ->
             image_item c = Some p.1 \/ p.1 ∈ items c \/ current_item c = Some p.1).

(** A canvas with a committed rectangle, a point draft and the image. *)
Definition example_canvas : DrawingCanvas :=
  Canvas.on_left_click 7 7
    (Canvas.set_mode POINT
       (Canvas.on_right_click
          (Canvas.on_drag 30 40
             (Canvas.on_left_click 1 2
                (Canvas.set_mode RECT (Canvas.load_image None Canvas.init))))).2).

(** The image is not a shape: its id is neither committed nor the
    draft's. *)
Definition image_apart (c : DrawingCanvas) : Prop :=
  forall id, image_item c = Some id ->
             id < tk_next c /\ (id ∉ items c) /\ current_item c <> Some id.

(** A draft has the numbers of its mode: two corners for a rectangle, one
    position for a point, and one vertex for a polygon. *)
Definition draft_shaped (c : DrawingCanvas) : Prop :=
  forall id, current_item c = Some id ->
    match current_mode c with
    | Some RECT => length (current_points c) = 4%nat
    | Some POLY | Some POINT => length (current_points c) = 2%nat
    | _ => True
    end.

(** Everything that the event handlers keep true of the canvas. *)
Definition canvas_inv (c : DrawingCanvas) : Prop :=
  draft_consistent c /\ canvas_ok c /\ image_apart c /\ draft_shaped c.

(** The committed shapes as they are drawn, bottom to top. *)
Definition shape_objects (c : DrawingCanvas) : list (Z * CanvasObj) :=
  filter (fun p => p.1 ∈ items c) (tk_objects c).

(** The events that only touch the draft: the mode buttons, "clear
    current", a press and a drag on the canvas. *)
Definition draft_event (ev : Event) : bool :=
  match ev with
  | EvModeButton _ | EvClearCurrent | EvLeftClick _ _ | EvDrag _ _ => true
  | _ => false
  end.

(** Whether [load_draw] draws the shape, on canvas [c]. *)
Definition draws (m : option DrawMode) (pts : list Q) (c : DrawingCanvas) : bool :=
  match Canvas.load_draw m pts c with
  | Done (Some _) _ => true
  | _ => false
  end.

(** A session with a committed rectangle and a point draft on the image. *)
Definition example_drafting : ImageQAAnnotator :=
  after example_session
    [EvModeButton RECT; EvLeftClick 10 10; EvDrag 50 80; EvRightClick;
     EvModeButton POINT; EvLeftClick 100 100].

(** A rectangle draft on the image. *)
Definition example_rectangle_draft : ImageQAAnnotator :=
  after example_session [EvModeButton RECT; EvLeftClick 10 10; EvDrag 50 80].

(** * More of the viewport *)

(** The events that redraw the image: the two zoom buttons and the
    wheel. *)
Definition viewport_event (ev : Event) : bool :=
  match ev with
  | EvFitWindow | EvResetZoom | EvMouseWheel _ _ _ _ => true
  | _ => false
  end.

(** A rectangle drawn and committed for the question, not added yet. *)
Definition example_staged : ImageQAAnnotator :=
  after example_session
    [EvModeButton RECT; EvLeftClick 10 10; EvDrag 50 80;
     EvClickQuestion; EvRightClick].

(** * More of the session *)

(** A second folder without any image, beside the working folder. *)
Definition example_two_folders : gmap string Folder :=
  <[ "empty" := mkFolder ["notes.txt"] [] None ]> example_disk.

(** A pair saved in the working folder, on a disk with both folders. *)
Definition example_saved_two_folders : ImageQAAnnotator :=
  after (init example_two_folders (800, 600))
    [EvOpenFolder "imgs"; EvTypeQuestion "Q1"; EvTypeAnswer "A1"; EvAdd; EvSave].

(** A working folder whose second image file cannot be read. *)
Definition example_unreadable : ImageQAAnnotator :=
  after (init {[ "imgs" := mkFolder ["a.png"; "broken.png"]
                                    [("a.png", (400, 300))] None ]} (800, 600))
    [EvOpenFolder "imgs"; EvTypeQuestion "Q1"; EvTypeAnswer "A1"; EvAdd].

(** A rectangle drawn before any folder is opened. *)
Definition example_no_image_draft : ImageQAAnnotator :=
  after (init example_disk (800, 600))
    [EvModeButton RECT; EvLeftClick 10 10; EvDrag 50 80].

(** * More of the annotation file *)

(** A turn as [save_annotations] writes it: the coordinates are
    integers, and a list of regions that is there is not empty. *)
Definition canonical_turn (t : JTurn) : bool :=
  match j_visual_refs t with
  | Some [] => false
  | Some refs => forallb (fun r => forallb integral (j_coords r)) refs
  | None => true
  end.

(** Whether the turns of an item can be read. *)
Definition loads (item : JItem) : bool :=
  match load_conversations (j_conversations item) with
  | inr _ => true
  | inl _ => false
  end.

(** Two turns, the first with a rectangle. *)
Definition example_turns : list JTurn :=
  [mkJTurn "human" "Q" (Some [mkJRef "RECT" [5; 5; 25; 40]%Q]);
   mkJTurn "gpt" "A" None].

(** An annotation file whose second item names a mode that is no member
    of [DrawMode]. *)
Definition example_bad_file : list JItem :=
  [mkJItem "a.png" example_turns;
   mkJItem "b.JPG" [mkJTurn "human" "Q" (Some [mkJRef "CIRCLE" [1; 2]%Q])];
   mkJItem "c.png" example_turns].

(** The window started in a folder with that file, nothing opened yet. *)
Definition example_bad_folder : ImageQAAnnotator :=
  set_images_folder (Some "imgs")
    (init {[ "imgs" := mkFolder ["a.png"; "b.JPG"]
                                [("a.png", (400, 300)); ("b.JPG", (10, 10))]
                                (Some (Parsed example_bad_file)) ]} (800, 600)).

(** * More of the conversation *)


(** The test of [update_qa_list] for a question turn. *)
Definition is_question (qa : QAAnnotation) : bool :=
  bool_decide (role qa = "human") || bool_decide (role qa = "user").

(** A conversation of question and answer pairs. *)
Fixpoint paired (convs : list QAAnnotation) : bool :=
  match convs with
  | [] => true
  | q :: rest =>
      match rest with
      | ans :: rest' => is_question q && negb (is_question ans) && paired rest'
      | [] => false
      end
  end.

(** The turn that a row of the list box shows. *)
Definition row_turn (r : Row) : option QAAnnotation :=
  match r with
  | RowTurn _ _ qa => Some qa
  | RowSeparator => None
  end.

(** Two pairs typed for the first image. *)
Definition example_two_pairs : ImageQAAnnotator :=
  after example_session
    [EvTypeQuestion "Q1"; EvTypeAnswer "A1"; EvAdd;
     EvTypeQuestion "Q2"; EvTypeAnswer "A2"; EvAdd].

(** * Properties *)

(** ** Invariants of handlers *)

Section Stable.
Context {S : Type} (P : S -> Prop).

Lemma stable_ret {A} (x : A) : stable P (mret x).
Proof. intros s H. exact H. Qed.

Lemma stable_raise {A} (e : Exn) : stable P (@raise S A e).
Proof. intros s H. exact H. Qed.

Lemma stable_get : stable P get.
Proof. intros s H. exact H. Qed.

Lemma stable_gets {A} (g : S -> A) : stable P (gets g).
Proof. intros s H. exact H. Qed.

Lemma stable_modify (g : S -> S) :
  (forall s, P s -> P (g s)) -> stable P (modify g).
Proof. intros H s. apply H. Qed.

Lemma stable_bind {A B} (m : M S A) (k : A -> M S B) :
  stable P m -> (forall x, stable P (k x)) -> stable P (m ≫= k).
Proof.
  intros Hm Hk s Hs. unfold mbind, M_bind, bind.
  specialize (Hm s Hs). destruct (m s) as [x s'|e s']; simpl in *.
  - apply Hk. exact Hm.
  - exact Hm.
Qed.

(** What [get] hands to the rest of a handler is a state the invariant
    holds of. *)
Lemma stable_get_bind {B} (k : S -> M S B) :
  (forall a, P a -> stable P (k a)) -> stable P (get ≫= k).
Proof. intros H s Hs. unfold mbind, M_bind, bind, get. apply (H s Hs s Hs). Qed.

Lemma stable_gets_bind {A B} (g : S -> A) (k : A -> M S B) :
  (forall a, P a -> stable P (k (g a))) -> stable P (gets g ≫= k).
Proof. intros H s Hs. unfold mbind, M_bind, bind, gets. apply (H s Hs s Hs). Qed.

(** The same for any step whose result the rest depends on: [R] is what
    the step promises about its result. *)
Lemma stable_bind_result {A B} (R : A -> Prop) (m : M S A) (k : A -> M S B) :
  (forall s, P s -> match m s with
                    | Done x s' => P s' /\ R x
                    | Raised _ s' => P s'
                    end) ->
  (forall x, R x -> stable P (k x)) -> stable P (m ≫= k).
Proof.
  intros Hm Hk s Hs. unfold mbind, M_bind, bind.
  specialize (Hm s Hs). destruct (m s) as [x s'|e s']; simpl in *.
  - destruct Hm as [Hs' Hx]. apply (Hk x Hx), Hs'.
  - exact Hm.
Qed.

Lemma stable_try {A} (m : M S A) (h : Exn -> M S A) :
  stable P m -> (forall e, stable P (h e)) -> stable P (try_except m h).
Proof.
  intros Hm Hh s Hs. unfold try_except.
  specialize (Hm s Hs). destruct (m s) as [x s'|e s']; simpl in *.
  - exact Hm.
  - apply Hh. exact Hm.
Qed.

Lemma stable_truediv (x y : Q) : stable P (truediv x y).
Proof. intros s H. unfold truediv. destruct (Qeq_bool y 0); exact H. Qed.

Lemma stable_lift {T A} (proj : S -> T) (inj : T -> S -> S) (m : M T A) :
  (forall t s, P s -> P (inj t s)) -> stable P (lift proj inj m).
Proof. intros H s Hs. unfold lift. destruct (m (proj s)); simpl; apply H, Hs. Qed.
End Stable.

(** One step of an invariant proof: split a sequence, or decide a branch.
    A write to an attribute the invariant does not read is closed at once. *)
Ltac stable_step :=
  lazymatch goal with
  | |- stable _ (get ≫= _) => apply stable_get_bind; intros ? ?
  | |- stable _ (gets _ ≫= _) => apply stable_gets_bind; intros ? ?
  | |- stable _ (_ ≫= _) => apply stable_bind; [| intros ?]
  | |- stable _ (mret _) => apply stable_ret
  | |- stable _ (raise _) => apply stable_raise
  | |- stable _ get => apply stable_get
  | |- stable _ (gets _) => apply stable_gets
  | |- stable _ (truediv _ _) => apply stable_truediv
  | |- stable _ (try_except _ _) => apply stable_try; [| intros ?]
  | |- stable _ (lift _ _ _) =>
      apply stable_lift; try (let H := fresh in intros ? ? H; exact H)
  | |- stable _ (modify _) =>
      apply stable_modify; try (let H := fresh in intros ? H; exact H)
  | |- stable _ (match ?x with _ => _ end) => destruct x eqn:?
  | |- stable _ (let '(_, _) := ?x in _) => destruct x eqn:?
  end.

Ltac stable_auto := repeat stable_step.

(** ** Navigation *)

Section Index.
Context (i : Z).
Let P (a : ImageQAAnnotator) : Prop := current_image_index a = i.

Lemma display_image_index : stable P display_image.
Proof. unfold display_image, canvas_do. stable_auto. Qed.

Lemma fit_window_index : stable P fit_window.
Proof.
  unfold fit_window. stable_auto; try apply display_image_index.
  intros s Hs. destruct (Qltb _ _); exact Hs.
Qed.

Lemma update_qa_list_index : stable P update_qa_list.
Proof. unfold update_qa_list. stable_auto. Qed.

Lemma update_image_list_index : stable P update_image_list.
Proof. unfold update_image_list. stable_auto. Qed.

Lemma load_current_image_index : stable P load_current_image.
Proof.
  unfold load_current_image, messagebox, status. stable_auto;
    first [ apply fit_window_index | apply update_qa_list_index
          | apply update_image_list_index | idtac ].
Qed.
End Index.

(** C9. An index below zero or at or beyond the number of image files is
    reported in the status line and changes nothing else, the current index
    included; an index inside the range becomes the current index. *)
Theorem jump2image_bounds (a : ImageQAAnnotator) (index : Z) :
  (index < 0 \/ Z.of_nat (length (image_files a)) <= index ->
   jump2image index a = Done tt (set_status_var (StIndexOutOfRange index) a)) /\
  (0 <= index < Z.of_nat (length (image_files a)) ->
   current_image_index (final (jump2image index a)) = index).
Proof.
  split.
  - intros Hout. unfold jump2image.
    cbv [mbind M_bind bind get].
    assert ((Z.of_nat (length (image_files a)) <=? index) || (index <? 0) = true) as ->.
    { apply orb_true_iff. destruct Hout; [right; lia | left; lia]. }
    reflexivity.
  - intros Hin. unfold jump2image.
    cbv [mbind M_bind bind get].
    assert ((Z.of_nat (length (image_files a)) <=? index) || (index <? 0) = false) as ->.
    { apply orb_false_iff. split; lia. }
    cbv [modify]. apply load_current_image_index. reflexivity.
Qed.

Lemma jump2image_bounds_witness :
  current_image_index (final (jump2image 1 example_session)) = 1 /\
  jump2image 2 example_session
  = Done tt (set_status_var (StIndexOutOfRange 2) example_session) /\
  jump2image (-1) example_session
  = Done tt (set_status_var (StIndexOutOfRange (-1)) example_session).
Proof.
  assert (length (image_files example_session) = 2%nat) as Hlen
    by (vm_compute; reflexivity).
  split; [| split].
  - apply (jump2image_bounds example_session 1). rewrite Hlen. lia.
  - apply (jump2image_bounds example_session 2). rewrite Hlen. lia.
  - apply (jump2image_bounds example_session (-1)). lia.
Defined.

(** ** The coordinate transform *)

Lemma imap_imap {A B C} (f : nat -> B -> C) (g : nat -> A -> B) (l : list A) :
  imap f (imap g l) = imap (fun i x => f i (g i x)) l.
Proof.
  revert f g. induction l as [|x l IH]; intros f g; [reflexivity|].
  simpl. f_equal. apply IH.
Qed.

Lemma imap_Qeq_id (h : nat -> Q -> Q) (l : list Q) :
  (forall i x, h i x == x)%Q -> Forall2 Qeq (imap h l) l.
Proof.
  revert h. induction l as [|x l IH]; intros h Hh; simpl.
  - constructor.
  - constructor; [apply Hh|]. apply IH. intros i y. apply Hh.
Qed.

Lemma imap_pointwise {A B} (h : nat -> A -> B) (g : A -> B) (l : list A) :
  (forall i x, h i x = g x) -> imap h l = map g l.
Proof.
  revert h. induction l as [|x l IH]; intros h Hh; simpl; [reflexivity|].
  rewrite Hh. f_equal. apply IH. intros i y. apply Hh.
Qed.

(** With a zoom factor other than zero a round trip leaves every
    coordinate the same rational, in lowest terms. *)
Lemma transform_round_trip_normal (zoom xoff yoff : Q) (pts : list Q) :
  (~ zoom == 0)%Q ->
  to_image_space zoom xoff yoff (to_screen_space zoom xoff yoff pts) = map Qred pts /\
  to_screen_space zoom xoff yoff (to_image_space zoom xoff yoff pts) = map Qred pts.
Proof.
  intros Hz. unfold to_image_space, to_screen_space. rewrite !imap_imap.
  split; apply imap_pointwise; intros i x; destruct (Nat.even i);
    apply Qred_complete; rewrite !Qred_correct; field; exact Hz.
Qed.

(** C3. For a zoom factor between the minimum and the maximum zoom and any
    offsets, converting a list of coordinates to the screen and back to the
    image, or to the image and back to the screen, gives the same numbers. *)
Theorem transform_round_trip (zoom xoff yoff : Q) (pts : list Q) :
  (default_min_zoom <= zoom)%Q -> (zoom <= default_max_zoom)%Q ->
  Forall2 Qeq (to_image_space zoom xoff yoff (to_screen_space zoom xoff yoff pts)) pts /\
  Forall2 Qeq (to_screen_space zoom xoff yoff (to_image_space zoom xoff yoff pts)) pts.
Proof.
  intros Hmin _.
  assert (~ zoom == 0)%Q as Hz.
  { intros H. rewrite H in Hmin. unfold default_min_zoom in Hmin.
    apply Qle_bool_iff in Hmin. discriminate. }
  unfold to_image_space, to_screen_space. rewrite !imap_imap.
  split; apply imap_Qeq_id; intros i x; destruct (Nat.even i);
    rewrite !Qred_correct; field; exact Hz.
Qed.

Lemma transform_round_trip_witness :
  Forall2 Qeq
    (to_image_space 2 100 0 (to_screen_space 2 100 0 example_points))
    example_points /\
  Forall2 Qeq
    (to_screen_space 2 100 0 (to_image_space 2 100 0 example_points))
    example_points.
Proof.
  apply (transform_round_trip 2 100 0 example_points).
  - unfold default_min_zoom. apply Qle_bool_iff. reflexivity.
  - unfold default_max_zoom. apply Qle_bool_iff. reflexivity.
Defined.

(** ** Zoom limits *)

Lemma Qltb_lt (x y : Q) : Qltb x y = true <-> (x < y)%Q.
Proof.
  unfold Qltb. rewrite negb_true_iff, <- not_true_iff_false, Qle_bool_iff.
  split; [apply Qnot_le_lt | apply Qlt_not_le].
Qed.

Lemma Qltb_ge (x y : Q) : Qltb x y = false <-> (y <= x)%Q.
Proof. unfold Qltb. rewrite negb_false_iff. apply Qle_bool_iff. Qed.

Lemma py_min_spec (x y : Q) :
  (py_min x y = x /\ (x <= y)%Q) \/ (py_min x y = y /\ (y < x)%Q).
Proof.
  unfold py_min. destruct (Qltb y x) eqn:E.
  - right. split; [reflexivity | apply Qltb_lt, E].
  - left. split; [reflexivity | apply Qltb_ge, E].
Qed.

Lemma py_max_spec (x y : Q) :
  (py_max x y = x /\ (y <= x)%Q) \/ (py_max x y = y /\ (x < y)%Q).
Proof.
  unfold py_max. destruct (Qltb x y) eqn:E.
  - right. split; [reflexivity | apply Qltb_lt, E].
  - left. split; [reflexivity | apply Qltb_ge, E].
Qed.

(** The clamp from below that [fit_window] and [resize_draw_canvas] share. *)
Lemma clamp_below_at_least (z : Q) (a : ImageQAAnnotator) :
  zoom_limits a ->
  zoom_at_least_min
    (let a := set_zoom_factor z a in
     if Qltb (zoom_factor a) (min_zoom a) then set_zoom_factor (min_zoom a) a else a).
Proof.
  intros Hl. simpl. destruct (Qltb z (min_zoom a)) eqn:E.
  - split; [exact Hl | simpl; apply Qle_refl].
  - split; [exact Hl | simpl; apply Qltb_ge, E].
Qed.

Lemma zoom_step_at_least (scale_up : Z) (a : ImageQAAnnotator) :
  zoom_at_least_min a ->
  zoom_at_least_min
    (if scale_up =? 0 then set_zoom_factor 1 a
     else if 0 <? scale_up then
       set_zoom_factor (py_min (Qred (zoom_factor a * (11 # 10))) (max_zoom a)) a
     else
       set_zoom_factor (py_max (Qred (zoom_factor a / (11 # 10))) (min_zoom a)) a).
Proof.
  intros [[Hmin Hmax] Hz]. unfold zoom_at_least_min, zoom_limits.
  destruct (scale_up =? 0); [|destruct (0 <? scale_up)]; simpl;
    (split; [split; assumption|]); rewrite ?Hmin, ?Hmax; rewrite Hmin in Hz;
    unfold default_min_zoom, default_max_zoom in *.
  - apply Qle_bool_iff. reflexivity.
  - destruct (py_min_spec (Qred (zoom_factor a * (11 # 10))) 5) as [[-> _]|[-> _]].
    + rewrite Qred_correct. lra.
    + apply Qle_bool_iff. reflexivity.
  - destruct (py_max_spec (Qred (zoom_factor a / (11 # 10))) (1 # 10)) as [[-> H]|[-> _]].
    + exact H.
    + apply Qle_refl.
Qed.

Lemma zoom_step_in_range (scale_up : Z) (a : ImageQAAnnotator) :
  zoom_in_range a ->
  zoom_in_range
    (if scale_up =? 0 then set_zoom_factor 1 a
     else if 0 <? scale_up then
       set_zoom_factor (py_min (Qred (zoom_factor a * (11 # 10))) (max_zoom a)) a
     else
       set_zoom_factor (py_max (Qred (zoom_factor a / (11 # 10))) (min_zoom a)) a).
Proof.
  intros (Hl & Hlo & Hhi).
  destruct (zoom_step_at_least scale_up a (conj Hl Hlo)) as [Hl' Hlo'].
  split; [exact Hl' | split; [exact Hlo'|]].
  destruct Hl as [Hmin Hmax]. clear Hl' Hlo'.
  destruct (scale_up =? 0); [|destruct (0 <? scale_up)]; simpl;
    rewrite ?Hmin, ?Hmax; rewrite Hmin in Hlo; rewrite Hmax in Hhi;
    unfold default_min_zoom, default_max_zoom in *.
  - apply Qle_bool_iff. reflexivity.
  - destruct (py_min_spec (Qred (zoom_factor a * (11 # 10))) 5) as [[-> H]|[-> _]].
    + exact H.
    + apply Qle_refl.
  - destruct (py_max_spec (Qred (zoom_factor a / (11 # 10))) (1 # 10)) as [[-> _]|[-> _]].
    + rewrite Qred_correct. unfold Qdiv.
      change (/ (11 # 10))%Q with (10 # 11)%Q. lra.
    + apply Qle_bool_iff. reflexivity.
Qed.

Lemma zoom_at_least (pos : option (Q * Q)) (scale_up : Z) :
  stable zoom_at_least_min (zoom pos scale_up).
Proof.
  unfold zoom, display_image, canvas_do. stable_auto.
  intros s. apply zoom_step_at_least.
Qed.

Lemma zoom_range (pos : option (Q * Q)) (scale_up : Z) :
  stable zoom_in_range (zoom pos scale_up).
Proof.
  unfold zoom, display_image, canvas_do. stable_auto.
  intros s. apply zoom_step_in_range.
Qed.

(** Two assignments in a row are one step for an invariant: nothing can
    raise between them. *)
Lemma stable_modify2 {S B} (P : S -> Prop) (f g : S -> S) (k : unit -> M S B) :
  (forall s, P s -> P (g (f s))) -> (forall x, stable P (k x)) ->
  stable P (modify f ≫= fun _ => modify g ≫= k).
Proof.
  intros H Hk s Hs. unfold mbind, M_bind, bind, modify. apply Hk, H, Hs.
Qed.

Lemma clamp_step_at_least (z : Q) (a : ImageQAAnnotator) :
  zoom_at_least_min a ->
  zoom_at_least_min
    ((fun a => if Qltb (zoom_factor a) (min_zoom a)
               then set_zoom_factor (min_zoom a) a else a)
       (set_zoom_factor z a)).
Proof. intros [Hl _]. apply (clamp_below_at_least z a Hl). Qed.

Lemma fit_window_at_least : stable zoom_at_least_min fit_window.
Proof.
  unfold fit_window, display_image, canvas_do.
  repeat first
    [ apply stable_modify2; [intros s Hs; apply clamp_step_at_least, Hs | intros ?]
    | stable_step ].
Qed.

Lemma stable_modify2_end {S} (P : S -> Prop) (f g : S -> S) :
  (forall s, P s -> P (g (f s))) -> stable P (modify f ≫= fun _ => modify g).
Proof.
  intros H s Hs. unfold mbind, M_bind, bind, modify. apply H, Hs.
Qed.

Lemma resize_at_least (w h : Z) : stable zoom_at_least_min (resize_draw_canvas w h).
Proof.
  unfold resize_draw_canvas.
  repeat first
    [ apply stable_modify2_end; intros s Hs; apply clamp_step_at_least, Hs
    | stable_step ].
Qed.

(** C6. Every handler that assigns the zoom factor leaves it at or above the
    minimum zoom of 0.1 when it was there before, as it is in every
    reachable session.  The handlers that go through [zoom] (actual size,
    mouse wheel) also keep it at or below the maximum zoom of 5.0 when it
    was there before; fit-to-window and canvas resize clamp from below
    only. *)
Theorem zoom_factor_bounds (op : ZoomOp) (a : ImageQAAnnotator) :
  zoom_at_least_min a ->
  zoom_at_least_min (final (zoom_op op a)) /\
  (through_zoom op = true -> zoom_in_range a ->
   zoom_in_range (final (zoom_op op a))).
Proof.
  intros Ha. split.
  - destruct op as [|x y delta num| |w h]; simpl.
    + apply zoom_at_least, Ha.
    + unfold on_mousewheel. destruct ((0 <? delta) || (num =? 4));
        apply zoom_at_least, Ha.
    + apply fit_window_at_least, Ha.
    + apply resize_at_least, Ha.
  - intros Hop Hr. destruct op as [|x y delta num| |w h]; simpl in *;
      try discriminate.
    + apply zoom_range, Hr.
    + unfold on_mousewheel. destruct ((0 <? delta) || (num =? 4));
        apply zoom_range, Hr.
Qed.

Lemma example_session_in_range : zoom_in_range example_session.
Proof.
  split; [split; vm_compute; reflexivity|].
  split; apply Qle_bool_iff; vm_compute; reflexivity.
Defined.

Lemma zoom_factor_bounds_witness :
  zoom_at_least_min (final (zoom_op OpFitWindow example_session)) /\
  zoom_in_range (final (zoom_op (OpWheel 10 10 120 0) example_session)).
Proof.
  pose proof example_session_in_range as (Hl & Hlo & Hhi).
  split.
  - apply (zoom_factor_bounds OpFitWindow example_session). exact (conj Hl Hlo).
  - apply (zoom_factor_bounds (OpWheel 10 10 120 0) example_session).
    + exact (conj Hl Hlo).
    + reflexivity.
    + exact (conj Hl (conj Hlo Hhi)).
Defined.

(** C6, as stated, fails: fitting the ten-pixel image to the 800 by 600
    canvas sets the zoom factor to 60, above the maximum zoom of 5.0. *)
Lemma fit_window_exceeds_max_zoom :
  let a := final (zoom_op OpFitWindow example_small_image) in
  (zoom_factor a == 60)%Q /\ ~ zoom_in_range a.
Proof.
  split.
  - vm_compute. reflexivity.
  - intros (_ & _ & Hhi). apply Qle_bool_iff in Hhi. vm_compute in Hhi. discriminate.
Qed.

(** ** The drawing canvas *)

(** In polygon mode a click on a canvas that already shows a draft drops
    the draft's points before it adds its own: [clear_item] empties
    [current_points] whenever there is a current item. *)
Lemma on_left_click_poly_restarts (x y : Q) (c : DrawingCanvas) (id : Z) :
  current_mode c = Some POLY -> current_item c = Some id -> id <> 0 ->
  current_points (Canvas.on_left_click x y c) = [x; y].
Proof.
  intros Hm Hi Hid. unfold Canvas.on_left_click, Canvas.clear_item.
  rewrite Hm, Hi. simpl.
  destruct (Z.eqb_spec id 0) as [->|_]; [contradiction|]. simpl.
  rewrite Hm. reflexivity.
Qed.

(** C2. Clicks at (0,0), (10,0) and (5,10) in polygon mode leave a draft that
    holds the last vertex only, and the right click hands out the polygon
    [5, 10] where the claim expects [0, 0, 10, 0, 5, 10]. *)
Theorem polygon_clicks_keep_last_vertex :
  current_points example_polygon_clicks = [5%Q; 10%Q] /\
  (Canvas.on_right_click example_polygon_clicks).1
  = Some (Canvas.mkFinished (Some POLY) [5%Q; 10%Q] 4).
Proof. split; vm_compute; reflexivity. Qed.

(** C5. A right click on a polygon draft of one vertex is not a no-op: it
    returns the polygon with its two numbers, adds its item to the
    committed items and leaves the canvas without a mode. *)
Theorem polygon_commit_below_three_vertices :
  current_points example_polygon_one_click = [3%Q; 4%Q] /\
  (Canvas.on_right_click example_polygon_one_click).1
  = Some (Canvas.mkFinished (Some POLY) [3%Q; 4%Q] 2) /\
  items (Canvas.on_right_click example_polygon_one_click).2 = [2] /\
  tk_objects (Canvas.on_right_click example_polygon_one_click).2
  = [(2, ObjPolygon [3%Q; 4%Q])] /\
  current_mode (Canvas.on_right_click example_polygon_one_click).2 = None.
Proof. repeat split; vm_compute; reflexivity. Qed.

(** [on_right_click] never looks at the number of points: with a current
    item and a mode other than [NONE] it always hands out a drawing. *)
Lemma on_right_click_commits (c : DrawingCanvas) (id : Z) :
  current_item c = Some id -> current_mode c <> Some NONE ->
  exists r, (Canvas.on_right_click c).1 = Some r /\
            Canvas.f_points r = current_points c /\
            Canvas.f_mode r = current_mode c.
Proof.
  intros Hi Hm. unfold Canvas.on_right_click. rewrite Hi.
  unfold mode_is at 1. rewrite bool_decide_eq_false_2 by exact Hm.
  destruct (mode_is (current_mode c) POLY); simpl; eexists; eauto.
Qed.

(** ** Saving *)

(** With an empty [current_annotation], [save_annotations] returns before
    it reaches the file: the disk is as it was. *)
Lemma save_annotations_empty_leaves_disk (a : ImageQAAnnotator) :
  deref (current_annotation a) a = [] ->
  disk (final (save_annotations a)) = disk a.
Proof.
  intros He. unfold save_annotations.
  cbv [mbind M_bind bind get].
  destruct (folder_set a); [|reflexivity].
  destruct (py_index _ _); [|reflexivity].
  rewrite He. simpl.
  destruct (Dict.mem _ _); reflexivity.
Qed.

(** C1. A pair is saved for [a.png], cleared, and saved again: the entry
    leaves [all_annotations], but the annotation file is not written and
    still holds the entry of [a.png]. *)
Theorem save_after_clear_leaves_file :
  annotation_items example_annotated
  = [("a.png", [mkQA "human" "Q1" None; mkQA "gpt" "A1" None])] /\
  annotation_items example_emptied = [] /\
  annotations_json (disk example_emptied !!! "imgs")
  = Some (Parsed [mkJItem "a.png" [mkJTurn "human" "Q1" None; mkJTurn "gpt" "A1" None]]).
Proof. repeat split; vm_compute; reflexivity. Qed.

(** C7. After a save the entry of [all_annotations] is the very list that
    [current_annotation] names, so adding a pair without saving changes the
    entry: it now has four turns, and they are still there after leaving
    the image and coming back. *)
Theorem edit_after_save_reaches_all_annotations :
  annotation_items example_annotated
  = [("a.png", [mkQA "human" "Q1" None; mkQA "gpt" "A1" None])] /\
  annotation_items example_edited_after_save
  = [("a.png", [mkQA "human" "Q1" None; mkQA "gpt" "A1" None;
                mkQA "human" "Q2" None; mkQA "gpt" "A2" None])] /\
  (let a := after example_edited_after_save [EvNext; EvPrevious] in
   length (deref (current_annotation a) a) = 4%nat).
Proof. repeat split; vm_compute; reflexivity. Qed.

(** ** Showing and editing a pair *)

(** C8. The pair of the example has a rectangle on its answer; showing the
    pair, by the index of either turn, draws nothing and lists nothing,
    while the point on a question is drawn. *)
Theorem show_qa_pair_skips_answer_regions :
  deref (current_annotation example_answer_region) example_answer_region
  = [mkQA "human" "Q" None;
     mkQA "gpt" "A" (Some [mkVisual [5%Q; 5%Q; 25%Q; 40%Q] (Some RECT)])] /\
  current_draw_info (step (show_qa_pair 0) example_answer_region) = [] /\
  items (drawing_canvas (step (show_qa_pair 0) example_answer_region)) = [] /\
  current_draw_info (step (show_qa_pair 1) example_answer_region) = [] /\
  items (drawing_canvas (step (show_qa_pair 1) example_answer_region)) = [] /\
  items (drawing_canvas (step (show_qa_pair 0) example_question_region)) = [3].
Proof. repeat split; vm_compute; reflexivity. Qed.

(** C10. Editing a pair whose question carries a region puts the texts back
    into the entry fields and the region into [current_draw_info] without
    the key ["is_Q"]; adding the pair again raises [KeyError]. *)
Theorem add_qa_pair_after_edit_raises :
  Py.strip (question_entry example_editing) = "Q" /\
  Py.strip (answer_entry example_editing) = "A" /\
  map di_is_Q (current_draw_info example_editing) = [None] /\
  add_qa_pair example_editing = Raised (KeyError "is_Q") example_editing.
Proof. repeat split; vm_compute; reflexivity. Qed.

(** ** The annotation file: save, then load *)

Lemma mode_of_name_name (m : DrawMode) : mode_of_name (mode_name m) = Some m.
Proof. destruct m; reflexivity. Qed.

(** What [dump_refs] writes, [load_refs] reads back with the coordinates
    rounded. *)
Lemma load_dump_refs (refs : list VisualAnnotation) (js : list JRef) :
  dump_refs refs = inr js -> load_refs js = inr (map normal_ref refs).
Proof.
  revert js. induction refs as [|r refs IH]; intros js H; simpl in H.
  - injection H as <-. reflexivity.
  - destruct r as [cs [m|]]; simpl in H; [|discriminate].
    destruct (dump_refs refs) as [e|js']; [discriminate|].
    injection H as <-. simpl. rewrite mode_of_name_name, (IH js' eq_refl).
    reflexivity.
Qed.

Lemma dump_refs_named (refs : list VisualAnnotation) :
  forallb (fun r => bool_decide (is_Some (mode r))) refs = true ->
  exists js, dump_refs refs = inr js.
Proof.
  induction refs as [|r refs IH]; intros H; simpl in *.
  - eexists; reflexivity.
  - apply andb_true_iff in H as [Hr Hrs].
    destruct (IH Hrs) as [js ->].
    apply bool_decide_eq_true in Hr as [m Hm]. rewrite Hm.
    eexists; reflexivity.
Qed.

Lemma load_dump_conversations (convs : list QAAnnotation) (js : list JTurn) :
  dump_conversations convs = inr js ->
  load_conversations js = inr (map normal_turn convs).
Proof.
  revert js. induction convs as [|qa convs IH]; intros js H.
  - injection H as <-. reflexivity.
  - destruct qa as [ro te [[|r rs]|]];
      cbn [dump_conversations visual_refs role text] in H.
    + destruct (dump_conversations convs) as [e|js']; [discriminate|].
      injection H as <-. simpl. rewrite (IH js' eq_refl). reflexivity.
    + destruct (dump_refs (r :: rs)) as [e|jr] eqn:Hd; [discriminate|].
      destruct (dump_conversations convs) as [e|js']; [discriminate|].
      injection H as <-.
      cbn [load_conversations j_visual_refs j_from j_value].
      rewrite (load_dump_refs _ _ Hd), (IH js' eq_refl). reflexivity.
    + destruct (dump_conversations convs) as [e|js']; [discriminate|].
      injection H as <-. simpl. rewrite (IH js' eq_refl). reflexivity.
Qed.

Lemma dump_conversations_named (convs : list QAAnnotation) :
  forallb refs_named convs = true -> exists js, dump_conversations convs = inr js.
Proof.
  induction convs as [|qa convs IH]; intros H; simpl in *.
  - eexists; reflexivity.
  - apply andb_true_iff in H as [Hq Hqs].
    destruct (IH Hqs) as [js ->].
    destruct qa as [ro te [[|r rs]|]]; simpl; try (eexists; reflexivity).
    unfold refs_named in Hq. simpl visual_refs in Hq.
    destruct (dump_refs_named (r :: rs) Hq) as [jr Hjr].
    simpl in Hjr. rewrite Hjr. eexists; reflexivity.
Qed.

Lemma dump_items_named (entries : list (string * list QAAnnotation)) :
  items_named entries = true ->
  exists data, dump_items entries = inr data /\ Forall2 written_from entries data.
Proof.
  induction entries as [|[k convs] entries IH]; intros H; simpl in *.
  - eexists; split; [reflexivity | constructor].
  - apply andb_true_iff in H as [Hc Hes].
    destruct (IH Hes) as (data & -> & HF).
    destruct (dump_conversations_named convs Hc) as [js Hjs]. rewrite Hjs.
    eexists; split; [reflexivity|]. constructor; [|exact HF].
    split; [reflexivity|]. apply load_dump_conversations, Hjs.
Qed.

Lemma dict_set_fresh {V} (k : string) (v : V) (d : list (string * V)) :
  k ∉ d.*1 -> Dict.set k v d = d ++ [(k, v)].
Proof.
  induction d as [|[k' v'] d IH]; intros H; simpl.
  - reflexivity.
  - rewrite fmap_cons, not_elem_of_cons in H. destruct H as [Hne Hd].
    simpl in Hne. destruct (decide (k = k')); [contradiction|].
    rewrite (IH Hd). reflexivity.
Qed.

Lemma dict_set_keys {V} (k : string) (v : V) (d : list (string * V)) :
  k ∈ d.*1 -> (Dict.set k v d).*1 = d.*1.
Proof.
  induction d as [|[k' v'] d IH]; intros H; simpl.
  - inversion H.
  - destruct (decide (k = k')) as [->|Hne]; [reflexivity|].
    simpl. f_equal. apply IH.
    rewrite fmap_cons, elem_of_cons in H. destruct H; [contradiction | assumption].
Qed.

Lemma dict_set_NoDup {V} (k : string) (v : V) (d : list (string * V)) :
  NoDup d.*1 -> NoDup (Dict.set k v d).*1.
Proof.
  intros H. destruct (decide (k ∈ d.*1)) as [Hin|Hout].
  - rewrite (dict_set_keys k v d Hin). exact H.
  - rewrite (dict_set_fresh k v d Hout), fmap_app. simpl.
    apply NoDup_app. split; [exact H|]. split.
    + intros x Hx Hx'. apply list_elem_of_singleton in Hx'. subst. contradiction.
    + apply NoDup_singleton.
Qed.

(** One round of the loop of [load_items]: a new list object, entered
    under a key that is not there yet. *)
Lemma load_item_appends (k : string) (convs : list QAAnnotation) (b : ImageQAAnnotator) :
  closed b -> k ∉ (all_annotations b).*1 ->
  let b' := final ((l ← alloc convs;
                    modify (fun a => set_all_annotations
                                       (Dict.set k l (all_annotations a)) a)) b) in
  annotation_items b' = annotation_items b ++ [(k, convs)] /\
  (all_annotations b').*1 = (all_annotations b).*1 ++ [k] /\
  closed b'.
Proof.
  intros Hc Hk. cbv [mbind M_bind bind alloc modify final]. simpl.
  rewrite (dict_set_fresh _ _ _ Hk). split; [|split].
  - unfold annotation_items, deref. simpl. rewrite map_app. simpl.
    rewrite lookup_total_insert_eq. f_equal.
    apply map_ext_in. intros [k' l'] Hin. simpl. f_equal.
    apply lookup_total_insert_ne.
    apply list_elem_of_In in Hin. specialize (Hc k' l' Hin). lia.
  - rewrite fmap_app. reflexivity.
  - intros k' l' Hin. simpl in *. apply elem_of_app in Hin as [Hin|Hin].
    + specialize (Hc k' l' Hin). lia.
    + apply list_elem_of_singleton in Hin. injection Hin as _ ->. lia.
Qed.

(** The loop of [load_items] on a file whose items come from distinct
    keys that the session does not hold yet: it does not raise, and it
    appends the entries, normalised, in the order of the file. *)
Lemma load_items_appends (data : list JItem)
    (entries : list (string * list QAAnnotation)) (b : ImageQAAnnotator) :
  Forall2 written_from entries data ->
  NoDup entries.*1 ->
  (forall k, k ∈ entries.*1 -> k ∉ (all_annotations b).*1) ->
  closed b ->
  exists b', load_items data b = Done tt b' /\
             annotation_items b' = annotation_items b ++ normal_items entries /\
             closed b'.
Proof.
  intros HF. revert b.
  induction HF as [|[k convs] item entries data [Hk Hload] HF IH];
    intros b Hnd Hfresh Hc.
  - exists b. split; [reflexivity|]. simpl. rewrite app_nil_r. split; [reflexivity|exact Hc].
  - simpl in Hk, Hload. rewrite fmap_cons in Hnd. simpl in Hnd.
    apply NoDup_cons in Hnd as [Hk_new Hnd].
    assert (k ∉ (all_annotations b).*1) as Hk_b.
    { apply Hfresh. rewrite fmap_cons. left. }
    pose proof (load_item_appends k (map normal_turn convs) b Hc Hk_b) as Hstep.
    cbv [mbind M_bind bind alloc modify final] in Hstep. cbv zeta in Hstep.
    destruct Hstep as (Hitems & Hkeys & Hc').
    cbn [load_items]. rewrite Hload, Hk.
    cbv [mbind M_bind bind alloc modify].
    match goal with
    | |- exists b', load_items data ?b1 = _ /\ _ =>
        destruct (IH b1 Hnd) as (b' & Hrun & Hres & Hcl)
    end.
    + intros k' Hk'. rewrite Hkeys. intros Hin.
      apply elem_of_app in Hin as [Hin|Hin].
      * apply (Hfresh k'); [rewrite fmap_cons; right; exact Hk' | exact Hin].
      * apply list_elem_of_singleton in Hin. subst. contradiction.
    + exact Hc'.
    + exists b'. split; [exact Hrun|]. split; [|exact Hcl].
      rewrite Hres, Hitems. rewrite <- app_assoc. reflexivity.
Qed.

(** [load_existing_annotations] in a session that holds no annotations
    yet, on a file written from [entries]. *)
Lemma load_existing_annotations_fresh (b : ImageQAAnnotator) (folder : string)
    (data : list JItem) (entries : list (string * list QAAnnotation)) :
  folder_set b = Some folder ->
  annotations_json (disk b !!! folder) = Some (Parsed data) ->
  all_annotations b = [] ->
  Forall2 written_from entries data ->
  NoDup entries.*1 ->
  exists b', load_existing_annotations b = Done tt b' /\
             annotation_items b' = normal_items entries /\ closed b' /\
             image_files b' = image_files b /\ disk b' = disk b /\
             images_folder b' = images_folder b.
Proof.
  intros Hf Hfile Hempty HF Hnd.
  unfold load_existing_annotations. cbv [mbind M_bind bind get].
  rewrite Hf, Hfile.
  destruct (load_items_appends data entries b HF Hnd) as (b' & Hrun & Hres & Hcl).
  - intros k _ Hin. rewrite Hempty in Hin. inversion Hin.
  - intros k l Hin. rewrite Hempty in Hin. inversion Hin.
  - unfold try_except. cbv [mbind M_bind bind]. rewrite Hrun.
    cbv [gets status modify]. eexists. split; [reflexivity|].
    unfold annotation_items in Hres at 2. rewrite Hempty in Hres.
    split; [exact Hres|]. split; [exact Hcl|].
    assert (stable (fun s => image_files s = image_files b /\ disk s = disk b
                             /\ images_folder s = images_folder b)
                   (load_items data)) as Hst.
    { clear. induction data as [|item data IH]; simpl; [apply stable_ret|].
      unfold alloc. destruct (load_conversations _); [apply stable_raise|].
      apply stable_bind; [intros s H; exact H|]. intros ?.
      apply stable_bind; [apply stable_modify; intros s H; exact H|].
      intros _. exact IH. }
    specialize (Hst b (conj eq_refl (conj eq_refl eq_refl))).
    rewrite Hrun in Hst. exact Hst.
Qed.

Lemma folder_set_Some (a : ImageQAAnnotator) (folder : string) :
  folder_set a = Some folder ->
  images_folder a = Some folder /\ Py.is_empty folder = false.
Proof.
  unfold folder_set. destruct (images_folder a) as [f|]; [|discriminate].
  destruct (Py.is_empty f) eqn:E; [discriminate|].
  intros [= <-]. split; [reflexivity | exact E].
Qed.

Lemma entered_named (file_name : string) (a : ImageQAAnnotator) :
  well_formed a -> items_named (annotation_items (entered file_name a)) = true.
Proof.
  intros (_ & Hitems & Hcur). unfold entered, annotation_items, deref in *.
  simpl. revert Hitems.
  induction (all_annotations a) as [|[k l] d IH]; simpl; intros H.
  - rewrite Hcur. reflexivity.
  - apply andb_true_iff in H as [Hl Hd].
    destruct (decide (file_name = k)); simpl.
    + rewrite Hcur. exact Hd.
    + rewrite Hl. apply IH, Hd.
Qed.

(** With a folder open, a valid current image and a non-empty
    [current_annotation] whose regions all have a mode, [save_annotations]
    enters the current list and writes the file. *)
Lemma save_annotations_writes (a : ImageQAAnnotator) (folder file_name : string) :
  folder_set a = Some folder ->
  py_index (image_files a) (current_image_index a) = Some file_name ->
  deref (current_annotation a) a <> [] ->
  well_formed a ->
  exists data,
    Forall2 written_from (annotation_items (entered file_name a)) data /\
    save_annotations a = Done tt (written folder data (entered file_name a)).
Proof.
  intros Hf Hi Hne Hwf.
  destruct (dump_items_named _ (entered_named file_name a Hwf)) as (data & Hd & HF).
  exists data. split; [exact HF|].
  unfold save_annotations. cbv [mbind M_bind bind get].
  rewrite Hf, Hi.
  rewrite bool_decide_eq_false_2
    by (intros H; apply Hne; destruct (deref _ _); [reflexivity | discriminate]).
  cbv [modify try_except]. fold (entered file_name a). rewrite Hd.
  reflexivity.
Qed.

(** A coordinate that is an integer is written and read back as it is. *)
Lemma rounded_integral (x : Q) : integral x = true -> rounded x = x.
Proof.
  destruct x as [n d]. unfold integral. cbn [Qden]. intros H.
  apply Pos.eqb_eq in H. subst d.
  unfold rounded, Py.round. simpl Qfloor. rewrite Z.div_1_r.
  assert ((n # 1) - inject_Z n < 1 # 2)%Q as Hlt.
  { unfold Qlt, Qminus, Qplus, Qopp, inject_Z. simpl. lia. }
  destruct (Qcompare_spec ((n # 1) - inject_Z n) (1 # 2)) as [He|_|Hg];
    [exfalso; lra | reflexivity | exfalso; lra].
Qed.

(** Rounding moves a coordinate by half a pixel at most. *)
Lemma rounded_nearest (x : Q) : (Qabs (rounded x - x) <= 1 # 2)%Q.
Proof.
  unfold rounded, Py.round.
  pose proof (Qfloor_le x) as Hlo. pose proof (Qlt_floor x) as Hhi.
  rewrite inject_Z_plus in Hhi. change (inject_Z 1) with 1%Q in Hhi.
  apply Qabs_Qle_condition.
  destruct (Qcompare_spec (x - inject_Z (Qfloor x)) (1 # 2)) as [He|Hl|Hg].
  - destruct (Z.even (Qfloor x)); rewrite ?inject_Z_plus;
      change (inject_Z 1) with 1%Q; split; lra.
  - split; lra.
  - rewrite inject_Z_plus. change (inject_Z 1) with 1%Q. split; lra.
Qed.

Lemma normal_ref_integral (r : VisualAnnotation) :
  forallb integral (coords r) = true -> normal_ref r = r.
Proof.
  destruct r as [cs m]. unfold normal_ref. simpl. intros H. f_equal.
  induction cs as [|x cs IH]; [reflexivity|]. simpl in *.
  apply andb_true_iff in H as [Hx Hcs].
  rewrite (rounded_integral x Hx), (IH Hcs). reflexivity.
Qed.

Lemma normal_refs_integral (refs : list VisualAnnotation) :
  forallb (fun r => forallb integral (coords r)) refs = true ->
  map normal_ref refs = refs.
Proof.
  induction refs as [|r refs IH]; [reflexivity|]. simpl. intros H.
  apply andb_true_iff in H as [Hr Hrs].
  rewrite (normal_ref_integral r Hr), (IH Hrs). reflexivity.
Qed.

Lemma regions_normal_turn (qa : QAAnnotation) :
  regions (normal_turn qa) = map normal_ref (regions qa).
Proof. destruct qa as [ro te [[|r rs]|]]; reflexivity. Qed.

Lemma items_data_normal (entries : list (string * list QAAnnotation)) :
  items_integral entries = true ->
  items_data (normal_items entries) = items_data entries.
Proof.
  induction entries as [|[k convs] entries IH]; [reflexivity|].
  simpl. intros H. apply andb_true_iff in H as [Hc Hes].
  rewrite (IH Hes). f_equal. f_equal. clear IH Hes.
  induction convs as [|qa convs IH]; [reflexivity|]. simpl in *.
  apply andb_true_iff in Hc as [Hq Hqs]. rewrite (IH Hqs). f_equal.
  unfold turn_data. rewrite regions_normal_turn, (normal_refs_integral _ Hq).
  reflexivity.
Qed.

Lemma annotation_items_keys (a : ImageQAAnnotator) :
  (annotation_items a).*1 = (all_annotations a).*1.
Proof.
  unfold annotation_items. induction (all_annotations a) as [|[k l] d IH];
    [reflexivity|]. simpl. f_equal. exact IH.
Qed.

(** C4. A well-formed session, as every reachable session is, with a
    folder open, a current image and a non-empty current conversation
    saves; a fresh session that loads the file holds
    the same keys in the same order with, turn by turn, the same role and
    text, an absent region list where one was absent, and the regions with
    their modes and with every coordinate rounded to the nearest integer,
    which is at most half a pixel away.  When all coordinates are integers
    already, roles, texts and regions are identical. *)
Theorem save_load_round_trip (a : ImageQAAnnotator) (folder file_name : string) :
  folder_set a = Some folder ->
  py_index (image_files a) (current_image_index a) = Some file_name ->
  deref (current_annotation a) a <> [] ->
  well_formed a ->
  let saved := step save_annotations a in
  let loaded := fresh_load folder saved in
  annotation_items loaded = normal_items (annotation_items saved) /\
  (items_integral (annotation_items saved) = true ->
   items_data (annotation_items loaded) = items_data (annotation_items saved)) /\
  (forall x, Qabs (rounded x - x) <= 1 # 2)%Q.
Proof.
  intros Hf Hi Hne Hwf saved loaded.
  destruct (save_annotations_writes a folder file_name Hf Hi Hne Hwf)
    as (data & HF & Hsave).
  assert (Hsaved : saved = written folder data (entered file_name a)).
  { unfold saved, step. rewrite Hsave. reflexivity. }
  assert (Hitems : annotation_items saved = annotation_items (entered file_name a)).
  { rewrite Hsaved. reflexivity. }
  assert (Hloaded : annotation_items loaded = normal_items (annotation_items saved)).
  { rewrite Hitems. unfold loaded, fresh_load, step.
    set (b := set_images_folder (Some folder) (init (disk saved) (canvas_size saved))).
    assert (folder_set b = Some folder) as Hfb.
    { unfold folder_set. simpl.
      destruct (folder_set_Some a folder Hf) as [_ ->]. reflexivity. }
    assert (annotations_json (disk b !!! folder) = Some (Parsed data)) as Hfile.
    { simpl. rewrite Hsaved. simpl. rewrite lookup_total_insert_eq. reflexivity. }
    assert (NoDup (annotation_items (entered file_name a)).*1) as Hnd.
    { rewrite annotation_items_keys. apply dict_set_NoDup, Hwf. }
    destruct (load_existing_annotations_fresh b folder data _ Hfb Hfile eq_refl HF Hnd)
      as (b' & -> & Hb' & _).
    exact Hb'. }
  split; [exact Hloaded|]. split; [|exact rounded_nearest].
  intros Hint. rewrite Hloaded. apply items_data_normal, Hint.
Qed.

Lemma save_load_round_trip_witness :
  (let saved := step save_annotations example_answer_region in
   items_data (annotation_items (fresh_load "imgs" saved))
   = items_data (annotation_items saved)) /\
  (let saved := step save_annotations example_half_pixel in
   annotation_items (fresh_load "imgs" saved)
   = [("a.png",
       [mkQA "human" "Q" (Some [mkVisual [6%Q; 6%Q; 26%Q; 41%Q] (Some RECT)]);
        mkQA "gpt" "A" None])]).
Proof.
  split.
  - apply (save_load_round_trip example_answer_region "imgs" "a.png").
    + vm_compute. reflexivity.
    + vm_compute. reflexivity.
    + vm_compute. discriminate.
    + split; [vm_compute; constructor | split; vm_compute; reflexivity].
    + vm_compute. reflexivity.
  - intros saved.
    destruct (save_load_round_trip example_half_pixel "imgs" "a.png") as [H _].
    + vm_compute. reflexivity.
    + vm_compute. reflexivity.
    + vm_compute. discriminate.
    + split; [vm_compute; constructor | split; vm_compute; reflexivity].
    + fold saved in H. rewrite H. vm_compute. reflexivity.
Defined.

(** ** Editing the working copy *)

Section Edits.
Context (a0 : ImageQAAnnotator).

Lemma edits_refl : edits a0 a0.
Proof. repeat split. Qed.

Lemma mutate_edits (l : loc) (f : list QAAnnotation -> list QAAnnotation) :
  l = current_annotation a0 -> stable (edits a0) (mutate l f).
Proof.
  intros -> s (Hd & Hc & Hh). unfold mutate, modify, final.
  split; [exact Hd|]. split; [exact Hc|].
  intros l Hl. cbn [heap set_heap].
  rewrite lookup_total_insert_ne by congruence. apply Hh, Hl.
Qed.

Lemma update_qa_list_edits : stable (edits a0) update_qa_list.
Proof. unfold update_qa_list. stable_auto. Qed.

Lemma show_refs_edits (refs : list VisualAnnotation) :
  stable (edits a0) (show_refs refs).
Proof.
  induction refs as [|r refs IH]; simpl.
  - apply stable_ret.
  - unfold canvas. stable_auto.
    + intros s H. unfold screen_points. destruct (coords r); [exact H|].
      destruct (geometry s); exact H.
    + exact IH.
Qed.

Lemma show_qa_pair_edits (index : Z) : stable (edits a0) (show_qa_pair index).
Proof.
  unfold show_qa_pair, status, canvas_do. stable_auto. apply show_refs_edits.
Qed.

Lemma delete_qa_pair_edits (index selected : option nat) :
  stable (edits a0) (delete_qa_pair index selected).
Proof.
  unfold delete_qa_pair. stable_auto.
  match goal with H : edits a0 _ |- _ => apply mutate_edits, H end.
Qed.

Lemma edit_op_edits (op : EditOp) : stable (edits a0) (edit_op op).
Proof.
  destruct op as [q ans| |sel|sel|confirmed]; simpl.
  - unfold type_question, type_answer. stable_auto.
  - unfold add_qa_pair, messagebox, canvas_do. stable_auto;
      first [ apply update_qa_list_edits | apply mutate_edits | idtac ].
    match goal with H : edits a0 _ |- _ => apply H end.
  - apply delete_qa_pair_edits.
  - unfold edit_qa_pair. stable_auto;
      first [ apply show_qa_pair_edits | apply delete_qa_pair_edits | idtac ].
  - unfold clear_qa_pairs. stable_auto.
    match goal with H : edits a0 _ |- _ => apply mutate_edits, H end.
Qed.
End Edits.

Lemma edits_run (ops : list EditOp) (a0 s : ImageQAAnnotator) :
  edits a0 s -> edits a0 (run (map edit_op ops) s).
Proof.
  revert s. induction ops as [|op ops IH]; intros s Hs; [exact Hs|].
  simpl. apply IH. apply (edit_op_edits a0 op s Hs).
Qed.

Lemma edits_items (a s : ImageQAAnnotator) :
  unshared a -> edits a s -> annotation_items s = annotation_items a.
Proof.
  intros Hu (Hd & _ & Hh). unfold annotation_items, deref. rewrite Hd.
  apply map_ext_in. intros [k l] Hin. simpl. f_equal.
  apply Hh, (Hu k). apply list_elem_of_In, Hin.
Qed.

(** X24. As long as no entry of [all_annotations] is the current list
    object, which is so after an image has been loaded, no sequence of
    edits (typing, add, delete, edit, clear) changes what
    [all_annotations] holds. *)
Lemma edits_leave_all_annotations (ops : list EditOp) (a : ImageQAAnnotator) :
  unshared a ->
  annotation_items (run (map edit_op ops) a) = annotation_items a.
Proof.
  intros Hu. apply edits_items; [exact Hu|]. apply edits_run, edits_refl.
Qed.

(** Loading an image makes a copy: back on the first image after a save,
    the current list object is a new one. *)
Example unshared_after_reload :
  unshared (after example_annotated [EvNext; EvPrevious]).
Proof.
  intros k l Hin. vm_compute in Hin. vm_compute.
  apply list_elem_of_singleton in Hin. injection Hin as _ ->. discriminate.
Qed.

(** A save makes the entry and the working copy one object. *)
Example shared_after_save : ~ unshared example_annotated.
Proof.
  intros H. apply (H "a.png" 1%nat); [|reflexivity].
  vm_compute. apply list_elem_of_here.
Qed.

(** ** Opening the folder again *)

Section Items.
Context (v : list (string * list QAAnnotation)).
Let P (a : ImageQAAnnotator) : Prop := annotation_items a = v /\ closed a.

(** A new list object changes no entry. *)
Lemma alloc_items (convs : list QAAnnotation) : stable P (alloc convs).
Proof.
  intros s [Hv Hc]. unfold alloc, final. split.
  - rewrite <- Hv. unfold annotation_items, deref. simpl.
    apply map_ext_in. intros [k l] Hin. simpl. f_equal.
    apply lookup_total_insert_ne.
    apply list_elem_of_In in Hin. specialize (Hc k l Hin). lia.
  - intros k l Hin. specialize (Hc k l Hin). simpl. lia.
Qed.

Lemma fit_window_items : stable P fit_window.
Proof.
  unfold fit_window, display_image, canvas_do. stable_auto.
  intros s Hs. destruct (Qltb _ _); exact Hs.
Qed.

Lemma load_current_image_items : stable P load_current_image.
Proof.
  unfold load_current_image, messagebox, status, update_qa_list, update_image_list.
  stable_auto;
    first [ apply fit_window_items | apply alloc_items | idtac ].
Qed.
End Items.

(** A fresh session that opens the folder again, as the user does, holds
    what the annotation file holds: the saved annotations, normalised. *)
Lemma open_images_folder_loads_saved (a : ImageQAAnnotator) (folder file_name : string) :
  folder_set a = Some folder ->
  py_index (image_files a) (current_image_index a) = Some file_name ->
  deref (current_annotation a) a <> [] ->
  well_formed a ->
  List.filter is_image_name (listing (disk a !!! folder)) <> [] ->
  let saved := step save_annotations a in
  annotation_items (step (open_images_folder folder)
                         (init (disk saved) (canvas_size saved)))
  = normal_items (annotation_items saved).
Proof.
  intros Hf Hi Hne Hwf Hfiles saved.
  destruct (save_annotations_writes a folder file_name Hf Hi Hne Hwf)
    as (data & HF & Hsave).
  assert (Hsaved : saved = written folder data (entered file_name a)).
  { unfold saved, step. rewrite Hsave. reflexivity. }
  assert (Hitems : annotation_items saved = annotation_items (entered file_name a)).
  { rewrite Hsaved. reflexivity. }
  destruct (folder_set_Some a folder Hf) as [_ Hnonempty].
  assert (Hlisting : listing (disk saved !!! folder) = listing (disk a !!! folder)).
  { rewrite Hsaved. simpl. rewrite lookup_total_insert_eq. reflexivity. }
  unfold step, open_images_folder. rewrite Hnonempty.
  cbv [mbind M_bind bind modify gets]. cbn [disk set_images_folder init].
  rewrite Hlisting.
  destruct (List.filter is_image_name (listing (disk a !!! folder)))
    as [|f files] eqn:Hfl; [contradiction|].
  cbv [status modify].
  match goal with
  | |- context [load_existing_annotations ?b0] => set (b := b0)
  end.
  assert (folder_set b = Some folder) as Hfb.
  { unfold folder_set. simpl. rewrite Hnonempty. reflexivity. }
  assert (annotations_json (disk b !!! folder) = Some (Parsed data)) as Hfile.
  { simpl. rewrite Hsaved. simpl. rewrite lookup_total_insert_eq. reflexivity. }
  assert (NoDup (annotation_items (entered file_name a)).*1) as Hnd.
  { rewrite annotation_items_keys. apply dict_set_NoDup, Hwf. }
  destruct (load_existing_annotations_fresh b folder data _ Hfb Hfile eq_refl HF Hnd)
    as (b' & -> & Hb' & Hcl & _).
  rewrite Hitems.
  set (v := normal_items (annotation_items (entered file_name a))) in *.
  assert (stable (fun s => annotation_items s = v /\ closed s)
                 (update_image_list;;
                  modify (set_current_image_index 0);;
                  load_current_image)) as Hst.
  { apply stable_bind; [unfold update_image_list; stable_auto|]. intros _.
    apply stable_bind; [stable_auto|]. intros _.
    apply load_current_image_items. }
  apply (Hst b' (conj Hb' Hcl)).
Qed.

(** ** The defects in general form *)

Lemma dict_get_set {V} (k : string) (v : V) (d : list (string * V)) :
  Dict.get k (Dict.set k v d) = Some v.
Proof.
  induction d as [|[k' v'] d IH]; simpl.
  - destruct (decide (k = k)); [reflexivity | contradiction].
  - destruct (decide (k = k')) as [->|Hne]; simpl.
    + destruct (decide (k' = k')); [reflexivity | contradiction].
    + destruct (decide (k = k')); [contradiction | exact IH].
Qed.

(** A save of a non-empty conversation leaves the entry of the current
    image and [current_annotation] naming one list object. *)
Lemma save_annotations_shares (a : ImageQAAnnotator) (folder file_name : string) :
  folder_set a = Some folder ->
  py_index (image_files a) (current_image_index a) = Some file_name ->
  deref (current_annotation a) a <> [] ->
  let saved := step save_annotations a in
  Dict.get file_name (all_annotations saved) = Some (current_annotation saved).
Proof.
  intros Hf Hi Hne. unfold step, save_annotations.
  cbv [mbind M_bind bind get]. rewrite Hf, Hi.
  rewrite bool_decide_eq_false_2
    by (intros H; apply Hne; destruct (deref _ _); [reflexivity | discriminate]).
  cbv [modify]. fold (entered file_name a).
  set (P := fun s : ImageQAAnnotator => Dict.get file_name (all_annotations s)
                           = Some (current_annotation s)).
  assert (stable P
    (try_except
       (a1 ← get;
        match dump_items (annotation_items a1) with
        | inl e => raise e
        | inr annotations_data =>
            write_annotations folder annotations_data;; status (StSaved folder)
        end)
       (fun e => messagebox (ErrSave e)))) as Hst.
  { unfold write_annotations, status, messagebox. stable_auto. }
  apply Hst. unfold P, entered. simpl. apply dict_get_set.
Qed.

(** [show_qa_pair] reads the turn at the even position of the pair and no
    other: whatever the answer turn carries, the outcome is that of
    clearing the canvas and showing the regions of the question turn. *)
Lemma show_qa_pair_reads_question_turn (a : ImageQAAnnotator) (index : Z) (q : QAAnnotation) :
  0 <= index < Z.of_nat (length (deref (current_annotation a) a)) ->
  deref (current_annotation a) a !! Z.to_nat (index / 2 * 2) = Some q ->
  show_qa_pair index a
  = (canvas_do Canvas.clear_all;; show_refs (regions q)) a.
Proof.
  intros Hin Hq. unfold show_qa_pair. cbv [mbind M_bind bind get].
  assert ((index <? 0) || (Z.of_nat (length (deref (current_annotation a) a)) <=? index)
          = false) as ->.
  { apply orb_false_iff. split; lia. }
  unfold py_index.
  assert ((0 <=? index / 2 * 2) = true) as ->.
  { apply Z.leb_le. pose proof (Z.div_pos index 2). lia. }
  rewrite Hq. cbv [canvas_do modify].
  unfold regions. destruct (visual_refs q); reflexivity.
Qed.

(** What [show_refs] appends to [current_draw_info] has no ["is_Q"]. *)
Lemma show_refs_without_is_Q (refs : list VisualAnnotation) (s s' : ImageQAAnnotator) :
  show_refs refs s = Done tt s' ->
  exists shown, current_draw_info s' = current_draw_info s ++ shown /\
                length shown = length refs /\
                Forall (fun d => di_is_Q d = None) shown.
Proof.
  revert s. induction refs as [|r refs IH]; intros s H; simpl in H.
  - injection H as <-. exists []. rewrite app_nil_r. repeat split. constructor.
  - cbv [mbind M_bind bind] in H.
    destruct (screen_points (coords r) s) as [pts s1|e s1] eqn:Hp; [|discriminate].
    assert (s1 = s) as ->.
    { unfold screen_points in Hp. destruct (coords r); [injection Hp as _ <-; reflexivity|].
      destruct (geometry s); [injection Hp as _ <-; reflexivity | discriminate]. }
    destruct (canvas (Canvas.load_draw (mode r) pts) s) as [id s2|e s2] eqn:Hc;
      [|discriminate].
    assert (current_draw_info s2 = current_draw_info s) as Hsame.
    { unfold canvas, lift in Hc.
      destruct (Canvas.load_draw (mode r) pts (drawing_canvas s));
        [injection Hc as _ <-; reflexivity | discriminate]. }
    cbv [modify] in H. apply IH in H as (shown & Heq & Hlen & Hall).
    simpl in Heq. rewrite Hsame, <- app_assoc in Heq.
    eexists. split; [exact Heq|]. split; [simpl; rewrite Hlen; reflexivity|].
    constructor; [reflexivity | exact Hall].
Qed.

Lemma split_refs_missing_key (infos : list DrawInfo)
    (visual_refs_query visual_refs_anwser : list VisualAnnotation) :
  Exists (fun d => di_is_Q d = None) infos ->
  split_refs infos visual_refs_query visual_refs_anwser = inl (KeyError "is_Q").
Proof.
  intros H. revert visual_refs_query visual_refs_anwser.
  induction H as [d infos Hd|d infos _ IH]; intros vq va; simpl.
  - rewrite Hd. reflexivity.
  - destruct (di_is_Q d) as [[|]|]; [apply IH | apply IH | reflexivity].
Qed.

(** With both texts filled in, [add_qa_pair] raises as soon as one pending
    drawing has no ["is_Q"], and changes nothing. *)
Lemma add_qa_pair_missing_key (a : ImageQAAnnotator) :
  Py.is_empty (Py.strip (question_entry a)) = false ->
  Py.is_empty (Py.strip (answer_entry a)) = false ->
  Exists (fun d => di_is_Q d = None) (current_draw_info a) ->
  add_qa_pair a = Raised (KeyError "is_Q") a.
Proof.
  intros Hq Ha He. unfold add_qa_pair. cbv [mbind M_bind bind get].
  rewrite Hq, Ha. simpl. rewrite (split_refs_missing_key _ [] [] He). reflexivity.
Qed.

(** ** Invariants of every reachable session *)

Lemma reachable_stable (P : ImageQAAnnotator -> Prop) :
  (forall d size, P (init d size)) -> (forall ev, stable P (handle ev)) ->
  forall a, reachable a -> P a.
Proof.
  intros Hinit Hev a (d & size & evs & ->).
  generalize (init d size) (Hinit d size). clear Hinit.
  induction evs as [|ev evs IH]; intros a Ha; [exact Ha|].
  simpl. apply IH, Hev, Ha.
Qed.

(** Everything below [handle] that is not a loop. *)
Ltac unfold_handlers :=
  unfold open_images_folder, save_annotations, on_image_selected, jump2image,
    load_current_image, load_existing_annotations, reset_zoom, on_mousewheel,
    button_mode, button_clear_current, button_clear_all, left_click, drag,
    on_draw_finished, on_click_query_entry, on_click_anwser_entry,
    type_question, type_answer, add_qa_pair, edit_qa_pair, show_qa_pair,
    delete_qa_pair, clear_qa_pairs, update_qa_list, update_image_list,
    write_annotations, image_points, screen_points,
    messagebox, status; unfold canvas_do, canvas, mutate.

(** Closes the steps that leave the invariant alone, whatever they
    branch on. *)
Ltac stable_frame :=
  try unfold alloc;
  let s := fresh "s" in let Hs := fresh "Hs" in
  intros s Hs;
  repeat (match goal with
          | |- context [match ?x with _ => _ end] => destruct x
          end);
  exact Hs.

Lemma load_items_at_least (data : list JItem) :
  stable zoom_at_least_min (load_items data).
Proof.
  induction data as [|item data IH]; simpl; [apply stable_ret|].
  unfold alloc. stable_auto. - intros s Hs; exact Hs. - exact IH.
Qed.

Lemma show_refs_at_least (refs : list VisualAnnotation) :
  stable zoom_at_least_min (show_refs refs).
Proof.
  induction refs as [|r refs IH]; simpl; [apply stable_ret|].
  unfold_handlers. stable_auto; try exact IH.
  all: stable_frame.
Qed.

Lemma handle_at_least (ev : Event) : stable zoom_at_least_min (handle ev).
Proof.
  destruct ev; simpl; unfold_handlers; stable_auto.
  all: first [ apply fit_window_at_least | apply zoom_at_least
             | apply load_items_at_least | apply show_refs_at_least
             | stable_frame ].
Qed.

(** The zoom factor of a reachable session is never below the minimum
    zoom. *)
Lemma reachable_at_least_min (a : ImageQAAnnotator) : reachable a -> zoom_at_least_min a.
Proof.
  apply reachable_stable; [|apply handle_at_least].
  intros d size. split; [split; reflexivity|].
  apply Qle_bool_iff. reflexivity.
Qed.

(** *** Distinct keys *)

Lemma dict_del_keys_sub {V} (k k' : string) (d : list (string * V)) :
  k' ∈ (Dict.del k d).*1 -> k' ∈ d.*1.
Proof.
  induction d as [|[k0 v0] d IH]; simpl; [trivial|].
  destruct (decide (k = k0)); simpl.
  - intros H. right. exact H.
  - rewrite !elem_of_cons. intros [->|H]; [left; reflexivity | right; apply IH, H].
Qed.

Lemma dict_del_NoDup {V} (k : string) (d : list (string * V)) :
  NoDup d.*1 -> NoDup (Dict.del k d).*1.
Proof.
  induction d as [|[k0 v0] d IH]; simpl; [trivial|].
  intros H. apply NoDup_cons in H as [Hk0 Hd].
  destruct (decide (k = k0)); simpl; [exact Hd|].
  apply NoDup_cons. split; [|apply IH, Hd].
  intros Hin. apply Hk0. apply (dict_del_keys_sub k), Hin.
Qed.

Lemma load_items_keys (data : list JItem) : stable keys_distinct (load_items data).
Proof.
  induction data as [|item data IH]; simpl; [apply stable_ret|].
  unfold alloc. stable_auto; try exact IH; try stable_frame.
  intros s Hs. apply dict_set_NoDup, Hs.
Qed.

Lemma show_refs_keys (refs : list VisualAnnotation) :
  stable keys_distinct (show_refs refs).
Proof.
  induction refs as [|r refs IH]; simpl; [apply stable_ret|].
  unfold_handlers. stable_auto; try exact IH; stable_frame.
Qed.

Lemma fit_window_keys : stable keys_distinct fit_window.
Proof.
  unfold fit_window, display_image, canvas_do. stable_auto. stable_frame.
Qed.

Lemma zoom_keys (pos : option (Q * Q)) (scale_up : Z) :
  stable keys_distinct (zoom pos scale_up).
Proof.
  unfold zoom, display_image, canvas_do. stable_auto. stable_frame.
Qed.

Lemma handle_keys (ev : Event) : stable keys_distinct (handle ev).
Proof.
  destruct ev; simpl; unfold_handlers; stable_auto.
  all: first [ apply fit_window_keys | apply zoom_keys
             | apply load_items_keys | apply show_refs_keys
             | stable_frame
             | intros ? _; first [apply dict_set_NoDup | apply dict_del_NoDup];
               assumption ].
Qed.

Lemma reachable_keys_distinct (a : ImageQAAnnotator) : reachable a -> keys_distinct a.
Proof.
  apply reachable_stable; [|apply handle_keys].
  intros d size. apply NoDup_nil_2.
Qed.

(** *** Modes *)

(** Each method of the canvas keeps [draft_has_mode]. *)
Ltac canvas_cases c :=
  destruct c as [im [[| | |]|] pts [id|] its objs nx];
  unfold draft_has_mode, Canvas.set_mode, Canvas.on_left_click, Canvas.on_drag,
    Canvas.reset, Canvas.load_image, Canvas.clear_item, Canvas.tk_create,
    Canvas.tk_delete, Canvas.tk_coords, Canvas.tk_delete_all, Canvas.with_draft,
    Canvas.with_mode, Canvas.with_items, Py.truthy, mode_is;
  simpl; intros;
  repeat (match goal with
          | |- context [negb (Z.eqb ?x 0)] => destruct (Z.eqb x 0)
          | H : context [negb (Z.eqb ?x 0)] |- _ => destruct (Z.eqb x 0)
          end; simpl in * );
  try congruence; eauto.

Lemma clear_item_mode (c : DrawingCanvas) :
  draft_has_mode c -> draft_has_mode (Canvas.clear_item c).
Proof. canvas_cases c. Qed.

Lemma set_mode_mode (m : DrawMode) (c : DrawingCanvas) :
  draft_has_mode (Canvas.set_mode m c).
Proof. canvas_cases c. Qed.

Lemma on_left_click_mode (x y : Q) (c : DrawingCanvas) :
  draft_has_mode c -> draft_has_mode (Canvas.on_left_click x y c).
Proof. canvas_cases c. Qed.

Lemma on_drag_mode (x y : Q) (c : DrawingCanvas) :
  draft_has_mode c -> draft_has_mode (Canvas.on_drag x y c).
Proof. canvas_cases c. Qed.

Lemma clear_all_mode (c : DrawingCanvas) :
  draft_has_mode c -> draft_has_mode (Canvas.clear_all c).
Proof.
  unfold Canvas.clear_all. intros H. apply clear_item_mode in H.
  generalize dependent (Canvas.clear_item c). clear c. intros c H.
  unfold draft_has_mode in *. simpl.
  assert (forall its c0, current_item (fold_left (fun c id => Canvas.tk_delete id c) its c0)
                         = current_item c0
                         /\ current_mode (fold_left (fun c id => Canvas.tk_delete id c) its c0)
                            = current_mode c0) as Hfold.
  { induction its as [|i its IH]; intros c0; [split; reflexivity|].
    simpl. destruct (IH (Canvas.tk_delete i c0)) as [-> ->]. split; reflexivity. }
  destruct (Hfold (items c) c) as [-> ->]. exact H.
Qed.

Lemma reset_mode (c : DrawingCanvas) : draft_has_mode (Canvas.reset c).
Proof. canvas_cases c. Qed.

Lemma load_image_mode (offsets : option (Q * Q)) (c : DrawingCanvas) :
  draft_has_mode c -> draft_has_mode (Canvas.load_image offsets c).
Proof. destruct offsets as [[ox oy]|]; canvas_cases c. Qed.

Lemma on_right_click_mode (c : DrawingCanvas) :
  draft_has_mode c ->
  draft_has_mode (Canvas.on_right_click c).2 /\
  forall r, (Canvas.on_right_click c).1 = Some r -> is_Some (Canvas.f_mode r).
Proof.
  destruct c as [im [[| | |]|] pts [id|] its objs nx];
    unfold draft_has_mode, Canvas.on_right_click, mode_is; simpl;
    intros H; split; try congruence.
  all: try (intros r Hr; injection Hr as <-; simpl; eauto).
  exact H.
Qed.

Lemma load_draw_mode (m : option DrawMode) (pts : list Q) (c : DrawingCanvas) :
  draft_has_mode c -> draft_has_mode (final (Canvas.load_draw m pts c)).
Proof.
  intros H. unfold Canvas.load_draw.
  destruct (mode_is m RECT && _); [unfold draft_has_mode; simpl; congruence|].
  destruct (mode_is m POLY && _); [unfold draft_has_mode; simpl; congruence|].
  destruct (mode_is m POINT); [|exact H].
  destruct (take 2 pts) as [|x [|y [|z l]]]; simpl; try exact H.
  unfold draft_has_mode; simpl; congruence.
Qed.

Lemma load_refs_named (js : list JRef) (vs : list VisualAnnotation) :
  load_refs js = inr vs ->
  forallb (fun r => bool_decide (is_Some (mode r))) vs = true.
Proof.
  revert vs. induction js as [|j js IH]; intros vs H; simpl in H.
  - injection H as <-. reflexivity.
  - destruct (mode_of_name (j_mode j)) as [m|]; [|discriminate].
    destruct (load_refs js) as [e|vs']; [discriminate|].
    injection H as <-. simpl. rewrite (IH vs' eq_refl). reflexivity.
Qed.

Lemma load_conversations_named (js : list JTurn) (convs : list QAAnnotation) :
  load_conversations js = inr convs -> forallb refs_named convs = true.
Proof.
  revert convs. induction js as [|j js IH]; intros convs H; simpl in H.
  - injection H as <-. reflexivity.
  - destruct (j_visual_refs j) as [refs|].
    + destruct (load_refs refs) as [e|vs] eqn:Hr; [discriminate|].
      destruct (load_conversations js) as [e|convs']; [discriminate|].
      injection H as <-. simpl. rewrite (IH convs' eq_refl), andb_true_r.
      unfold refs_named. simpl. apply (load_refs_named _ _ Hr).
    + destruct (load_conversations js) as [e|convs']; [discriminate|].
      injection H as <-. simpl. apply (IH convs' eq_refl).
Qed.

Lemma deref_named (l : loc) (a : ImageQAAnnotator) :
  heap_named a -> forallb refs_named (deref l a) = true.
Proof.
  intros H. unfold deref. rewrite lookup_total_alt.
  destruct (heap a !! l) as [convs|] eqn:E; [apply (H l convs E) | reflexivity].
Qed.

Lemma forallb_del_slice {A} (f : A -> bool) (i j : nat) (l : list A) :
  forallb f l = true -> forallb f (Py.del_slice i j l) = true.
Proof.
  intros H. unfold Py.del_slice. rewrite forallb_app.
  rewrite forallb_forall in H.
  apply andb_true_iff. split; apply forallb_forall; intros x Hx; apply H.
  - apply list_elem_of_In, (subseteq_take i l), list_elem_of_In, Hx.
  - apply list_elem_of_In, (subseteq_drop j l), list_elem_of_In, Hx.
Qed.

Lemma or_None_named (ro te : string) (refs : list VisualAnnotation) :
  Forall (fun r => is_Some (mode r)) refs ->
  refs_named (mkQA ro te (or_None refs)) = true.
Proof.
  intros H. unfold refs_named. destruct refs as [|r rs]; [reflexivity|]. simpl or_None.
  cbn [visual_refs]. apply forallb_forall. intros x Hx.
  apply bool_decide_eq_true_2. rewrite Forall_forall in H. apply H.
  apply list_elem_of_In, Hx.
Qed.

Lemma split_refs_named (infos : list DrawInfo) (q ans q' ans' : list VisualAnnotation) :
  Forall (fun d => is_Some (di_mode d)) infos ->
  Forall (fun r => is_Some (mode r)) q -> Forall (fun r => is_Some (mode r)) ans ->
  split_refs infos q ans = inr (q', ans') ->
  Forall (fun r => is_Some (mode r)) q' /\ Forall (fun r => is_Some (mode r)) ans'.
Proof.
  intros Hi. revert q ans. induction Hi as [|d infos Hd _ IH]; intros q ans Hq Ha H.
  - injection H as <- <-. split; assumption.
  - simpl in H. destruct (di_is_Q d) as [[|]|]; [| |discriminate].
    + refine (IH _ _ (Forall_app_2 _ _ _ Hq _) Ha H).
      apply Forall_singleton. exact Hd.
    + refine (IH _ _ Hq (Forall_app_2 _ _ _ Ha _) H).
      apply Forall_singleton. exact Hd.
Qed.

Lemma alloc_typed (convs : list QAAnnotation) :
  forallb refs_named convs = true -> stable modes_typed (alloc convs).
Proof.
  intros Hn s (Hc & Hd & Hh). unfold alloc, final.
  split; [exact Hc|]. split; [exact Hd|].
  intros l convs' Hl. cbn [heap set_heap set_next_loc] in Hl.
  apply lookup_insert_Some in Hl as [[_ <-]|[_ Hl]]; [exact Hn | apply (Hh l _ Hl)].
Qed.

Lemma mutate_typed (l : loc) (f : list QAAnnotation -> list QAAnnotation) :
  (forall convs, forallb refs_named convs = true -> forallb refs_named (f convs) = true) ->
  stable modes_typed (mutate l f).
Proof.
  intros Hf s (Hc & Hd & Hh). unfold mutate, modify, final.
  split; [exact Hc|]. split; [exact Hd|].
  intros l' convs' Hl. cbn [heap set_heap] in Hl.
  apply lookup_insert_Some in Hl as [[_ <-]|[_ Hl]]; [|apply (Hh l' _ Hl)].
  apply Hf, deref_named, Hh.
Qed.

Lemma canvas_do_typed (f : DrawingCanvas -> DrawingCanvas) :
  (forall c, draft_has_mode c -> draft_has_mode (f c)) ->
  stable modes_typed (canvas_do f).
Proof.
  intros Hf s (Hc & Hd & Hh). unfold canvas_do, modify, final.
  split; [apply Hf, Hc|]. split; [exact Hd | exact Hh].
Qed.

Lemma display_image_typed : stable modes_typed display_image.
Proof.
  unfold display_image. stable_auto; apply canvas_do_typed; intros c Hc.
  - apply reset_mode.
  - apply load_image_mode, Hc.
Qed.

Lemma fit_window_typed : stable modes_typed fit_window.
Proof.
  unfold fit_window. stable_auto; first [apply display_image_typed | stable_frame].
Qed.

Lemma zoom_typed (pos : option (Q * Q)) (scale_up : Z) :
  stable modes_typed (zoom pos scale_up).
Proof.
  unfold zoom. stable_auto; first [apply display_image_typed | stable_frame].
Qed.

Lemma update_qa_list_typed : stable modes_typed update_qa_list.
Proof. unfold update_qa_list. stable_auto. Qed.

Lemma update_image_list_typed : stable modes_typed update_image_list.
Proof. unfold update_image_list. stable_auto. Qed.

Lemma load_items_typed (data : list JItem) : stable modes_typed (load_items data).
Proof.
  induction data as [|item data IH]; simpl; [apply stable_ret|].
  destruct (load_conversations (j_conversations item)) as [e|convs] eqn:E;
    [apply stable_raise|].
  apply stable_bind; [apply alloc_typed, (load_conversations_named _ _ E)|].
  intros l. stable_auto. exact IH.
Qed.

Lemma load_existing_annotations_typed : stable modes_typed load_existing_annotations.
Proof.
  unfold load_existing_annotations, status, messagebox. stable_auto.
  apply load_items_typed.
Qed.

Lemma load_current_image_typed : stable modes_typed load_current_image.
Proof.
  unfold load_current_image, status, messagebox. stable_auto;
    first [ apply fit_window_typed | apply update_qa_list_typed
          | apply update_image_list_typed | idtac ].
  apply alloc_typed. destruct (Dict.get _ (all_annotations _)); [|reflexivity].
  match goal with H : modes_typed _ |- _ => apply deref_named, H end.
Qed.

Lemma show_refs_typed (refs : list VisualAnnotation) :
  Forall (fun r => is_Some (mode r)) refs -> stable modes_typed (show_refs refs).
Proof.
  induction 1 as [|r refs Hr _ IH]; simpl; [apply stable_ret|].
  apply stable_bind.
  { unfold screen_points. stable_frame. }
  intros pts. apply stable_bind.
  { intros s (Hc & Hd & Hh). unfold canvas, lift.
    pose proof (load_draw_mode (mode r) pts (drawing_canvas s) Hc) as Hc'.
    destruct (Canvas.load_draw (mode r) pts (drawing_canvas s)); simpl in *;
      (split; [exact Hc' | split; assumption]). }
  intros id. apply stable_bind; [|intros _; exact IH].
  apply stable_modify. intros s (Hc & Hd & Hh).
  split; [exact Hc|]. split; [|exact Hh].
  cbn [current_draw_info set_current_draw_info].
  apply Forall_app_2; [exact Hd|]. apply Forall_singleton. exact Hr.
Qed.

Lemma named_lookup (convs : list QAAnnotation) (qa : QAAnnotation)
    (refs : list VisualAnnotation) :
  forallb refs_named convs = true -> qa ∈ convs -> visual_refs qa = Some refs ->
  Forall (fun r => is_Some (mode r)) refs.
Proof.
  intros Hn Hin Hr. rewrite forallb_forall in Hn.
  specialize (Hn qa (proj1 (list_elem_of_In _ _) Hin)).
  unfold refs_named in Hn. rewrite Hr in Hn.
  apply Forall_forall. intros r Hrin. rewrite forallb_forall in Hn.
  specialize (Hn r (proj1 (list_elem_of_In _ _) Hrin)).
  apply bool_decide_eq_true in Hn. exact Hn.
Qed.

Lemma py_index_elem {A} (l : list A) (i : Z) (x : A) :
  py_index l i = Some x -> x ∈ l.
Proof.
  unfold py_index. destruct (0 <=? i); [|destruct (_ <=? i)]; try discriminate;
    apply list_elem_of_lookup_2.
Qed.

Lemma show_qa_pair_typed (index : Z) : stable modes_typed (show_qa_pair index).
Proof.
  unfold show_qa_pair, status. stable_auto.
  - apply canvas_do_typed, clear_all_mode.
  - apply show_refs_typed.
    match goal with
    | H : modes_typed ?a, E : py_index _ _ = Some ?q, E' : visual_refs ?q = Some _ |- _ =>
        apply (named_lookup (deref (current_annotation a) a) q);
          [apply deref_named, H | apply (py_index_elem _ _ _ E) | exact E']
    end.
Qed.

Lemma delete_qa_pair_typed (index selected : option nat) :
  stable modes_typed (delete_qa_pair index selected).
Proof.
  unfold delete_qa_pair. stable_auto.
  apply mutate_typed. intros convs. apply forallb_del_slice.
Qed.

Lemma clear_qa_pairs_typed (confirmed : bool) :
  stable modes_typed (clear_qa_pairs confirmed).
Proof.
  unfold clear_qa_pairs. stable_auto. apply mutate_typed. reflexivity.
Qed.

Lemma add_qa_pair_typed : stable modes_typed add_qa_pair.
Proof.
  unfold add_qa_pair, messagebox. stable_auto;
    first [ apply update_qa_list_typed | apply canvas_do_typed, clear_all_mode | idtac ].
  - intros s (Hc & _ & Hh). split; [exact Hc|]. split; [constructor | exact Hh].
  - match goal with
    | H : modes_typed ?a, E : split_refs _ [] [] = inr (?q, ?ans) |- _ =>
        destruct H as (_ & Hd & _);
        destruct (split_refs_named _ [] [] q ans Hd ltac:(constructor) ltac:(constructor) E)
          as [Hq Hans]
    end.
    apply mutate_typed. intros convs Hn. rewrite forallb_app, Hn. simpl.
    rewrite (or_None_named _ _ _ Hq), (or_None_named _ _ _ Hans). reflexivity.
Qed.

Lemma on_draw_finished_typed : stable modes_typed on_draw_finished.
Proof.
  unfold on_draw_finished.
  apply (stable_bind_result modes_typed
           (fun ref => forall r, ref = Some r -> is_Some (Canvas.f_mode r))).
  - intros s (Hc & Hd & Hh). unfold canvas, lift.
    destruct (on_right_click_mode (drawing_canvas s) Hc) as [Hc' Hr].
    destruct (Canvas.on_right_click (drawing_canvas s)) as [ref c'].
    simpl in *. split; [split; [exact Hc' | split; assumption] | exact Hr].
  - intros [r|] Hr; [|apply stable_ret].
    unfold image_points, status. stable_auto; try stable_frame.
    intros s (Hc & Hd & Hh). split; [exact Hc|]. split; [|exact Hh].
    cbn [current_draw_info set_current_draw_info].
    apply Forall_app_2; [exact Hd|]. apply Forall_singleton. simpl.
    apply Hr. reflexivity.
Qed.

Lemma save_annotations_typed : stable modes_typed save_annotations.
Proof.
  unfold save_annotations, write_annotations, status, messagebox. stable_auto.
Qed.

Lemma handle_typed (ev : Event) : stable modes_typed (handle ev).
Proof.
  destruct ev; simpl;
    unfold open_images_folder, on_image_selected, jump2image, reset_zoom,
      on_mousewheel, button_mode, button_clear_current, button_clear_all,
      left_click, drag, on_click_query_entry, on_click_anwser_entry,
      type_question, type_answer, edit_qa_pair, messagebox, status;
    stable_auto.
  all: first
    [ apply load_existing_annotations_typed | apply update_image_list_typed
    | apply load_current_image_typed | apply save_annotations_typed
    | apply fit_window_typed | apply zoom_typed
    | apply on_draw_finished_typed | apply add_qa_pair_typed
    | apply show_qa_pair_typed | apply delete_qa_pair_typed
    | apply clear_qa_pairs_typed
    | apply canvas_do_typed; intros c Hc;
      first [ apply set_mode_mode | apply clear_item_mode, Hc
            | apply clear_all_mode, Hc | apply on_left_click_mode, Hc
            | apply on_drag_mode, Hc ]
    | intros s (Hc & _ & Hh); split; [exact Hc | split; [constructor | exact Hh]] ].
Qed.

(** In every reachable session the zoom factor is at or above the minimum
    zoom, the keys of [all_annotations] are distinct, and every mode is a
    member of [DrawMode]: reachable sessions are well formed. *)
Lemma reachable_modes_typed (a : ImageQAAnnotator) : reachable a -> modes_typed a.
Proof.
  apply reachable_stable; [|apply handle_typed].
  intros d size. split; [intros H; contradiction|]. split; [constructor|].
  intros l convs Hl. cbn [heap init] in Hl.
  apply lookup_singleton_Some in Hl as [_ <-]. reflexivity.
Qed.

(** X23. Every session that the window can reach is well formed: the
    entries of [all_annotations] have distinct keys, and every region of
    every stored conversation and of the conversation being edited
    carries a member of [DrawMode], never Python's [None], the one value
    whose [.name] the list box and a save could not read. *)
Lemma reachable_well_formed (a : ImageQAAnnotator) : reachable a -> well_formed a.
Proof.
  intros Hr. pose proof (reachable_modes_typed a Hr) as (_ & _ & Hh).
  split; [apply reachable_keys_distinct, Hr|]. split.
  - unfold items_named, annotation_items. apply forallb_forall.
    intros [k convs] Hin. apply in_map_iff in Hin as ([k' l] & [= <- <-] & _).
    simpl. apply deref_named, Hh.
  - apply deref_named, Hh.
Qed.



(** ** The example sessions are reachable *)

Lemma reachable_init (d : gmap string Folder) (size : Z * Z) : reachable (init d size).
Proof. exists d, size, []. reflexivity. Qed.

Lemma reachable_after (evs : list Event) (a : ImageQAAnnotator) :
  reachable a -> reachable (after a evs).
Proof.
  intros (d & size & evs0 & ->). exists d, size, (evs0 ++ evs).
  unfold after, run. rewrite map_app, fold_left_app. reflexivity.
Qed.

Ltac reachable_example :=
  repeat lazymatch goal with
         | |- reachable (after _ _) => apply reachable_after
         | |- reachable (init _ _) => apply reachable_init
         end.

Example example_session_reachable : reachable example_session.
Proof. unfold example_session. reachable_example. Qed.

Example example_small_image_reachable : reachable example_small_image.
Proof. unfold example_small_image, example_session. reachable_example. Qed.

Example example_emptied_reachable : reachable example_emptied.
Proof.
  unfold example_emptied, example_annotated, example_session. reachable_example.
Qed.

Example example_edited_after_save_reachable : reachable example_edited_after_save.
Proof.
  unfold example_edited_after_save, example_annotated, example_session.
  reachable_example.
Qed.

Example example_answer_region_reachable : reachable example_answer_region.
Proof. unfold example_answer_region, example_session. reachable_example. Qed.

Example example_editing_reachable : reachable example_editing.
Proof.
  unfold example_editing, example_question_region, example_session.
  reachable_example.
Qed.

Example example_half_pixel_reachable : reachable example_half_pixel.
Proof. unfold example_half_pixel, example_session. reachable_example. Qed.

(** ** Polygon drafts in reachable sessions *)

Ltac draft_cases c :=
  destruct c as [im [[| | |]|] pts [id|] its objs nx];
  unfold draft_consistent, Canvas.set_mode, Canvas.on_left_click, Canvas.on_drag,
    Canvas.reset, Canvas.load_image, Canvas.clear_item, Canvas.on_right_click,
    Canvas.tk_create, Canvas.tk_delete, Canvas.tk_coords, Canvas.tk_delete_all,
    Canvas.with_draft, Canvas.with_mode, Canvas.with_items, Py.truthy, mode_is;
  simpl; intros (Hnx & Hid & Hpts);
  try (specialize (Hid _ eq_refl); apply Z.eqb_neq in Hid; rewrite ?Hid);
  simpl; repeat split; intros; try congruence; try lia;
  try (match goal with H : Some _ = Some _ |- _ => injection H as <- end; lia);
  auto.

Lemma clear_item_consistent (c : DrawingCanvas) :
  draft_consistent c ->
  draft_consistent (Canvas.clear_item c) /\ current_item (Canvas.clear_item c) = None.
Proof.
  destruct c as [im md pts [id|] its objs nx];
    unfold draft_consistent, Canvas.clear_item, Py.truthy; simpl;
    intros (Hnx & Hid & Hpts).
  - specialize (Hid _ eq_refl). apply Z.eqb_neq in Hid. rewrite Hid. simpl.
    repeat split; auto; congruence.
  - repeat split; auto.
Qed.

Lemma set_mode_consistent (m : DrawMode) (c : DrawingCanvas) :
  draft_consistent c -> draft_consistent (Canvas.set_mode m c).
Proof. draft_cases c. Qed.

Lemma on_left_click_consistent (x y : Q) (c : DrawingCanvas) :
  draft_consistent c -> draft_consistent (Canvas.on_left_click x y c).
Proof. draft_cases c. Qed.

Lemma on_drag_consistent (x y : Q) (c : DrawingCanvas) :
  draft_consistent c -> draft_consistent (Canvas.on_drag x y c).
Proof. draft_cases c. Qed.

Lemma on_right_click_consistent (c : DrawingCanvas) :
  draft_consistent c -> draft_consistent (Canvas.on_right_click c).2.
Proof. draft_cases c. Qed.

Lemma reset_consistent (c : DrawingCanvas) :
  draft_consistent c -> draft_consistent (Canvas.reset c).
Proof. draft_cases c. Qed.

Lemma load_image_consistent (offsets : option (Q * Q)) (c : DrawingCanvas) :
  draft_consistent c -> draft_consistent (Canvas.load_image offsets c).
Proof. destruct offsets as [[ox oy]|]; draft_cases c. Qed.

Lemma clear_all_consistent (c : DrawingCanvas) :
  draft_consistent c ->
  draft_consistent (Canvas.clear_all c) /\ current_item (Canvas.clear_all c) = None.
Proof.
  intros H. apply clear_item_consistent in H as [H Hnone].
  unfold Canvas.clear_all. generalize dependent (Canvas.clear_item c). clear c.
  intros c H Hnone.
  assert (forall its c0,
            let c1 := fold_left (fun c id => Canvas.tk_delete id c) its c0 in
            current_item c1 = current_item c0 /\ current_points c1 = current_points c0
            /\ tk_next c1 = tk_next c0) as Hfold.
  { induction its as [|i its IH]; intros c0; [repeat split|].
    simpl. destruct (IH (Canvas.tk_delete i c0)) as (-> & -> & ->). repeat split. }
  destruct (Hfold (items c) c) as (Hi & Hp & Hn).
  unfold draft_consistent. simpl. rewrite Hi, Hp, Hn. split; [exact H | exact Hnone].
Qed.

Lemma load_draw_consistent (m : option DrawMode) (pts : list Q) (c : DrawingCanvas) :
  draft_consistent c /\ current_item c = None ->
  let c' := final (Canvas.load_draw m pts c) in
  draft_consistent c' /\ current_item c' = None.
Proof.
  intros [(Hnx & Hid & Hpts) Hnone]. unfold Canvas.load_draw.
  assert (forall o,
            let c' := final ((let '(id, c0) := Canvas.tk_create o c in
                              let c1 := Canvas.with_draft (current_points c0) (Some id) c0 in
                              let c2 := Canvas.with_items (items c1 ++ [id]) c1 in
                              let c3 := Canvas.with_draft (current_points c2) None c2 in
                              Done (last (items c3)) c3) : Outcome DrawingCanvas (option Z)) in
            draft_consistent c' /\ current_item c' = None) as Hfinish.
  { intros o. unfold draft_consistent. simpl.
    repeat split; intros; try congruence; try lia. apply Hpts, Hnone. }
  destruct (mode_is m RECT && _); [apply Hfinish|].
  destruct (mode_is m POLY && _); [apply Hfinish|].
  destruct (mode_is m POINT); [|repeat split; assumption].
  destruct (take 2 pts) as [|x [|y [|z l]]]; try (repeat split; assumption).
  apply Hfinish.
Qed.

(** The canvas of the session. *)
Lemma canvas_do_consistent (f : DrawingCanvas -> DrawingCanvas) :
  (forall c, draft_consistent c -> draft_consistent (f c)) ->
  stable (fun a => draft_consistent (drawing_canvas a)) (canvas_do f).
Proof. intros Hf s Hs. unfold canvas_do, modify, final. simpl. apply Hf, Hs. Qed.

Lemma display_image_consistent :
  stable (fun a => draft_consistent (drawing_canvas a)) display_image.
Proof.
  unfold display_image. stable_auto; apply canvas_do_consistent; intros c Hc.
  - apply reset_consistent, Hc.
  - apply load_image_consistent, Hc.
Qed.

Lemma fit_window_consistent :
  stable (fun a => draft_consistent (drawing_canvas a)) fit_window.
Proof.
  unfold fit_window. stable_auto; first [apply display_image_consistent | stable_frame].
Qed.

Lemma zoom_consistent (pos : option (Q * Q)) (scale_up : Z) :
  stable (fun a => draft_consistent (drawing_canvas a)) (zoom pos scale_up).
Proof.
  unfold zoom. stable_auto; first [apply display_image_consistent | stable_frame].
Qed.

Lemma load_items_consistent (data : list JItem) :
  stable (fun a => draft_consistent (drawing_canvas a)) (load_items data).
Proof.
  induction data as [|item data IH]; simpl; [apply stable_ret|].
  stable_auto; try exact IH; stable_frame.
Qed.

Lemma show_refs_consistent (refs : list VisualAnnotation) :
  stable (fun a => draft_consistent (drawing_canvas a)
                   /\ current_item (drawing_canvas a) = None)
         (show_refs refs).
Proof.
  induction refs as [|r refs IH]; simpl; [apply stable_ret|].
  apply stable_bind; [unfold screen_points; stable_frame|]. intros pts.
  apply stable_bind; [|intros id; apply stable_bind; [|intros _; exact IH]].
  - intros s Hs. unfold canvas, lift.
    pose proof (load_draw_consistent (mode r) pts (drawing_canvas s) Hs) as H.
    destruct (Canvas.load_draw (mode r) pts (drawing_canvas s)); exact H.
  - apply stable_modify. intros s Hs. exact Hs.
Qed.

Lemma show_qa_pair_consistent (index : Z) :
  stable (fun a => draft_consistent (drawing_canvas a)) (show_qa_pair index).
Proof.
  intros s Hs. unfold show_qa_pair. cbv [mbind M_bind bind get].
  destruct (_ || _); [exact Hs|]. cbv [canvas_do modify].
  destruct (clear_all_consistent (drawing_canvas s) Hs) as [Hc Hnone].
  destruct (py_index _ _) as [ann|]; [|exact Hc].
  destruct (visual_refs ann) as [refs|]; [|exact Hc].
  apply (show_refs_consistent refs). split; [exact Hc | exact Hnone].
Qed.

Lemma handle_consistent (ev : Event) :
  stable (fun a => draft_consistent (drawing_canvas a)) (handle ev).
Proof.
  destruct ev; simpl;
    unfold open_images_folder, save_annotations, on_image_selected, jump2image,
      load_current_image, load_existing_annotations, reset_zoom, on_mousewheel,
      button_mode, button_clear_current, button_clear_all, left_click, drag,
      on_draw_finished, on_click_query_entry, on_click_anwser_entry,
      type_question, type_answer, add_qa_pair, edit_qa_pair,
      delete_qa_pair, clear_qa_pairs, update_qa_list, update_image_list,
      write_annotations, image_points, messagebox, status, mutate;
    stable_auto.
  all: first
    [ apply fit_window_consistent | apply zoom_consistent
    | apply load_items_consistent | apply show_qa_pair_consistent
    | apply canvas_do_consistent; intros c Hc;
      first [ apply set_mode_consistent, Hc | apply clear_item_consistent, Hc
            | apply clear_all_consistent, Hc | apply on_left_click_consistent, Hc
            | apply on_drag_consistent, Hc ]
    | stable_frame
    | intros s Hs; unfold canvas, lift;
      pose proof (on_right_click_consistent (drawing_canvas s) Hs) as H;
      destruct (Canvas.on_right_click (drawing_canvas s)); exact H ].
Qed.

Lemma reachable_draft_consistent (a : ImageQAAnnotator) :
  reachable a -> draft_consistent (drawing_canvas a).
Proof.
  apply (reachable_stable (fun a => draft_consistent (drawing_canvas a)));
    [|apply handle_consistent].
  intros d size. unfold draft_consistent. simpl. repeat split; [lia | congruence].
Qed.

(** In every reachable session whose canvas is in polygon mode, a left
    click leaves a draft of exactly the clicked vertex: no click ever
    extends a polygon. *)
Lemma reachable_polygon_click (a : ImageQAAnnotator) (x y : Q) :
  reachable a -> current_mode (drawing_canvas a) = Some POLY ->
  current_points (drawing_canvas (after a [EvLeftClick x y])) = [x; y].
Proof.
  intros Hr Hm. destruct (reachable_draft_consistent a Hr) as (_ & Hid & Hpts).
  unfold after. simpl. unfold step, left_click, canvas_do, modify, final. simpl.
  destruct (current_item (drawing_canvas a)) as [id|] eqn:Hi.
  - apply (on_left_click_poly_restarts x y _ id Hm Hi (Hid id eq_refl)).
  - unfold Canvas.on_left_click, Canvas.clear_item. rewrite Hm, Hi. simpl.
    rewrite Hm. simpl. rewrite (Hpts eq_refl). reflexivity.
Qed.

(** * More of the drawing canvas *)

(** ** Drafts *)

Lemma set_mode_fresh_draft (m : DrawMode) (c : DrawingCanvas) :
  1 <= tk_next c ->
  let c' := Canvas.set_mode m c in
  current_mode c' = Some m /\ current_points c' = [] /\
  (forall id, current_item c' = Some id -> id = 0) /\
  tk_next c' = tk_next c /\ items c' = items c.
Proof.
  intros _. unfold Canvas.set_mode, Canvas.clear_item. simpl.
  destruct (current_item c) as [id|]; simpl; [|repeat split; congruence].
  destruct (Z.eqb_spec id 0) as [->|]; simpl; repeat split; congruence.
Qed.

Lemma clear_item_stale (c : DrawingCanvas) :
  (forall id, current_item c = Some id -> id = 0) -> Canvas.clear_item c = c.
Proof.
  intros H. unfold Canvas.clear_item. destruct (current_item c) as [id|]; [|reflexivity].
  rewrite (H id eq_refl). reflexivity.
Qed.

(** The state of a rectangle draft: item [id] with its two corners. *)
Lemma on_drag_rect (x y : Q) (c : DrawingCanvas) (id : Z) (x0 y0 x1 y1 : Q) :
  current_mode c = Some RECT -> current_item c = Some id -> id <> 0 ->
  current_points c = [x0; y0; x1; y1] ->
  let c' := Canvas.on_drag x y c in
  current_mode c' = Some RECT /\ current_item c' = Some id /\
  current_points c' = [x0; y0; x; y] /\ items c' = items c /\
  tk_next c' = tk_next c.
Proof.
  intros Hm Hi Hid Hp. unfold Canvas.on_drag. rewrite Hi, Hm. simpl.
  destruct (Z.eqb_spec id 0) as [?|_]; [contradiction|]. simpl.
  rewrite Hp. repeat split; assumption.
Qed.

Lemma drag_all_rect (drags : list (Q * Q)) (c : DrawingCanvas) (id : Z)
    (x0 y0 x1 y1 : Q) :
  current_mode c = Some RECT -> current_item c = Some id -> id <> 0 ->
  current_points c = [x0; y0; x1; y1] ->
  let c' := drag_all drags c in
  let corner := default (x1, y1) (last drags) in
  current_mode c' = Some RECT /\ current_item c' = Some id /\
  current_points c' = [x0; y0; corner.1; corner.2] /\ items c' = items c.
Proof.
  revert c x1 y1. induction drags as [|[x y] drags IH]; intros c x1 y1 Hm Hi Hid Hp.
  - simpl. repeat split; assumption.
  - destruct (on_drag_rect x y c id x0 y0 x1 y1 Hm Hi Hid Hp) as (Hm' & Hi' & Hp' & Hit & _).
    destruct (IH _ x y Hm' Hi' Hid Hp') as (? & ? & Hpts & ?).
    cbn [drag_all fold_left fst snd]. fold (drag_all drags (Canvas.on_drag x y c)).
    repeat split; try assumption; [|congruence].
    rewrite Hpts. destruct drags as [|d drags]; [reflexivity|].
    change (last ((x, y) :: d :: drags)) with (last (d :: drags)).
    destruct (last (d :: drags)) eqn:E; [reflexivity|].
    apply last_None in E. discriminate.
Qed.

(** X1. A rectangle is the press position and the position of the last
    drag: after the rectangle button, a press at [(x, y)] and any drags,
    the right click hands out the rectangle from [(x, y)] to the last
    drag position (to [(x, y)] itself without a drag), under the id that
    Tk gave the draft, and commits that id. *)
Theorem rectangle_follows_last_drag (c : DrawingCanvas) (x y : Q) (drags : list (Q * Q)) :
  1 <= tk_next c ->
  let corner := default (x, y) (last drags) in
  let r := Canvas.on_right_click
             (drag_all drags (Canvas.on_left_click x y (Canvas.set_mode RECT c))) in
  r.1 = Some (Canvas.mkFinished (Some RECT) [x; y; corner.1; corner.2] (tk_next c)) /\
  items r.2 = items c ++ [tk_next c].
Proof.
  intros Hn. destruct (set_mode_fresh_draft RECT c Hn) as (Hm & Hp & Hi & Hnx & Hit).
  set (c0 := Canvas.set_mode RECT c) in *.
  assert (let c1 := Canvas.on_left_click x y c0 in
          current_mode c1 = Some RECT /\ current_item c1 = Some (tk_next c) /\
          current_points c1 = [x; y; x; y] /\ items c1 = items c) as (Hm1 & Hi1 & Hp1 & Hit1).
  { unfold Canvas.on_left_click. rewrite Hm. simpl. rewrite (clear_item_stale c0 Hi).
    rewrite Hm. simpl. rewrite Hnx. repeat split. exact Hit. }
  assert (tk_next c <> 0) as Hid by lia.
  destruct (drag_all_rect drags _ _ x y x y Hm1 Hi1 Hid Hp1) as (Hm2 & Hi2 & Hp2 & Hit2).
  simpl. unfold Canvas.on_right_click. rewrite Hi2, Hm2. simpl.
  rewrite Hm2, Hp2, Hit2, Hit1. split; reflexivity.
Qed.

Lemma rectangle_follows_last_drag_witness :
  let r := Canvas.on_right_click
             (drag_all [(5, 5); (30, 40)]%Q
                (Canvas.on_left_click 1 2 (Canvas.set_mode RECT Canvas.init))) in
  r.1 = Some (Canvas.mkFinished (Some RECT) [1; 2; 30; 40]%Q 1) /\ items r.2 = [1].
Proof. apply (rectangle_follows_last_drag Canvas.init 1 2 [(5, 5); (30, 40)]%Q). simpl. lia. Defined.

Lemma filter_all {A} (P : A -> Prop) `{forall x, Decision (P x)} (l : list A) :
  Forall P l -> filter P l = l.
Proof.
  induction 1 as [|x l Hx _ IH]; [reflexivity|].
  rewrite filter_cons_True by exact Hx. rewrite IH. reflexivity.
Qed.

Lemma filter_on {A} (P R : A -> Prop) `{forall x, Decision (P x)}
    `{forall x, Decision (R x)} (l : list A) :
  Forall (fun x => P x <-> R x) l -> filter P l = filter R l.
Proof.
  induction 1 as [|x l Hx _ IH]; [reflexivity|].
  destruct (decide (P x)) as [HP|HP].
  - rewrite !filter_cons_True by tauto. rewrite IH. reflexivity.
  - rewrite !filter_cons_False by tauto. exact IH.
Qed.

(** One click in point mode on a canvas whose only shape above [base] is
    the marker of the click before. *)
Lemma on_left_click_point (x y : Q) (c : DrawingCanvas) (id : Z) (o : CanvasObj)
    (base : list (Z * CanvasObj)) :
  current_mode c = Some POINT -> current_item c = Some id -> 1 <= id ->
  tk_objects c = base ++ [(id, o)] -> Forall (fun p => p.1 < id) base ->
  tk_next c = id + 1 ->
  let c' := Canvas.on_left_click x y c in
  current_mode c' = Some POINT /\ current_item c' = Some (id + 1) /\
  current_points c' = [x; y] /\
  tk_objects c' = base ++ [(id + 1, ObjOval (x - 2) (y - 2) (x + 2) (y + 2))] /\
  tk_next c' = id + 1 + 1 /\ items c' = items c.
Proof.
  intros Hm Hi Hid Ho Hb Hn. unfold Canvas.on_left_click, Canvas.clear_item.
  rewrite Hm, Hi. simpl. destruct (Z.eqb_spec id 0) as [?|_]; [lia|]. simpl.
  rewrite Hm. simpl. rewrite Ho, Hn. repeat split.
  rewrite filter_app, filter_cons_False, filter_nil, app_nil_r by (simpl; tauto).
  rewrite filter_all; [reflexivity|].
  eapply Forall_impl; [exact Hb|]. simpl. intros p Hp. lia.
Qed.

Lemma click_all_point (clicks : list (Q * Q)) (x y : Q) (c : DrawingCanvas)
    (id : Z) (o : CanvasObj) (base : list (Z * CanvasObj)) :
  current_mode c = Some POINT -> current_item c = Some id -> 1 <= id ->
  tk_objects c = base ++ [(id, o)] -> Forall (fun p => p.1 < id) base ->
  tk_next c = id + 1 ->
  let c' := click_all (clicks ++ [(x, y)]) c in
  let id' := id + Z.of_nat (length clicks) + 1 in
  current_mode c' = Some POINT /\ current_item c' = Some id' /\
  current_points c' = [x; y] /\
  tk_objects c' = base ++ [(id', ObjOval (x - 2) (y - 2) (x + 2) (y + 2))] /\
  items c' = items c.
Proof.
  revert c id o. induction clicks as [|[x1 y1] clicks IH]; intros c id o Hm Hi Hid Ho Hb Hn.
  - destruct (on_left_click_point x y c id o base Hm Hi Hid Ho Hb Hn)
      as (? & ? & ? & ? & ? & ?).
    simpl. rewrite Z.add_0_r. repeat split; assumption.
  - destruct (on_left_click_point x1 y1 c id o base Hm Hi Hid Ho Hb Hn)
      as (Hm' & Hi' & _ & Ho' & Hn' & Hit').
    assert (1 <= id + 1) as Hid' by lia.
    assert (Forall (fun p : Z * CanvasObj => p.1 < id + 1) base) as Hb'.
    { eapply Forall_impl; [exact Hb|]. simpl. intros p Hp. lia. }
    destruct (IH _ _ _ Hm' Hi' Hid' Ho' Hb' Hn') as (? & Hi2 & ? & Ho2 & Hit2).
    cbn [click_all app fold_left fst snd].
    fold (click_all (clicks ++ [(x, y)]) (Canvas.on_left_click x1 y1 c)).
    replace (id + Z.of_nat (length ((x1, y1) :: clicks)) + 1)
      with (id + 1 + Z.of_nat (length clicks) + 1) by (simpl length; lia).
    repeat split; try assumption. congruence.
Qed.

(** X2. In point mode the last click wins: after the point button and any
    number of clicks, the canvas shows what it showed before plus exactly
    one marker, at the last click, and the right click hands out that
    position alone under the marker's id. *)
Theorem point_mode_last_click_wins (c : DrawingCanvas) (clicks : list (Q * Q)) (x y : Q) :
  ids_fresh c ->
  let c0 := Canvas.set_mode POINT c in
  let c' := click_all (clicks ++ [(x, y)]) c0 in
  let id := tk_next c + Z.of_nat (length clicks) in
  tk_objects c' = tk_objects c0 ++ [(id, ObjOval (x - 2) (y - 2) (x + 2) (y + 2))] /\
  (Canvas.on_right_click c').1 = Some (Canvas.mkFinished (Some POINT) [x; y] id) /\
  items (Canvas.on_right_click c').2 = items c ++ [id].
Proof.
  intros [Hn Hfresh].
  destruct (set_mode_fresh_draft POINT c Hn) as (Hm & Hp & Hi & Hnx & Hit).
  assert (Forall (fun p => p.1 < tk_next c) (tk_objects (Canvas.set_mode POINT c))) as Hb.
  { unfold Canvas.set_mode, Canvas.clear_item. simpl.
    assert (Forall (fun p : Z * CanvasObj => p.1 < tk_next c) (tk_objects c)) as Hlt.
    { eapply Forall_impl; [exact Hfresh|]. simpl. intros p Hp'. lia. }
    destruct (current_item c) as [id0|]; simpl; [|exact Hlt].
    destruct (negb (Z.eqb id0 0)); simpl; [|exact Hlt].
    apply Forall_forall. intros p Hp'. apply list_elem_of_filter in Hp' as [_ Hp'].
    rewrite Forall_forall in Hlt. apply Hlt, Hp'. }
  set (c0 := Canvas.set_mode POINT c) in *.
  destruct clicks as [|[x1 y1] clicks].
  - cbn [app click_all fold_left fst snd length Z.of_nat]. rewrite Z.add_0_r.
    unfold Canvas.on_left_click at 1 2 3, Canvas.on_right_click.
    rewrite Hm. simpl. rewrite (clear_item_stale c0 Hi). rewrite Hm. simpl.
    rewrite Hnx, Hit. repeat split.
  - assert (let c1 := Canvas.on_left_click x1 y1 c0 in
            current_mode c1 = Some POINT /\ current_item c1 = Some (tk_next c) /\
            tk_objects c1 = tk_objects c0
                            ++ [(tk_next c, ObjOval (x1 - 2) (y1 - 2) (x1 + 2) (y1 + 2))] /\
            tk_next c1 = tk_next c + 1 /\ items c1 = items c)
      as (Hm1 & Hi1 & Ho1 & Hn1 & Hit1).
    { unfold Canvas.on_left_click. rewrite Hm. simpl. rewrite (clear_item_stale c0 Hi).
      rewrite Hm. simpl. rewrite Hnx, Hit. repeat split. }
    destruct (click_all_point clicks x y _ _ _ _ Hm1 Hi1 Hn Ho1 Hb Hn1)
      as (Hm2 & Hi2 & Hp2 & Ho2 & Hit2).
    cbn [app click_all fold_left fst snd].
    fold (click_all (clicks ++ [(x, y)]) (Canvas.on_left_click x1 y1 c0)).
    replace (tk_next c + Z.of_nat (length ((x1, y1) :: clicks)))
      with (tk_next c + Z.of_nat (length clicks) + 1) by (simpl length; lia).
    split; [exact Ho2|].
    unfold Canvas.on_right_click. rewrite Hi2, Hm2. simpl.
    rewrite Hm2, Hp2, Hit2, Hit1. split; reflexivity.
Qed.

Lemma point_mode_last_click_wins_witness :
  let c' := click_all [(1, 1); (2, 2); (7, 7)]%Q (Canvas.set_mode POINT example_canvas) in
  tk_objects c' = tk_objects (Canvas.set_mode POINT example_canvas)
                  ++ [(6, ObjOval 5 5 9 9)] /\
  (Canvas.on_right_click c').1 = Some (Canvas.mkFinished (Some POINT) [7; 7]%Q 6) /\
  items (Canvas.on_right_click c').2 = [2; 6].
Proof.
  apply (point_mode_last_click_wins example_canvas [(1, 1); (2, 2)]%Q 7 7).
  split; [vm_compute; discriminate|].
  vm_compute. repeat constructor; discriminate.
Defined.

(** X3. After a commit the canvas is idle: once a right click has handed
    out a shape, further clicks, drags and right clicks change nothing
    until a mode button is pressed. *)
Theorem canvas_idle_after_commit (c : DrawingCanvas) (r : Canvas.Finished)
    (c' : DrawingCanvas) (x y : Q) :
  Canvas.on_right_click c = (Some r, c') ->
  Canvas.on_left_click x y c' = c' /\ Canvas.on_drag x y c' = c' /\
  Canvas.on_right_click c' = (None, c').
Proof.
  unfold Canvas.on_right_click. destruct (current_item c) as [id|]; [|discriminate].
  destruct (mode_is (current_mode c) NONE); [discriminate|].
  destruct (mode_is (current_mode c) POLY); simpl; intros [= <- <-]; repeat split.
Qed.

Lemma canvas_idle_after_commit_witness :
  let c := Canvas.on_left_click 3 4 (Canvas.set_mode POINT Canvas.init) in
  let c' := (Canvas.on_right_click c).2 in
  Canvas.on_left_click 9 9 c' = c' /\ Canvas.on_drag 9 9 c' = c' /\
  Canvas.on_right_click c' = (None, c').
Proof.
  apply (canvas_idle_after_commit
           (Canvas.on_left_click 3 4 (Canvas.set_mode POINT Canvas.init))
           (Canvas.mkFinished (Some POINT) [3; 4]%Q 1)).
  reflexivity.
Defined.

(** ** The book-keeping of ids *)

Lemma Forall_lt_succ {A} (f : A -> Z) (n : Z) (l : list A) (lo : Z) :
  Forall (fun p => lo <= f p < n) l -> Forall (fun p => lo <= f p < n + 1) l.
Proof. intros H. eapply Forall_impl; [exact H|]. simpl. intros p Hp. lia. Qed.

Lemma clear_item_ok (c : DrawingCanvas) :
  canvas_ok c -> image_apart c ->
  canvas_ok (Canvas.clear_item c) /\ image_apart (Canvas.clear_item c).
Proof.
  intros Hok Him. unfold Canvas.clear_item.
  destruct (current_item c) as [id|] eqn:Hi; [|split; assumption].
  destruct (Py.truthy (Some id)); [|split; assumption].
  destruct Hok as ((Hn & Hfresh) & Hits & Hcur & Horph).
  split.
  - repeat split; simpl.
    + exact Hn.
    + apply Forall_forall. intros p Hp. apply list_elem_of_filter in Hp as [_ Hp].
      rewrite Forall_forall in Hfresh. apply Hfresh, Hp.
    + exact Hits.
    + discriminate.
    + discriminate.
    + discriminate.
    + intros p Hp. apply list_elem_of_filter in Hp as [Hne Hp].
      destruct (Horph p Hp) as [H|[H|H]]; [left; exact H | right; left; exact H |].
      rewrite Hi in H. injection H as ->. contradiction.
  - intros im Ham. simpl in *. destruct (Him im Ham) as (? & ? & ?).
    repeat split; [assumption..|discriminate].
Qed.

Lemma clear_item_none (c : DrawingCanvas) :
  canvas_ok c -> current_item (Canvas.clear_item c) = None.
Proof.
  intros (_ & _ & Hcur & _). unfold Canvas.clear_item.
  destruct (current_item c) as [id|] eqn:Hi; [|exact Hi].
  destruct (Hcur id eq_refl) as [Hid _]. simpl.
  destruct (Z.eqb_spec id 0) as [?|_]; [lia|reflexivity].
Qed.

(** A new draft: Tk's next id becomes the current item. *)
Lemma new_draft_ok (c : DrawingCanvas) (pts : list Q) (o : CanvasObj) :
  canvas_ok c -> image_apart c -> current_item c = None ->
  let c' := mkCanvas (image_item c) (current_mode c) pts (Some (tk_next c)) (items c)
                     (tk_objects c ++ [(tk_next c, o)]) (tk_next c + 1) in
  canvas_ok c' /\ image_apart c'.
Proof.
  intros ((Hn & Hfresh) & Hits & Hcur & Horph) Him Hnone. split.
  - repeat split; simpl.
    + lia.
    + apply Forall_app. split; [apply Forall_lt_succ, Hfresh|].
      apply Forall_singleton. simpl. lia.
    + eapply Forall_impl; [exact Hits|]. simpl. intros. lia.
    + injection H as <-. exact Hn.
    + injection H as <-. lia.
    + injection H as <-. intros Hin. rewrite Forall_forall in Hits.
      specialize (Hits _ Hin). lia.
    + intros p Hp. apply elem_of_app in Hp as [Hp|Hp].
      * destruct (Horph p Hp) as [H|[H|H]]; [left; exact H | right; left; exact H |].
        congruence.
      * apply list_elem_of_singleton in Hp as ->. right. right. reflexivity.
  - intros im Ham. simpl in *. destruct (Him im Ham) as (? & ? & ?).
    repeat split; [lia | assumption |]. intros [= <-]. lia.
Qed.

Lemma with_mode_ok (m : option DrawMode) (pts : list Q) (c : DrawingCanvas) :
  canvas_ok c -> image_apart c ->
  canvas_ok (Canvas.with_draft pts (current_item c) (Canvas.with_mode m c)) /\
  image_apart (Canvas.with_draft pts (current_item c) (Canvas.with_mode m c)).
Proof. intros Hok Him. split; [exact Hok | exact Him]. Qed.

Lemma set_mode_ok (m : DrawMode) (c : DrawingCanvas) :
  canvas_ok c -> image_apart c ->
  canvas_ok (Canvas.set_mode m c) /\ image_apart (Canvas.set_mode m c).
Proof.
  intros Hok Him. unfold Canvas.set_mode. cbv zeta.
  apply clear_item_ok; apply (with_mode_ok (Some m) [] c Hok Him).
Qed.

Lemma on_left_click_ok (x y : Q) (c : DrawingCanvas) :
  canvas_ok c -> image_apart c ->
  canvas_ok (Canvas.on_left_click x y c) /\ image_apart (Canvas.on_left_click x y c).
Proof.
  intros Hok Him. unfold Canvas.on_left_click.
  destruct (mode_is (current_mode c) NONE); [split; assumption|].
  pose proof (clear_item_none c Hok) as Hnone.
  destruct (clear_item_ok c Hok Him) as [Hok' Him'].
  set (c1 := Canvas.clear_item c) in *.
  destruct (mode_is (current_mode c1) RECT);
    [apply (new_draft_ok c1 _ _ Hok' Him' Hnone)|].
  destruct (mode_is (current_mode c1) POLY);
    [apply (new_draft_ok c1 _ _ Hok' Him' Hnone)|].
  destruct (mode_is (current_mode c1) POINT);
    [apply (new_draft_ok c1 _ _ Hok' Him' Hnone)|].
  split; assumption.
Qed.

Lemma tk_coords_elem (id : Z) (pts : list Q) (l : list (Z * CanvasObj))
    (p : Z * CanvasObj) :
  p ∈ map (fun p => if decide (p.1 = id) then (p.1, Canvas.set_pts pts p.2) else p) l ->
  exists q, q ∈ l /\ q.1 = p.1.
Proof.
  induction l as [|q l IH]; simpl; intros Hp.
  - apply elem_of_nil in Hp. contradiction.
  - apply elem_of_cons in Hp as [->|Hp].
    + exists q. split; [apply elem_of_cons; left; reflexivity|].
      destruct (decide (q.1 = id)); reflexivity.
    + destruct (IH Hp) as (q' & Hq' & He). exists q'.
      split; [apply elem_of_cons; right; exact Hq' | exact He].
Qed.

Lemma on_drag_ok (x y : Q) (c : DrawingCanvas) :
  canvas_ok c -> image_apart c ->
  canvas_ok (Canvas.on_drag x y c) /\ image_apart (Canvas.on_drag x y c).
Proof.
  intros Hok Him. unfold Canvas.on_drag.
  destruct (current_item c) as [id|] eqn:Hi; [|split; assumption].
  destruct (_ && _); [|split; assumption].
  destruct Hok as ((Hn & Hfresh) & Hits & Hcur & Horph). split.
  - unfold canvas_ok, ids_fresh, Canvas.tk_coords, Canvas.with_draft.
    cbn [tk_next tk_objects items current_item image_item].
    split; [split; [exact Hn|]|split; [exact Hits|split]].
    + apply Forall_forall. intros p Hp. apply tk_coords_elem in Hp as (q & Hq & <-).
      rewrite Forall_forall in Hfresh. apply Hfresh, Hq.
    + intros i [= <-]. apply (Hcur id Hi).
    + intros p Hp. apply tk_coords_elem in Hp as (q & Hq & <-).
      destruct (Horph q Hq) as [H|[H|H]]; [left; exact H | right; left; exact H |].
      right. right. congruence.
  - intros im Ham. simpl in *. destruct (Him im Ham) as (? & ? & ?).
    repeat split; [assumption | assumption | congruence].
Qed.

(** A commit: the id [id], drawn as one of the objects, joins the items. *)
Lemma commit_ok (c : DrawingCanvas) (id : Z) (m : option DrawMode) (pts : list Q) :
  canvas_ok c -> image_apart c -> current_item c = Some id ->
  let c' := mkCanvas (image_item c) m pts None (items c ++ [id])
                     (tk_objects c) (tk_next c) in
  canvas_ok c' /\ image_apart c'.
Proof.
  intros ((Hn & Hfresh) & Hits & Hcur & Horph) Him Hi.
  destruct (Hcur id Hi) as [Hid Hnin]. split.
  - repeat split; simpl; try discriminate.
    + exact Hn.
    + exact Hfresh.
    + apply Forall_app. split; [exact Hits|]. apply Forall_singleton. lia.
    + intros p Hp. destruct (Horph p Hp) as [H|[H|H]]; [left; exact H | |].
      * right. left. apply elem_of_app. left. exact H.
      * right. left. apply elem_of_app. right. apply list_elem_of_singleton. congruence.
  - intros im Ham. simpl in *. destruct (Him im Ham) as (? & ? & Hne).
    repeat split; [assumption | | discriminate].
    intros Hin. apply elem_of_app in Hin as [Hin|Hin]; [contradiction|].
    apply list_elem_of_singleton in Hin. congruence.
Qed.

Lemma on_right_click_ok (c : DrawingCanvas) :
  canvas_ok c -> image_apart c ->
  canvas_ok (Canvas.on_right_click c).2 /\ image_apart (Canvas.on_right_click c).2.
Proof.
  intros Hok Him. unfold Canvas.on_right_click.
  destruct (current_item c) as [id|] eqn:Hi; [|split; assumption].
  destruct (mode_is (current_mode c) NONE); [split; assumption|].
  destruct (mode_is (current_mode c) POLY).
  - pose proof (clear_item_none c Hok) as Hnone.
    destruct (clear_item_ok c Hok Him) as [Hok' Him'].
    unfold Canvas.clear_item in Hnone, Hok', Him'. rewrite Hi in Hnone, Hok', Him'.
    destruct (Py.truthy (Some id)); [|congruence].
    destruct (new_draft_ok _ (current_points c) (ObjPolygon (current_points c))
                Hok' Him' eq_refl) as [Hok2 Him2].
    apply (commit_ok _ (tk_next c) None [] Hok2 Him2 eq_refl).
  - apply (commit_ok c id None [] Hok Him Hi).
Qed.

Lemma load_draw_ok (m : option DrawMode) (pts : list Q) (c : DrawingCanvas) :
  canvas_ok c -> image_apart c -> current_item c = None ->
  let c' := final (Canvas.load_draw m pts c) in
  canvas_ok c' /\ image_apart c' /\ current_item c' = None.
Proof.
  intros Hok Him Hnone. unfold Canvas.load_draw.
  assert (forall o,
            let c' := final ((let '(id, c0) := Canvas.tk_create o c in
                              let c1 := Canvas.with_draft (current_points c0) (Some id) c0 in
                              let c2 := Canvas.with_items (items c1 ++ [id]) c1 in
                              let c3 := Canvas.with_draft (current_points c2) None c2 in
                              Done (last (items c3)) c3) : Outcome DrawingCanvas (option Z)) in
            canvas_ok c' /\ image_apart c' /\ current_item c' = None) as Hfinish.
  { intros o.
    destruct (new_draft_ok c (current_points c) o Hok Him Hnone) as [Hok1 Him1].
    destruct (commit_ok _ (tk_next c) (current_mode c) (current_points c)
                Hok1 Him1 eq_refl) as [Hok2 Him2].
    split; [exact Hok2 | split; [exact Him2 | reflexivity]]. }
  destruct (mode_is m RECT && _); [apply Hfinish|].
  destruct (mode_is m POLY && _); [apply Hfinish|].
  destruct (mode_is m POINT); [|split; [exact Hok | split; [exact Him | exact Hnone]]].
  destruct (take 2 pts) as [|x [|y [|z l]]];
    try (split; [exact Hok | split; [exact Him | exact Hnone]]).
  apply Hfinish.
Qed.

Lemma delete_each (ids : list Z) (c : DrawingCanvas) :
  fold_left (fun c id => Canvas.tk_delete id c) ids c
  = mkCanvas (image_item c) (current_mode c) (current_points c) (current_item c)
             (items c) (filter (fun p => p.1 ∉ ids) (tk_objects c)) (tk_next c).
Proof.
  revert c. induction ids as [|i ids IH]; intros c.
  - simpl. rewrite filter_all; [destruct c; reflexivity|].
    apply Forall_forall. intros p _. apply not_elem_of_nil.
  - simpl. rewrite IH. simpl. rewrite list_filter_filter. f_equal.
    apply filter_on, Forall_forall. intros p _. rewrite not_elem_of_cons. tauto.
Qed.

(** [clear_all] keeps the image and nothing else. *)
Lemma clear_all_objects (c : DrawingCanvas) :
  canvas_ok c -> image_apart c ->
  Canvas.clear_all c
  = mkCanvas (image_item c) (current_mode c)
             (if Py.truthy (current_item c) then [] else current_points c)
             None [] (filter (fun p => image_item c = Some p.1) (tk_objects c))
             (tk_next c).
Proof.
  intros Hok Him. pose proof (clear_item_none c Hok) as Hnone.
  unfold Canvas.clear_all. cbv zeta. rewrite delete_each. unfold Canvas.with_items. simpl.
  rewrite Hnone. destruct Hok as (_ & _ & Hcur & Horph).
  unfold Canvas.clear_item in *. destruct (current_item c) as [id|] eqn:Hi.
  - destruct (Py.truthy (Some id)) eqn:Ht; [|rewrite Hi in Hnone; discriminate].
    simpl. f_equal. rewrite list_filter_filter.
    apply filter_on, Forall_forall. intros p Hp. split.
    + intros [Hnin Hne]. destruct (Horph p Hp) as [H|[H|H]]; [exact H | contradiction |].
      congruence.
    + intros H. destruct (Him _ H) as (_ & ? & ?). split; [assumption | congruence].
  - simpl. f_equal. apply filter_on, Forall_forall. intros p Hp. split.
    + intros Hnin. destruct (Horph p Hp) as [H|[H|H]]; [exact H | contradiction |].
      discriminate.
    + intros H. destruct (Him _ H) as (_ & ? & ?). assumption.
Qed.

Lemma clear_all_ok (c : DrawingCanvas) :
  canvas_ok c -> image_apart c ->
  canvas_ok (Canvas.clear_all c) /\ image_apart (Canvas.clear_all c)
  /\ current_item (Canvas.clear_all c) = None.
Proof.
  intros Hok Him. rewrite (clear_all_objects c Hok Him).
  destruct Hok as ((Hn & Hfresh) & Hits & Hcur & Horph).
  repeat split; simpl; try discriminate.
  - exact Hn.
  - apply Forall_forall. intros p Hp. apply list_elem_of_filter in Hp as [_ Hp].
    rewrite Forall_forall in Hfresh. apply Hfresh, Hp.
  - constructor.
  - intros p Hp. apply list_elem_of_filter in Hp as [Hp _]. left. exact Hp.
  - apply (Him _ H).
  - apply not_elem_of_nil.
Qed.

(** [display_image]: the canvas is emptied, then the image is drawn. *)
Lemma redraw_ok (offsets : option (Q * Q)) (c : DrawingCanvas) :
  1 <= tk_next c ->
  let c' := Canvas.load_image offsets (Canvas.reset c) in
  canvas_ok c' /\ image_apart c'.
Proof.
  intros Hn. unfold Canvas.load_image, Canvas.reset. simpl.
  destruct (default (0%Q, 0%Q) offsets) as [ox oy]. simpl. split.
  - repeat split; simpl; try discriminate.
    + lia.
    + apply Forall_singleton. simpl. lia.
    + constructor.
    + intros p Hp. apply list_elem_of_singleton in Hp as ->. left. reflexivity.
  - intros im [= <-]. simpl. repeat split; [lia | apply not_elem_of_nil | discriminate].
Qed.

(** ** The numbers of a draft *)

Ltac shaped_cases c :=
  destruct c as [im [[| | |]|] pts [id|] its objs nx];
  unfold draft_shaped, draft_consistent, Canvas.set_mode, Canvas.on_left_click,
    Canvas.on_drag, Canvas.reset, Canvas.load_image, Canvas.clear_item,
    Canvas.on_right_click, Canvas.tk_create, Canvas.tk_delete, Canvas.tk_coords,
    Canvas.tk_delete_all, Canvas.with_draft, Canvas.with_mode, Canvas.with_items,
    Py.truthy, mode_is;
  simpl; intros (Hnx & Hid & Hpts) Hsh;
  try (specialize (Hid _ eq_refl); apply Z.eqb_neq in Hid; rewrite ?Hid);
  simpl; intros; try congruence; try reflexivity; eauto.

Lemma no_draft_shaped (c : DrawingCanvas) : current_item c = None -> draft_shaped c.
Proof. intros H id. rewrite H. discriminate. Qed.

Lemma set_mode_shaped (m : DrawMode) (c : DrawingCanvas) :
  draft_consistent c -> draft_shaped c -> draft_shaped (Canvas.set_mode m c).
Proof. shaped_cases c. Qed.

Lemma clear_item_shaped (c : DrawingCanvas) :
  draft_consistent c -> draft_shaped c -> draft_shaped (Canvas.clear_item c).
Proof. shaped_cases c. Qed.

Lemma on_left_click_shaped (x y : Q) (c : DrawingCanvas) :
  draft_consistent c -> draft_shaped c -> draft_shaped (Canvas.on_left_click x y c).
Proof.
  intros Hc Hsh. unfold Canvas.on_left_click.
  destruct (mode_is (current_mode c) NONE); [exact Hsh|].
  destruct (clear_item_consistent c Hc) as [(_ & _ & Hpts) Hnone].
  specialize (Hpts Hnone). set (c1 := Canvas.clear_item c) in *.
  destruct (current_mode c1) as [[| | |]|] eqn:Hm; simpl;
    try (apply no_draft_shaped, Hnone);
    intros id _; simpl; rewrite Hm, ?Hpts; reflexivity.
Qed.

Lemma on_drag_shaped (x y : Q) (c : DrawingCanvas) :
  draft_consistent c -> draft_shaped c -> draft_shaped (Canvas.on_drag x y c).
Proof.
  shaped_cases c. specialize (Hsh _ eq_refl).
  rewrite length_app, length_take, Hsh. reflexivity.
Qed.

Lemma on_right_click_shaped (c : DrawingCanvas) :
  draft_consistent c -> draft_shaped c -> draft_shaped (Canvas.on_right_click c).2.
Proof. shaped_cases c. Qed.

Lemma redraw_shaped (offsets : option (Q * Q)) (c : DrawingCanvas) :
  draft_shaped (Canvas.load_image offsets (Canvas.reset c)).
Proof.
  unfold Canvas.load_image, Canvas.reset. simpl.
  destruct (default (0%Q, 0%Q) offsets) as [ox oy]. simpl. intros id. discriminate.
Qed.

(** ** The canvas of a session *)

Lemma set_mode_inv (m : DrawMode) (c : DrawingCanvas) :
  canvas_inv c -> canvas_inv (Canvas.set_mode m c).
Proof.
  intros (Hc & Hok & Him & Hsh). destruct (set_mode_ok m c Hok Him).
  split; [apply set_mode_consistent, Hc|]. split; [assumption|].
  split; [assumption|]. apply set_mode_shaped; assumption.
Qed.

Lemma clear_item_inv (c : DrawingCanvas) :
  canvas_inv c -> canvas_inv (Canvas.clear_item c).
Proof.
  intros (Hc & Hok & Him & Hsh). destruct (clear_item_ok c Hok Him).
  destruct (clear_item_consistent c Hc) as [Hc' Hnone].
  split; [exact Hc'|]. split; [assumption|]. split; [assumption|].
  apply no_draft_shaped, Hnone.
Qed.

Lemma clear_all_inv (c : DrawingCanvas) :
  canvas_inv c ->
  canvas_inv (Canvas.clear_all c) /\ current_item (Canvas.clear_all c) = None.
Proof.
  intros (Hc & Hok & Him & Hsh). destruct (clear_all_ok c Hok Him) as (? & ? & Hnone).
  destruct (clear_all_consistent c Hc) as [Hc' _].
  split; [|exact Hnone].
  split; [exact Hc'|]. split; [assumption|]. split; [assumption|].
  apply no_draft_shaped, Hnone.
Qed.

Lemma on_left_click_inv (x y : Q) (c : DrawingCanvas) :
  canvas_inv c -> canvas_inv (Canvas.on_left_click x y c).
Proof.
  intros (Hc & Hok & Him & Hsh). destruct (on_left_click_ok x y c Hok Him).
  split; [apply on_left_click_consistent, Hc|]. split; [assumption|].
  split; [assumption|]. apply on_left_click_shaped; assumption.
Qed.

Lemma on_drag_inv (x y : Q) (c : DrawingCanvas) :
  canvas_inv c -> canvas_inv (Canvas.on_drag x y c).
Proof.
  intros (Hc & Hok & Him & Hsh). destruct (on_drag_ok x y c Hok Him).
  split; [apply on_drag_consistent, Hc|]. split; [assumption|].
  split; [assumption|]. apply on_drag_shaped; assumption.
Qed.

Lemma on_right_click_inv (c : DrawingCanvas) :
  canvas_inv c -> canvas_inv (Canvas.on_right_click c).2.
Proof.
  intros (Hc & Hok & Him & Hsh). destruct (on_right_click_ok c Hok Him).
  split; [apply on_right_click_consistent, Hc|]. split; [assumption|].
  split; [assumption|]. apply on_right_click_shaped; assumption.
Qed.

Lemma load_draw_inv (m : option DrawMode) (pts : list Q) (c : DrawingCanvas) :
  canvas_inv c /\ current_item c = None ->
  let c' := final (Canvas.load_draw m pts c) in
  canvas_inv c' /\ current_item c' = None.
Proof.
  intros [(Hc & Hok & Him & Hsh) Hnone].
  destruct (load_draw_ok m pts c Hok Him Hnone) as (? & ? & Hnone').
  destruct (load_draw_consistent m pts c (conj Hc Hnone)) as [Hc' _].
  split; [|exact Hnone'].
  split; [exact Hc'|]. split; [assumption|]. split; [assumption|].
  apply no_draft_shaped, Hnone'.
Qed.

Lemma canvas_do_inv (f : DrawingCanvas -> DrawingCanvas) :
  (forall c, canvas_inv c -> canvas_inv (f c)) ->
  stable (fun a => canvas_inv (drawing_canvas a)) (canvas_do f).
Proof. intros Hf s Hs. unfold canvas_do, modify, final. simpl. apply Hf, Hs. Qed.

Lemma display_image_inv :
  stable (fun a => canvas_inv (drawing_canvas a)) display_image.
Proof.
  intros s Hs. unfold display_image. cbv [mbind M_bind bind gets].
  destruct (geometry s) as [g|]; [|exact Hs].
  unfold canvas_do, modify, final. simpl.
  destruct Hs as (Hc & _).
  destruct (redraw_ok (Some (x_offset g, y_offset g)) (drawing_canvas s)) as [Hok Him];
    [apply Hc|].
  split; [apply load_image_consistent, reset_consistent, Hc|].
  split; [exact Hok|]. split; [exact Him|]. apply redraw_shaped.
Qed.

Lemma fit_window_inv :
  stable (fun a => canvas_inv (drawing_canvas a)) fit_window.
Proof.
  unfold fit_window. stable_auto; first [apply display_image_inv | stable_frame].
Qed.

Lemma zoom_inv (pos : option (Q * Q)) (scale_up : Z) :
  stable (fun a => canvas_inv (drawing_canvas a)) (zoom pos scale_up).
Proof.
  unfold zoom. stable_auto; first [apply display_image_inv | stable_frame].
Qed.

Lemma load_items_inv (data : list JItem) :
  stable (fun a => canvas_inv (drawing_canvas a)) (load_items data).
Proof.
  induction data as [|item data IH]; simpl; [apply stable_ret|].
  stable_auto; try exact IH; stable_frame.
Qed.

Lemma show_refs_inv (refs : list VisualAnnotation) :
  stable (fun a => canvas_inv (drawing_canvas a)
                   /\ current_item (drawing_canvas a) = None)
         (show_refs refs).
Proof.
  induction refs as [|r refs IH]; simpl; [apply stable_ret|].
  apply stable_bind; [unfold screen_points; stable_frame|]. intros pts.
  apply stable_bind; [|intros id; apply stable_bind; [|intros _; exact IH]].
  - intros s Hs. unfold canvas, lift.
    pose proof (load_draw_inv (mode r) pts (drawing_canvas s) Hs) as H.
    destruct (Canvas.load_draw (mode r) pts (drawing_canvas s)); exact H.
  - apply stable_modify. intros s Hs. exact Hs.
Qed.

Lemma show_qa_pair_inv (index : Z) :
  stable (fun a => canvas_inv (drawing_canvas a)) (show_qa_pair index).
Proof.
  intros s Hs. unfold show_qa_pair. cbv [mbind M_bind bind get].
  destruct (_ || _); [exact Hs|]. cbv [canvas_do modify].
  destruct (clear_all_inv (drawing_canvas s) Hs) as [Hc Hnone].
  destruct (py_index _ _) as [ann|]; [|exact Hc].
  destruct (visual_refs ann) as [refs|]; [|exact Hc].
  apply (show_refs_inv refs). split; [exact Hc | exact Hnone].
Qed.

Lemma handle_inv (ev : Event) :
  stable (fun a => canvas_inv (drawing_canvas a)) (handle ev).
Proof.
  destruct ev; simpl;
    unfold open_images_folder, save_annotations, on_image_selected, jump2image,
      load_current_image, load_existing_annotations, reset_zoom, on_mousewheel,
      button_mode, button_clear_current, button_clear_all, left_click, drag,
      on_draw_finished, on_click_query_entry, on_click_anwser_entry,
      type_question, type_answer, add_qa_pair, edit_qa_pair,
      delete_qa_pair, clear_qa_pairs, update_qa_list, update_image_list,
      write_annotations, image_points, messagebox, status, mutate;
    stable_auto.
  all: first
    [ apply fit_window_inv | apply zoom_inv
    | apply load_items_inv | apply show_qa_pair_inv
    | apply canvas_do_inv; intros c Hc;
      first [ apply set_mode_inv, Hc | apply clear_item_inv, Hc
            | apply clear_all_inv, Hc | apply on_left_click_inv, Hc
            | apply on_drag_inv, Hc ]
    | stable_frame
    | intros s Hs; unfold canvas, lift;
      pose proof (on_right_click_inv (drawing_canvas s) Hs) as H;
      destruct (Canvas.on_right_click (drawing_canvas s)); exact H ].
Qed.

Lemma reachable_canvas_inv (a : ImageQAAnnotator) :
  reachable a -> canvas_inv (drawing_canvas a).
Proof.
  apply (reachable_stable (fun a => canvas_inv (drawing_canvas a)));
    [|apply handle_inv].
  intros d size. unfold canvas_inv, draft_consistent, canvas_ok, ids_fresh,
    image_apart, draft_shaped. simpl.
  repeat split; try lia; try congruence; try constructor.
  all: intros; try congruence.
  all: match goal with H : _ ∈ [] |- _ => apply elem_of_nil in H; contradiction end.
Qed.

Example example_drafting_reachable : reachable example_drafting.
Proof. unfold example_drafting, example_session. reachable_example. Qed.

Example example_rectangle_draft_reachable : reachable example_rectangle_draft.
Proof. unfold example_rectangle_draft, example_session. reachable_example. Qed.

(** X4. "Clear all" leaves the image and nothing else: in every session
    that the window can reach, after the button the canvas shows exactly
    the image object it showed before, no shape is committed, there is no
    draft, and no region is staged for the next pair. *)
Theorem clear_all_leaves_only_image (a : ImageQAAnnotator) :
  reachable a ->
  let c := drawing_canvas a in
  let a' := after a [EvClearAll] in
  tk_objects (drawing_canvas a')
  = filter (fun p => image_item c = Some p.1) (tk_objects c) /\
  items (drawing_canvas a') = [] /\ current_item (drawing_canvas a') = None /\
  image_item (drawing_canvas a') = image_item c /\
  current_draw_info a' = [].
Proof.
  intros Hr. destruct (reachable_canvas_inv a Hr) as (_ & Hok & Him & _).
  unfold after, run. cbn [map fold_left handle].
  unfold step, button_clear_all, canvas_do, status, modify, final.
  cbv [mbind M_bind bind]. rewrite (clear_all_objects _ Hok Him). repeat split.
Qed.

Lemma clear_all_leaves_only_image_witness :
  let c := drawing_canvas example_drafting in
  let a' := after example_drafting [EvClearAll] in
  tk_objects (drawing_canvas a')
  = filter (fun p => image_item c = Some p.1) (tk_objects c) /\
  items (drawing_canvas a') = [] /\ current_item (drawing_canvas a') = None /\
  image_item (drawing_canvas a') = image_item c /\
  current_draw_info a' = [].
Proof.
  apply (clear_all_leaves_only_image example_drafting).
  apply example_drafting_reachable.
Defined.

(** ** Committed shapes *)

Lemma shape_objects_delete (c : DrawingCanvas) (id : Z) (l : list (Z * CanvasObj))
    (its : list Z) :
  id ∉ its ->
  filter (fun p => p.1 ∈ its) (filter (fun p => p.1 <> id) l)
  = filter (fun p => p.1 ∈ its) l.
Proof.
  intros Hnin. rewrite list_filter_filter. apply filter_on, Forall_forall.
  intros p _. split; [tauto|]. intros Hp. split; [exact Hp|]. congruence.
Qed.

Lemma clear_item_spares (c : DrawingCanvas) :
  canvas_ok c ->
  shape_objects (Canvas.clear_item c) = shape_objects c /\
  items (Canvas.clear_item c) = items c.
Proof.
  intros (_ & _ & Hcur & _). unfold Canvas.clear_item, shape_objects.
  destruct (current_item c) as [id|] eqn:Hi; [|split; reflexivity].
  destruct (Py.truthy (Some id)); [|split; reflexivity]. simpl.
  split; [|reflexivity]. apply (shape_objects_delete c). apply (Hcur id eq_refl).
Qed.

Lemma set_mode_spares (m : DrawMode) (c : DrawingCanvas) :
  canvas_ok c ->
  shape_objects (Canvas.set_mode m c) = shape_objects c /\
  items (Canvas.set_mode m c) = items c.
Proof.
  intros Hok. unfold Canvas.set_mode. cbv zeta.
  apply (clear_item_spares (Canvas.with_draft [] (current_item c)
                              (Canvas.with_mode (Some m) c))).
  exact Hok.
Qed.

Lemma new_draft_spares (c : DrawingCanvas) (o : CanvasObj) :
  canvas_ok c ->
  filter (fun p => p.1 ∈ items c) (tk_objects c ++ [(tk_next c, o)])
  = filter (fun p => p.1 ∈ items c) (tk_objects c).
Proof.
  intros (_ & Hits & _). rewrite filter_app, filter_cons_False, filter_nil, app_nil_r;
    [reflexivity|].
  simpl. intros Hin. rewrite Forall_forall in Hits. specialize (Hits _ Hin). lia.
Qed.

Lemma on_left_click_spares (x y : Q) (c : DrawingCanvas) :
  canvas_ok c -> image_apart c ->
  shape_objects (Canvas.on_left_click x y c) = shape_objects c /\
  items (Canvas.on_left_click x y c) = items c.
Proof.
  intros Hok Him. unfold Canvas.on_left_click.
  destruct (mode_is (current_mode c) NONE); [split; reflexivity|].
  destruct (clear_item_spares c Hok) as [Hsp Hit].
  destruct (clear_item_ok c Hok Him) as [Hok' _].
  set (c1 := Canvas.clear_item c) in *. rewrite <- Hsp, <- Hit.
  destruct (mode_is (current_mode c1) RECT);
    [split; [apply (new_draft_spares c1 _ Hok') | reflexivity]|].
  destruct (mode_is (current_mode c1) POLY);
    [split; [apply (new_draft_spares c1 _ Hok') | reflexivity]|].
  destruct (mode_is (current_mode c1) POINT);
    [split; [apply (new_draft_spares c1 _ Hok') | reflexivity]|].
  split; reflexivity.
Qed.

Lemma tk_coords_spares (id : Z) (pts : list Q) (its : list Z) (l : list (Z * CanvasObj)) :
  id ∉ its ->
  filter (fun p => p.1 ∈ its)
         (map (fun p => if decide (p.1 = id) then (p.1, Canvas.set_pts pts p.2) else p) l)
  = filter (fun p => p.1 ∈ its) l.
Proof.
  intros Hnin. induction l as [|p l IH]; [reflexivity|]. simpl.
  destruct (decide (p.1 = id)) as [He|Hne].
  - rewrite !filter_cons_False; [exact IH | |]; simpl; congruence.
  - destruct (decide (p.1 ∈ its)).
    + rewrite !filter_cons_True by assumption. rewrite IH. reflexivity.
    + rewrite !filter_cons_False by assumption. exact IH.
Qed.

Lemma on_drag_spares (x y : Q) (c : DrawingCanvas) :
  canvas_ok c ->
  shape_objects (Canvas.on_drag x y c) = shape_objects c /\
  items (Canvas.on_drag x y c) = items c.
Proof.
  intros (_ & _ & Hcur & _). unfold Canvas.on_drag, shape_objects.
  destruct (current_item c) as [id|] eqn:Hi; [|split; reflexivity].
  destruct (_ && _); [|split; reflexivity]. simpl.
  split; [|reflexivity]. apply tk_coords_spares, (Hcur id eq_refl).
Qed.

(** X5. Work on the draft never touches a committed shape: in every
    session that the window can reach, a mode button, "clear current", a
    press and a drag leave the committed shapes exactly as they are drawn,
    and their ids as they are. *)
Theorem draft_events_spare_committed_shapes (a : ImageQAAnnotator) (ev : Event) :
  reachable a -> draft_event ev = true ->
  shape_objects (drawing_canvas (after a [ev])) = shape_objects (drawing_canvas a) /\
  items (drawing_canvas (after a [ev])) = items (drawing_canvas a).
Proof.
  intros Hr Hev. destruct (reachable_canvas_inv a Hr) as (_ & Hok & Him & _).
  destruct ev; try discriminate Hev; unfold after; simpl;
    unfold step, button_mode, button_clear_current, left_click, drag,
      canvas_do, status, modify, final; simpl.
  - apply set_mode_spares, Hok.
  - apply clear_item_spares, Hok.
  - apply on_left_click_spares; assumption.
  - apply on_drag_spares, Hok.
Qed.

Lemma draft_events_spare_committed_shapes_witness :
  shape_objects (drawing_canvas (after example_drafting [EvClearCurrent]))
  = shape_objects (drawing_canvas example_drafting) /\
  items (drawing_canvas (after example_drafting [EvClearCurrent]))
  = items (drawing_canvas example_drafting).
Proof.
  apply (draft_events_spare_committed_shapes example_drafting EvClearCurrent).
  - apply example_drafting_reachable.
  - reflexivity.
Defined.

(** What [load_draw] does with a shape, by its numbers. *)
Lemma load_draw_drawable (m : option DrawMode) (pts : list Q) (c : DrawingCanvas) :
  draws m pts c = drawable m pts.
Proof.
  unfold draws, drawable, Canvas.load_draw.
  destruct m as [[| | |]|]; simpl; try reflexivity.
  - destruct (bool_decide (length pts = 4%nat)); simpl; rewrite ?last_snoc; reflexivity.
  - destruct (bool_decide (6 <= length pts)%nat); simpl; rewrite ?last_snoc; reflexivity.
  - destruct pts as [|x [|y pts]]; simpl; rewrite ?last_snoc; reflexivity.
Qed.

(** X6. What the canvas commits and what it can draw again: in every
    session that the window can reach, a shape handed out by the right
    click is a rectangle, a polygon or a point; [load_draw] draws the
    rectangles and the points again, on any canvas, and none of the
    polygons. *)
Theorem committed_shapes_drawn_again (a : ImageQAAnnotator) (r : Canvas.Finished)
    (c' c2 : DrawingCanvas) :
  reachable a ->
  Canvas.on_right_click (drawing_canvas a) = (Some r, c') ->
  (Canvas.f_mode r = Some RECT \/ Canvas.f_mode r = Some POLY
   \/ Canvas.f_mode r = Some POINT) /\
  draws (Canvas.f_mode r) (Canvas.f_points r) c2
  = negb (mode_is (Canvas.f_mode r) POLY).
Proof.
  intros Hr. destruct (reachable_canvas_inv a Hr) as (_ & _ & _ & Hsh).
  pose proof (reachable_modes_typed a Hr) as (Hm & _).
  rewrite load_draw_drawable. unfold Canvas.on_right_click, draft_shaped, draft_has_mode in *.
  destruct (current_item (drawing_canvas a)) as [id|]; [|discriminate].
  specialize (Hsh id eq_refl). destruct Hm as [m Hm]; [discriminate|].
  rewrite Hm in *. destruct m; simpl; try discriminate; intros [= <- _]; simpl;
    unfold drawable; simpl; rewrite Hsh, Hm; simpl; auto.
Qed.

Lemma committed_shapes_drawn_again_witness :
  (Some RECT = Some RECT \/ Some RECT = Some POLY \/ Some RECT = Some POINT) /\
  draws (Some RECT) [10; 10; 50; 80]%Q Canvas.init = negb (mode_is (Some RECT) POLY).
Proof.
  apply (committed_shapes_drawn_again example_rectangle_draft
           (Canvas.mkFinished (Some RECT) [10; 10; 50; 80]%Q 2)
           (Canvas.on_right_click (drawing_canvas example_rectangle_draft)).2
           Canvas.init).
  - apply example_rectangle_draft_reachable.
  - vm_compute. reflexivity.
Defined.

Lemma remove_first_absent (x : Z) (l : list Z) : x ∉ l -> Py.remove_first x l = l.
Proof.
  induction l as [|y l IH]; [reflexivity|]. intros Hnin.
  apply not_elem_of_cons in Hnin as [Hne Hnin]. simpl.
  destruct (Z.eqb_spec x y) as [?|_]; [contradiction|]. rewrite IH by exact Hnin.
  reflexivity.
Qed.

Lemma remove_first_NoDup (x : Z) (l : list Z) :
  NoDup l -> Py.remove_first x l = filter (fun y => y <> x) l.
Proof.
  induction 1 as [|y l Hnin Hnd IH]; [reflexivity|]. simpl.
  destruct (Z.eqb_spec x y) as [->|Hne].
  - rewrite filter_cons_False by congruence. rewrite filter_all; [reflexivity|].
    apply Forall_forall. intros z Hz ->. contradiction.
  - rewrite filter_cons_True by congruence. rewrite IH. reflexivity.
Qed.

(** X7. [delete_item] answers whether the id is a committed shape; when
    it is, and the committed ids are distinct, the id leaves the
    committed ids, its object leaves the canvas and nothing else changes;
    when it is not, nothing changes at all. *)
Theorem delete_item_removes_shape (id : Z) (c : DrawingCanvas) :
  NoDup (items c) ->
  let r := Canvas.delete_item id c in
  r.1 = bool_decide (id ∈ items c) /\
  (id ∉ items c -> r.2 = c) /\
  (id ∈ items c ->
   r.2 = mkCanvas (image_item c) (current_mode c) (current_points c) (current_item c)
                  (filter (fun i => i <> id) (items c))
                  (filter (fun p => p.1 <> id) (tk_objects c)) (tk_next c)).
Proof.
  intros Hnd. unfold Canvas.delete_item.
  destruct (bool_decide_reflect (id ∈ items c)) as [Hin|Hnin]; simpl.
  - split; [reflexivity|]. split; [contradiction|]. intros _.
    unfold Canvas.tk_delete, Canvas.with_items. simpl.
    rewrite (remove_first_NoDup id _ Hnd). reflexivity.
  - split; [reflexivity|]. split; [reflexivity | contradiction].
Qed.

Lemma delete_item_removes_shape_witness :
  let r := Canvas.delete_item 2 example_canvas in
  r.1 = bool_decide (2 ∈ items example_canvas) /\
  (2 ∉ items example_canvas -> r.2 = example_canvas) /\
  (2 ∈ items example_canvas ->
   r.2 = mkCanvas (image_item example_canvas) (current_mode example_canvas)
                  (current_points example_canvas) (current_item example_canvas)
                  (filter (fun i => i <> 2) (items example_canvas))
                  (filter (fun p => p.1 <> 2) (tk_objects example_canvas))
                  (tk_next example_canvas)).
Proof.
  apply (delete_item_removes_shape 2 example_canvas).
  vm_compute. repeat constructor; intros H; inversion H.
Defined.

(** * More of the viewport *)




Lemma int_times_one (n : Z) : Py.int (inject_Z n * 1) = n.
Proof. unfold Py.int. simpl. rewrite Z.mul_1_r. apply Z.quot_1_r. Qed.

Lemma truediv_nonzero (x y : Q) (a : ImageQAAnnotator) :
  ~ (y == 0)%Q -> truediv x y a = Done (Qred (x / y)) a.
Proof.
  intros Hy. unfold truediv. destruct (Qeq_bool y 0) eqn:E; [|reflexivity].
  apply Qeq_bool_iff in E. contradiction.
Qed.

Lemma py_min_le (x y : Q) : (py_min x y <= x)%Q /\ (py_min x y <= y)%Q.
Proof.
  unfold py_min, Qltb. destruct (Qle_bool x y) eqn:E; simpl.
  - apply Qle_bool_iff in E. split; lra.
  - assert (~ (x <= y)%Q) as H by (rewrite <- Qle_bool_iff; congruence). split; lra.
Qed.

Lemma py_min_cases (x y : Q) : py_min x y = x \/ py_min x y = y.
Proof. unfold py_min. destruct (Qltb y x); auto. Qed.





Lemma inject_Z_nonzero (n : Z) : n <> 0 -> ~ (inject_Z n == 0)%Q.
Proof. intros H. change 0%Q with (inject_Z 0). rewrite inject_Z_injective. exact H. Qed.



(** X10. "Actual size" shows the image at its own size: with an image on
    the canvas, after the button the zoom factor is 1, the label reads
    100 percent, and the displayed width and height are those of the
    image file. *)
Theorem reset_zoom_actual_size (a : ImageQAAnnotator) (iw ih : Z) (g : Geometry) :
  current_original_image a = Some (iw, ih) -> geometry a = Some g ->
  current_img_width g <> 0 -> current_img_height g <> 0 ->
  let a' := after a [EvResetZoom] in
  zoom_factor a' = 1%Q /\ zoom_label a' = LabelPercent 100 /\
  exists g', geometry a' = Some g' /\
    current_img_width g' = iw /\ current_img_height g' = ih.
Proof.
  intros Himg Hg Hw Hh.
  unfold after, run. cbn [map fold_left handle]. unfold step, reset_zoom, zoom.
  cbv [mbind M_bind bind gets modify].
  rewrite Himg; cbn [default]; destruct (canvas_size a) as [cw ch].
  cbn -[Qabs Qlt Qminus Qmult Qdiv Qplus Qred Py.int inject_Z py_min py_max].
  rewrite Hg.
  rewrite (truediv_nonzero _ _ _ (inject_Z_nonzero _ Hw)),
    (truediv_nonzero _ _ _ (inject_Z_nonzero _ Hh)).
  cbn -[Qabs Qlt Qminus Qmult Qdiv Qplus Qred Py.int inject_Z py_min py_max].
  split; [reflexivity|]. split; [reflexivity|].
  eexists. split; [reflexivity|].
  cbn [current_img_width current_img_height]. split; apply int_times_one.
Qed.

Lemma reset_zoom_actual_size_witness :
  let a' := after example_session [EvResetZoom] in
  zoom_factor a' = 1%Q /\ zoom_label a' = LabelPercent 100 /\
  exists g', geometry a' = Some g' /\
    current_img_width g' = 400 /\ current_img_height g' = 300.
Proof.
  apply (reset_zoom_actual_size example_session 400 300 (mkGeometry 0 0 800 600));
    vm_compute; first [reflexivity | discriminate].
Defined.



Lemma display_image_done (a a' : ImageQAAnnotator) :
  display_image a = Done tt a' ->
  exists g, geometry a = Some g /\
    a' = set_drawing_canvas
           (Canvas.load_image (Some (x_offset g, y_offset g))
              (Canvas.reset (drawing_canvas a))) a.
Proof.
  unfold display_image. cbv [mbind M_bind bind gets canvas_do modify].
  destruct (geometry a) as [g|]; [|discriminate].
  intros [= <-]. exists g. split; reflexivity.
Qed.

(** X11. Redrawing the image wipes the drawings but not the record of
    them: when a zoom button or the wheel redraws the image, the canvas
    afterwards shows the image alone, with no committed shape, no draft
    and the drawing mode switched off, while the regions staged for the
    next pair are all still staged. *)
Theorem viewport_events_wipe_drawings (a a' : ImageQAAnnotator) (ev : Event) :
  viewport_event ev = true -> is_Some (current_original_image a) ->
  handle ev a = Done tt a' ->
  current_draw_info a' = current_draw_info a /\
  items (drawing_canvas a') = [] /\ current_item (drawing_canvas a') = None /\
  current_mode (drawing_canvas a') = Some NONE /\
  exists xo yo, tk_objects (drawing_canvas a')
                = [(tk_next (drawing_canvas a), ObjImage xo yo)].
Proof.
  intros Hev [[iw ih] Himg].
  assert (forall pos s, zoom pos s a = Done tt a' ->
            current_draw_info a' = current_draw_info a /\
            items (drawing_canvas a') = [] /\ current_item (drawing_canvas a') = None /\
            current_mode (drawing_canvas a') = Some NONE /\
            exists xo yo, tk_objects (drawing_canvas a')
                          = [(tk_next (drawing_canvas a), ObjImage xo yo)]) as Hzoom.
  { intros pos s. unfold zoom. cbv [mbind M_bind bind gets modify]. rewrite Himg.
    destruct (canvas_size a) as [cw ch]. destruct (default _ pos) as [x y].
    match goal with |- context [geometry ?st] =>
      replace (geometry st) with (geometry a)
        by (destruct (s =? 0); [|destruct (0 <? s)]; reflexivity) end.
    destruct (geometry a) as [g|]; [|discriminate].
    unfold truediv. cbv [mret M_ret ret raise].
    destruct (Qeq_bool (inject_Z (current_img_width g)) 0); [discriminate|].
    destruct (Qeq_bool (inject_Z (current_img_height g)) 0); [discriminate|].
    intros H. apply display_image_done in H as (g' & _ & ->).
    destruct (s =? 0); [|destruct (0 <? s)]; simpl; repeat split; eauto. }
  destruct ev; try discriminate Hev; simpl.
  - unfold fit_window. cbv [mbind M_bind bind gets modify]. rewrite Himg.
    cbn [canvas_size set_fit_to_window]. destruct (canvas_size a) as [cw ch].
    unfold truediv. cbv [mret M_ret ret raise].
    destruct (Qeq_bool (inject_Z iw) 0); [discriminate|].
    destruct (Qeq_bool (inject_Z ih) 0); [discriminate|].
    match goal with |- context [display_image ?st] =>
      destruct (display_image st) as [[] s'|e s'] eqn:Hd; [|discriminate] end.
    intros [= <-]. apply display_image_done in Hd as (g' & _ & ->).
    destruct (Qltb _ _); simpl; repeat split; eauto.
  - apply Hzoom.
  - unfold on_mousewheel. destruct (_ || _); apply Hzoom.
Qed.

Lemma viewport_events_wipe_drawings_witness :
  let a' := after example_staged [EvMouseWheel 100 50 120 0] in
  current_draw_info a' = current_draw_info example_staged /\
  items (drawing_canvas a') = [] /\ current_item (drawing_canvas a') = None /\
  current_mode (drawing_canvas a') = Some NONE /\
  exists xo yo, tk_objects (drawing_canvas a')
                = [(tk_next (drawing_canvas example_staged), ObjImage xo yo)].
Proof.
  apply (viewport_events_wipe_drawings example_staged _ (EvMouseWheel 100 50 120 0)).
  - reflexivity.
  - vm_compute. eexists. reflexivity.
  - vm_compute. reflexivity.
Defined.

(** The zoom factor that [zoom] leaves, whether or not it goes on to
    redraw. *)
Lemma zoom_sets_factor (pos : option (Q * Q)) (s : Z) (a : ImageQAAnnotator) :
  is_Some (current_original_image a) ->
  zoom_factor (final (zoom pos s a))
  = if s =? 0 then 1%Q
    else if 0 <? s then py_min (Qred (zoom_factor a * (11 # 10))) (max_zoom a)
         else py_max (Qred (zoom_factor a / (11 # 10))) (min_zoom a).
Proof.
  intros [[iw ih] Himg]. unfold zoom. cbv [mbind M_bind bind gets modify].
  rewrite Himg. destruct (canvas_size a) as [cw ch]. destruct (default _ pos) as [x y].
  match goal with |- context [geometry ?st] =>
    replace (geometry st) with (geometry a)
      by (destruct (s =? 0); [|destruct (0 <? s)]; reflexivity) end.
  destruct (geometry a) as [g|];
    [|destruct (s =? 0); [|destruct (0 <? s)]; reflexivity].
  unfold truediv. cbv [mret M_ret ret raise].
  destruct (Qeq_bool (inject_Z (current_img_width g)) 0);
    [destruct (s =? 0); [|destruct (0 <? s)]; reflexivity|].
  destruct (Qeq_bool (inject_Z (current_img_height g)) 0);
    [destruct (s =? 0); [|destruct (0 <? s)]; reflexivity|].
  unfold display_image. cbv [mbind M_bind bind gets canvas_do modify].
  destruct (s =? 0); [|destruct (0 <? s)]; reflexivity.
Qed.

Lemma py_max_ge (x y : Q) : (x <= py_max x y)%Q /\ (y <= py_max x y)%Q.
Proof.
  unfold py_max, Qltb. destruct (Qle_bool y x) eqn:E; simpl.
  - apply Qle_bool_iff in E. split; lra.
  - assert (~ (y <= x)%Q) as H by (rewrite <- Qle_bool_iff; congruence). split; lra.
Qed.

Lemma py_max_cases (x y : Q) : py_max x y = x \/ py_max x y = y.
Proof. unfold py_max. destruct (Qltb x y); auto. Qed.

(** X12. The wheel zooms in steps of a tenth and stops at the limits:
    with an image loaded and a positive zoom factor inside the limits,
    a turn up (a positive [delta], or button 4) leaves a factor between
    the old one and the largest zoom, and a greater one unless the old
    one was the largest; any other turn leaves a factor between the
    smallest zoom and the old one, and a smaller one unless the old one
    was the smallest. *)
Theorem wheel_zooms_within_limits (a : ImageQAAnnotator) (x y : Q) (delta num : Z) :
  is_Some (current_original_image a) ->
  (0 < zoom_factor a)%Q ->
  (min_zoom a <= zoom_factor a)%Q -> (zoom_factor a <= max_zoom a)%Q ->
  let z := zoom_factor a in
  let z' := zoom_factor (after a [EvMouseWheel x y delta num]) in
  if (0 <? delta) || (num =? 4)
  then (z <= z')%Q /\ (z' <= max_zoom a)%Q /\ ((z < max_zoom a)%Q -> (z < z')%Q)
  else (min_zoom a <= z')%Q /\ (z' <= z)%Q /\ ((min_zoom a < z)%Q -> (z' < z)%Q).
Proof.
  intros Himg Hpos Hmin Hmax. unfold after, run. cbn [map fold_left handle].
  unfold step, on_mousewheel. destruct (_ || _); rewrite (zoom_sets_factor _ _ _ Himg).
  - change (1 =? 0) with false. change (0 <? 1) with true. cbv iota.
    destruct (py_min_le (Qred (zoom_factor a * (11 # 10))) (max_zoom a)) as [H1 H2].
    destruct (py_min_cases (Qred (zoom_factor a * (11 # 10))) (max_zoom a)) as [E|E];
      rewrite E in *; rewrite ?Qred_correct in *; repeat split; try lra.
  - change (-1 =? 0) with false. change (0 <? -1) with false. cbv iota.
    destruct (py_max_ge (Qred (zoom_factor a / (11 # 10))) (min_zoom a)) as [H1 H2].
    assert (zoom_factor a / (11 # 10) == zoom_factor a * (10 # 11))%Q as Hdiv
      by (unfold Qdiv; reflexivity).
    destruct (py_max_cases (Qred (zoom_factor a / (11 # 10))) (min_zoom a)) as [E|E];
      rewrite E in *; rewrite ?Qred_correct in *; rewrite ?Hdiv in *;
      repeat split; try lra.
Qed.

Lemma wheel_zooms_within_limits_witness :
  let z := zoom_factor example_session in
  let z' := zoom_factor (after example_session [EvMouseWheel 100 50 120 0]) in
  (z <= z')%Q /\ (z' <= max_zoom example_session)%Q /\
  ((z < max_zoom example_session)%Q -> (z < z')%Q).
Proof.
  apply (wheel_zooms_within_limits example_session 100 50 120 0).
  - vm_compute. eexists. reflexivity.
  - vm_compute. reflexivity.
  - vm_compute. discriminate.
  - vm_compute. discriminate.
Defined.

(** * More of the session *)

(** ** Folders *)

Lemma dict_set_mono {V} (k k' : string) (v : V) (d : list (string * V)) :
  k ∈ d.*1 -> k ∈ (Dict.set k' v d).*1.
Proof.
  intros H. destruct (decide (k' ∈ d.*1)) as [Hin|Hout].
  - rewrite (dict_set_keys k' v d Hin). exact H.
  - rewrite (dict_set_fresh k' v d Hout), fmap_app. apply elem_of_app. left. exact H.
Qed.

Section Keeps.
Context (k : string).
Let P (a : ImageQAAnnotator) : Prop := k ∈ (all_annotations a).*1.

Lemma load_items_keeps (data : list JItem) : stable P (load_items data).
Proof.
  induction data as [|item data IH]; simpl; [apply stable_ret|].
  unfold alloc. stable_auto; try exact IH.
  - intros s Hs. exact Hs.
  - intros s Hs. unfold P in *. simpl. apply dict_set_mono, Hs.
Qed.

Lemma show_refs_keeps (refs : list VisualAnnotation) : stable P (show_refs refs).
Proof.
  induction refs as [|r refs IH]; simpl; [apply stable_ret|].
  unfold_handlers. stable_auto; try exact IH.
  all: stable_frame.
Qed.

Lemma handle_keeps (ev : Event) : ev <> EvSave -> stable P (handle ev).
Proof.
  intros Hev. destruct ev; try contradiction; simpl.
  all: unfold_handlers; unfold fit_window, zoom, display_image, canvas_do.
  all: stable_auto.
  all: first [ apply load_items_keeps | apply show_refs_keeps | stable_frame ].
Qed.
End Keeps.

(** X13. Annotations are never dropped from memory, except by saving: an
    image name that has an entry in [all_annotations] still has one after
    any event but "save".  Opening another folder in particular keeps the
    entries of the folder before. *)
Theorem entries_outlive_folders (a : ImageQAAnnotator) (ev : Event) (k : string) :
  ev <> EvSave -> k ∈ (all_annotations a).*1 ->
  k ∈ (all_annotations (after a [ev])).*1.
Proof. intros Hev Hk. apply (handle_keeps k ev Hev a Hk). Qed.

Lemma entries_outlive_folders_witness :
  "a.png" ∈ (all_annotations
               (after example_saved_two_folders [EvOpenFolder "empty"])).*1.
Proof.
  apply (entries_outlive_folders example_saved_two_folders (EvOpenFolder "empty") "a.png").
  - discriminate.
  - vm_compute. left.
Defined.

Lemma py_index_nil {A} (i : Z) : py_index (@nil A) i = None.
Proof.
  unfold py_index. destruct (0 <=? i); [reflexivity|].
  destruct (_ <=? i); reflexivity.
Qed.

(** X14. A folder without images empties the image list and stops there:
    the folder becomes the working folder, the list of image files
    becomes empty, a warning is shown, and nothing else happens (the
    image on the canvas, the conversation and the index stay).  Saving
    then fails with an [IndexError] that no dialog reports, and leaves
    everything as it is. *)
Theorem save_after_empty_folder_raises (a : ImageQAAnnotator) (folder : string) :
  Py.is_empty folder = false ->
  List.filter is_image_name (listing (disk a !!! folder)) = [] ->
  let a1 := after a [EvOpenFolder folder] in
  a1 = set_dialogs (dialogs a ++ [WarnNoImages])
         (set_image_files [] (set_images_folder (Some folder) a)) /\
  save_annotations a1 = Raised IndexError a1.
Proof.
  intros Hf Hnone. unfold after, run. cbn [map fold_left handle].
  unfold step, open_images_folder. rewrite Hf.
  cbv [mbind M_bind bind gets modify messagebox]. cbn [disk set_images_folder].
  rewrite Hnone. cbn [final]. split; [reflexivity|].
  unfold save_annotations, folder_set. cbv [mbind M_bind bind get].
  cbn [images_folder image_files set_dialogs set_image_files set_images_folder].
  rewrite Hf, py_index_nil. reflexivity.
Qed.

Lemma save_after_empty_folder_raises_witness :
  let a1 := after example_saved_two_folders [EvOpenFolder "empty"] in
  a1 = set_dialogs (dialogs example_saved_two_folders ++ [WarnNoImages])
         (set_image_files [] (set_images_folder (Some "empty") example_saved_two_folders)) /\
  save_annotations a1 = Raised IndexError a1.
Proof.
  apply (save_after_empty_folder_raises example_saved_two_folders "empty");
    vm_compute; reflexivity.
Defined.

(** ** Navigation *)

(** X15. An image file that cannot be read moves the index and nothing
    else: going to a listed file that fails to open sets the current
    index to it and shows the error dialog, while the image on the
    canvas, the conversation being edited and the lists at the side stay
    those of the image before. *)
Theorem jump2image_unreadable_image (a : ImageQAAnnotator) (index : Z)
    (file_name folder : string) :
  0 <= index -> image_files a !! Z.to_nat index = Some file_name ->
  images_folder a = Some folder ->
  Dict.get file_name (images (disk a !!! folder)) = None ->
  jump2image index a
  = Done tt (set_dialogs (dialogs a ++ [ErrLoadImage OSError])
               (set_current_image_index index a)).
Proof.
  intros Hi Hfile Hfolder Himg.
  assert (Z.to_nat index < length (image_files a))%nat as Hlen.
  { apply lookup_lt_is_Some. eexists. exact Hfile. }
  unfold jump2image. cbv [mbind M_bind bind get modify].
  assert ((Z.of_nat (length (image_files a)) <=? index) || (index <? 0) = false) as ->.
  { apply orb_false_iff. split; lia. }
  unfold load_current_image. cbv [mbind M_bind bind get].
  cbn [image_files current_image_index set_current_image_index images_folder disk].
  assert (bool_decide (image_files a = []) = false) as ->.
  { apply bool_decide_eq_false. intros E. rewrite E in Hlen. simpl in Hlen. lia. }
  assert ((Z.of_nat (length (image_files a)) <=? index) = false) as -> by lia.
  cbn [orb]. unfold py_index.
  assert ((0 <=? index) = true) as -> by lia.
  rewrite Hfile, Hfolder. unfold try_except. rewrite Himg. reflexivity.
Qed.

Lemma jump2image_unreadable_image_witness :
  jump2image 1 example_unreadable
  = Done tt (set_dialogs (dialogs example_unreadable ++ [ErrLoadImage OSError])
               (set_current_image_index 1 example_unreadable)).
Proof.
  apply (jump2image_unreadable_image example_unreadable 1 "broken.png" "imgs").
  - lia.
  - vm_compute. reflexivity.
  - vm_compute. reflexivity.
  - vm_compute. reflexivity.
Defined.

(** ** Drawing *)

(** X16. A shape finished before any image is shown is drawn but not
    recorded: in a session that the window can reach and that has no
    image geometry yet, the right click on a draft commits the shape on
    the canvas and then fails with an [AttributeError]; no region is
    staged, the status line stays. *)
Theorem draw_before_image_is_not_staged (a : ImageQAAnnotator) (r : Canvas.Finished)
    (c' : DrawingCanvas) :
  reachable a -> geometry a = None ->
  Canvas.on_right_click (drawing_canvas a) = (Some r, c') ->
  on_draw_finished a = Raised (AttributeError "x_offset") (set_drawing_canvas c' a).
Proof.
  intros Hr Hg Hc. destruct (reachable_canvas_inv a Hr) as (_ & _ & _ & Hsh).
  pose proof (reachable_modes_typed a Hr) as (Hm & _).
  unfold on_draw_finished, canvas, lift. cbv [mbind M_bind bind]. rewrite Hc.
  unfold image_points. cbn [geometry set_drawing_canvas]. rewrite Hg.
  assert (Canvas.f_points r <> []) as Hpts.
  { unfold Canvas.on_right_click, draft_shaped, draft_has_mode in *.
    destruct (current_item (drawing_canvas a)) as [id|]; [|discriminate].
    specialize (Hsh id eq_refl). destruct Hm as [m Hm]; [discriminate|].
    rewrite Hm in *. destruct m; simpl in Hc; try discriminate;
      injection Hc as <- _; simpl;
      destruct (current_points (drawing_canvas a)); discriminate. }
  destruct (Canvas.f_points r); [contradiction | reflexivity].
Qed.

Lemma draw_before_image_is_not_staged_witness :
  on_draw_finished example_no_image_draft
  = Raised (AttributeError "x_offset")
      (set_drawing_canvas (Canvas.on_right_click (drawing_canvas example_no_image_draft)).2
         example_no_image_draft).
Proof.
  apply (draw_before_image_is_not_staged example_no_image_draft
           (Canvas.mkFinished (Some RECT) [10; 10; 50; 80]%Q 1)).
  - unfold example_no_image_draft. reachable_example.
  - vm_compute. reflexivity.
  - vm_compute. reflexivity.
Defined.

(** * More of the annotation file *)

Lemma mode_of_name_inv (s : string) (m : DrawMode) :
  mode_of_name s = Some m -> mode_name m = s.
Proof.
  unfold mode_of_name. repeat (destruct (decide _) as [->|_]; [intros [= <-]; reflexivity|]).
  discriminate.
Qed.

Lemma map_rounded_integral (cs : list Q) :
  forallb integral cs = true -> map (fun x => inject_Z (Py.round x)) cs = cs.
Proof.
  induction cs as [|x cs IH]; [reflexivity|]. simpl. intros H.
  apply andb_true_iff in H as [Hx Hcs]. rewrite (IH Hcs).
  f_equal. apply (rounded_integral x Hx).
Qed.

Lemma dump_load_refs (js : list JRef) (refs : list VisualAnnotation) :
  load_refs js = inr refs ->
  forallb (fun r => forallb integral (j_coords r)) js = true ->
  dump_refs refs = inr js.
Proof.
  revert refs. induction js as [|[name cs] js IH]; intros refs Hl Hc; simpl in *.
  - injection Hl as <-. reflexivity.
  - apply andb_true_iff in Hc as [Hcs Hjs].
    destruct (mode_of_name name) as [m|] eqn:Hm; [|discriminate].
    destruct (load_refs js) as [e|vs]; [discriminate|]. injection Hl as <-.
    simpl. rewrite (IH vs eq_refl Hjs), (mode_of_name_inv _ _ Hm),
      (map_rounded_integral cs Hcs). reflexivity.
Qed.

Lemma load_refs_nonempty (js : list JRef) (refs : list VisualAnnotation) :
  load_refs js = inr refs -> js <> [] -> refs <> [].
Proof.
  destruct js as [|j js]; [contradiction|]. simpl.
  destruct (mode_of_name (j_mode j)); [|discriminate].
  destruct (load_refs js); [discriminate|]. intros [= <-] _. discriminate.
Qed.

(** X17. Reading a conversation and writing it again gives the same
    conversation: for turns as [save_annotations] writes them (integer
    coordinates, no empty region list) that [load_existing_annotations]
    can read, what [save_annotations] writes for them is the turns
    themselves. *)
Theorem load_then_dump_is_identity (js : list JTurn) (convs : list QAAnnotation) :
  load_conversations js = inr convs ->
  forallb canonical_turn js = true ->
  dump_conversations convs = inr js.
Proof.
  revert convs. induction js as [|[from value vr] js IH]; intros convs Hl Hc; simpl in *.
  - injection Hl as <-. reflexivity.
  - apply andb_true_iff in Hc as [Ht Hjs]. unfold canonical_turn in Ht. simpl in Ht.
    destruct vr as [refs|].
    + destruct (load_refs refs) as [e|vs] eqn:Hr; [discriminate|].
      destruct (load_conversations js) as [e|qas]; [discriminate|]. injection Hl as <-.
      assert (refs <> []) as Hne by (destruct refs; [discriminate | discriminate]).
      pose proof (load_refs_nonempty refs vs Hr Hne) as Hvs.
      assert (forallb (fun r => forallb integral (j_coords r)) refs = true) as Hint
        by (destruct refs; [discriminate | exact Ht]).
      cbn [dump_conversations visual_refs role text].
      destruct vs as [|v vs]; [contradiction|].
      rewrite (dump_load_refs refs (v :: vs) Hr Hint), (IH qas eq_refl Hjs). reflexivity.
    + destruct (load_conversations js) as [e|qas]; [discriminate|]. injection Hl as <-.
      cbn [dump_conversations visual_refs role text].
      rewrite (IH qas eq_refl Hjs). reflexivity.
Qed.

Lemma load_then_dump_is_identity_witness :
  dump_conversations
    [mkQA "human" "Q" (Some [mkVisual [5; 5; 25; 40]%Q (Some RECT)]);
     mkQA "gpt" "A" None]
  = inr example_turns.
Proof.
  apply (load_then_dump_is_identity example_turns); vm_compute; reflexivity.
Defined.

Lemma load_items_app (l1 l2 : list JItem) (a : ImageQAAnnotator) :
  load_items (l1 ++ l2) a
  = match load_items l1 a with
    | Done _ a1 => load_items l2 a1
    | Raised e a1 => Raised e a1
    end.
Proof.
  revert a. induction l1 as [|item l1 IH]; intros a; [reflexivity|].
  simpl. destruct (load_conversations (j_conversations item)); [reflexivity|].
  cbv [mbind M_bind bind alloc modify]. apply IH.
Qed.

Lemma load_items_good (good : list JItem) (a : ImageQAAnnotator) :
  forallb loads good = true -> exists a1, load_items good a = Done tt a1.
Proof.
  revert a. induction good as [|item good IH]; intros a H; [eexists; reflexivity|].
  simpl in *. apply andb_true_iff in H as [Hi Hg]. unfold loads in Hi.
  destruct (load_conversations (j_conversations item)); [discriminate|].
  cbv [mbind M_bind bind alloc modify]. apply IH, Hg.
Qed.

Lemma load_refs_error (js : list JRef) (e : Exn) :
  load_refs js = inl e -> exists s, e = KeyError s /\ mode_of_name s = None.
Proof.
  induction js as [|j js IH]; simpl; [discriminate|].
  destruct (mode_of_name (j_mode j)) eqn:Hm.
  - destruct (load_refs js); [|discriminate]. intros [= <-]. apply IH. reflexivity.
  - intros [= <-]. eexists. split; [reflexivity | exact Hm].
Qed.

Lemma load_conversations_error (js : list JTurn) (e : Exn) :
  load_conversations js = inl e -> exists s, e = KeyError s /\ mode_of_name s = None.
Proof.
  induction js as [|j js IH]; simpl; [discriminate|].
  destruct (j_visual_refs j) as [refs|].
  - destruct (load_refs refs) eqn:Hr.
    + intros [= <-]. apply (load_refs_error refs), Hr.
    + destruct (load_conversations js); [|discriminate]. intros [= <-].
      apply IH. reflexivity.
  - destruct (load_conversations js); [|discriminate]. intros [= <-].
    apply IH. reflexivity.
Qed.

(** X18. An annotation file is read up to its first bad item: when the
    items before some item can be read and that item cannot, the entries
    of the items before are in memory, the error dialog names the mode
    name that is no member of [DrawMode], and the items after it are not
    read. *)
Theorem annotations_loaded_up_to_bad_item (a : ImageQAAnnotator) (folder : string)
    (good : list JItem) (bad : JItem) (rest : list JItem) :
  folder_set a = Some folder ->
  annotations_json (disk a !!! folder) = Some (Parsed (good ++ bad :: rest)) ->
  forallb loads good = true -> loads bad = false ->
  exists a1 s,
    load_items good a = Done tt a1 /\ mode_of_name s = None /\
    load_existing_annotations a
    = Done tt (set_dialogs (dialogs a1 ++ [ErrLoadAnnotations (KeyError s)]) a1).
Proof.
  intros Hf Hfile Hgood Hbad.
  destruct (load_items_good good a Hgood) as [a1 Ha1].
  unfold loads in Hbad.
  destruct (load_conversations (j_conversations bad)) as [e|] eqn:He; [|discriminate].
  destruct (load_conversations_error _ e He) as (s & -> & Hs).
  exists a1, s. split; [exact Ha1|]. split; [exact Hs|].
  unfold load_existing_annotations. cbv [mbind M_bind bind get]. rewrite Hf, Hfile.
  unfold try_except. cbv [mbind M_bind bind]. rewrite load_items_app, Ha1.
  simpl. rewrite He. reflexivity.
Qed.

Lemma annotations_loaded_up_to_bad_item_witness :
  exists a1 s,
    load_items [mkJItem "a.png" example_turns] example_bad_folder = Done tt a1 /\
    mode_of_name s = None /\
    load_existing_annotations example_bad_folder
    = Done tt (set_dialogs (dialogs a1 ++ [ErrLoadAnnotations (KeyError s)]) a1).
Proof.
  apply (annotations_loaded_up_to_bad_item example_bad_folder "imgs"
           [mkJItem "a.png" example_turns]
           (mkJItem "b.JPG" [mkJTurn "human" "Q" (Some [mkJRef "CIRCLE" [1; 2]%Q])])
           [mkJItem "c.png" example_turns]);
    vm_compute; reflexivity.
Defined.

(** * More of the conversation *)

Section Loaded.
Context (l : loc) (h : gmap loc (list QAAnnotation)) (d : list (string * loc)) (i : Z).
Let P (a : ImageQAAnnotator) : Prop :=
  current_annotation a = l /\ heap a = h /\ all_annotations a = d
  /\ current_image_index a = i.

Lemma show_image_loaded (file_name : string) :
  stable P (fit_window;; update_qa_list;; update_image_list;; status (StLoaded file_name)).
Proof.
  unfold fit_window, display_image, canvas_do, update_qa_list, update_image_list, status.
  stable_auto. all: stable_frame.
Qed.
End Loaded.

(** X19. Going to an image starts from what is stored for it: when the
    file opens, the conversation being edited becomes a new list object
    that holds a copy of the conversation stored for the image (the empty
    conversation when none is stored), and the stored conversations are
    as before.  Pairs of the image left behind that were not saved are no
    longer the conversation being edited. *)
Theorem navigation_loads_stored_copy (a : ImageQAAnnotator) (index : Z)
    (file_name folder : string) (size : Z * Z) :
  0 <= index -> image_files a !! Z.to_nat index = Some file_name ->
  images_folder a = Some folder ->
  Dict.get file_name (images (disk a !!! folder)) = Some size ->
  let stored := match Dict.get file_name (all_annotations a) with
                | Some l => deref l a
                | None => []
                end in
  let a' := final (jump2image index a) in
  current_annotation a' = next_loc a /\
  heap a' = <[next_loc a := stored]> (heap a) /\
  deref (current_annotation a') a' = stored /\
  all_annotations a' = all_annotations a /\ current_image_index a' = index.
Proof.
  intros Hi Hfile Hfolder Himg stored.
  assert (Z.to_nat index < length (image_files a))%nat as Hlen.
  { apply lookup_lt_is_Some. eexists. exact Hfile. }
  unfold jump2image. cbv [mbind M_bind bind get modify].
  assert ((Z.of_nat (length (image_files a)) <=? index) || (index <? 0) = false) as ->.
  { apply orb_false_iff. split; lia. }
  unfold load_current_image. cbv [mbind M_bind bind get].
  cbn [image_files current_image_index set_current_image_index images_folder disk
       all_annotations].
  assert (bool_decide (image_files a = []) = false) as ->.
  { apply bool_decide_eq_false. intros E. rewrite E in Hlen. simpl in Hlen. lia. }
  assert ((Z.of_nat (length (image_files a)) <=? index) = false) as -> by lia.
  cbn [orb]. unfold py_index.
  assert ((0 <=? index) = true) as -> by lia.
  rewrite Hfile, Hfolder, Himg.
  assert (forall a2 : ImageQAAnnotator,
            current_annotation a2 = next_loc a ->
            heap a2 = <[next_loc a := stored]> (heap a) ->
            all_annotations a2 = all_annotations a -> current_image_index a2 = index ->
            let a' := final (try_except
                               (fit_window;; update_qa_list;; update_image_list;;
                                status (StLoaded file_name))
                               (fun e => messagebox (ErrLoadImage e)) a2) in
            current_annotation a' = next_loc a /\
            heap a' = <[next_loc a := stored]> (heap a) /\
            deref (current_annotation a') a' = stored /\
            all_annotations a' = all_annotations a /\ current_image_index a' = index)
    as Hrest.
  { intros a2 H1 H2 H3 H4.
    assert (forall e, stable (fun s => current_annotation s = next_loc a
                                       /\ heap s = <[next_loc a := stored]> (heap a)
                                       /\ all_annotations s = all_annotations a
                                       /\ current_image_index s = index)
                             (messagebox (ErrLoadImage e))) as Hbox.
    { intros e. unfold messagebox. apply stable_modify. intros s Hs. exact Hs. }
    pose proof (stable_try _ _ (fun e => messagebox (ErrLoadImage e))
                  (show_image_loaded (next_loc a) (<[next_loc a := stored]> (heap a))
                     (all_annotations a) index file_name)
                  Hbox a2 (conj H1 (conj H2 (conj H3 H4)))) as (E1 & E2 & E3 & E4).
    cbv zeta. repeat split; try assumption.
    unfold deref. rewrite E1, E2. apply lookup_total_insert_eq. }
  unfold try_except in *. cbv [mbind M_bind bind alloc modify] in *.
  apply Hrest; reflexivity.
Qed.

Lemma navigation_loads_stored_copy_witness :
  let a' := final (jump2image 1 example_edited_after_save) in
  current_annotation a' = next_loc example_edited_after_save /\
  heap a' = <[next_loc example_edited_after_save := []]> (heap example_edited_after_save) /\
  deref (current_annotation a') a' = [] /\
  all_annotations a' = all_annotations example_edited_after_save /\
  current_image_index a' = 1.
Proof.
  apply (navigation_loads_stored_copy example_edited_after_save 1 "b.JPG" "imgs" (10, 10)).
  - lia.
  - vm_compute. reflexivity.
  - vm_compute. reflexivity.
  - vm_compute. reflexivity.
Defined.




Lemma deref_set_heap (l : loc) (v : list QAAnnotation)
    (h : gmap loc (list QAAnnotation)) (s : ImageQAAnnotator) :
  deref l (set_heap (<[l := v]> h) s) = v.
Proof. unfold deref. cbn [heap set_heap]. apply lookup_total_insert_eq. Qed.



(** ** The list box and the conversation *)

Lemma paired_ind (P : list QAAnnotation -> Prop) :
  P [] ->
  (forall q ans rest,
     is_question q = true -> is_question ans = false -> paired rest = true ->
     P rest -> P (q :: ans :: rest)) ->
  forall convs, paired convs = true -> P convs.
Proof.
  intros Hnil Hpair.
  assert (forall n convs, (length convs <= n)%nat -> paired convs = true -> P convs) as H.
  { induction n as [|n IH]; intros [|q [|ans rest]] Hlen Hp; simpl in *;
      try discriminate; try exact Hnil; try lia.
    apply andb_true_iff in Hp as [Hqa Hrest]. apply andb_true_iff in Hqa as [Hq Ha].
    apply negb_true_iff in Ha. apply Hpair; try assumption.
    apply IH; [lia | exact Hrest]. }
  intros convs. apply (H (length convs)). lia.
Qed.

Lemma qa_rows_pair (n : nat) (q ans : QAAnnotation) (rest : list QAAnnotation) :
  is_question q = true -> is_question ans = false ->
  refs_named q = true -> refs_named ans = true ->
  qa_rows n (q :: ans :: rest)
  = (RowTurn true (S n) q :: RowTurn false (S n) ans :: RowSeparator
       :: (qa_rows (S n) rest).1,
     (qa_rows (S n) rest).2).
Proof.
  intros Hq Ha Hnq Hna. unfold is_question in *. cbn [qa_rows].
  rewrite Hq, Ha, Hnq, Hna. destruct (qa_rows (S n) rest). reflexivity.
Qed.

Lemma del_slice_cons {A} (i j : nat) (x : A) (l : list A) :
  Py.del_slice (S i) (S j) (x :: l) = x :: Py.del_slice i j l.
Proof. reflexivity. Qed.

(** The rows of a conversation of pairs: three for each pair, the
    question, the answer and a separator. *)
Lemma qa_rows_layout (convs : list QAAnnotation) :
  paired convs = true -> forallb refs_named convs = true ->
  forall n,
    omap row_turn (qa_rows n convs).1 = convs /\
    (length (qa_rows n convs).1 * 2 = length convs * 3)%nat /\
    forall i,
      omap row_turn (Py.del_slice (i * 3) (i * 3 + 3) (qa_rows n convs).1)
      = Py.del_slice (i * 2) (i * 2 + 2) convs /\
      ((i * 3 < length (qa_rows n convs).1)%nat ->
       exists q ans,
         take 3 (drop (i * 3) (qa_rows n convs).1)
         = [RowTurn true (S (n + i)) q; RowTurn false (S (n + i)) ans; RowSeparator] /\
         take 2 (drop (i * 2) convs) = [q; ans]).
Proof.
  revert convs. refine (paired_ind _ _ _).
  - intros _ n. split; [reflexivity|]. split; [reflexivity|]. intros i. split.
    + unfold Py.del_slice. simpl. rewrite !take_nil, !drop_nil. reflexivity.
    + simpl. lia.
  - intros q ans rest Hq Ha _ IH Hn n. cbn [forallb] in Hn.
    apply andb_true_iff in Hn as [Hnq Hn]. apply andb_true_iff in Hn as [Hna Hn].
    rewrite (qa_rows_pair n q ans rest Hq Ha Hnq Hna). cbn [fst].
    destruct (IH Hn (S n)) as (Hturns & Hlen & Hat).
    split; [cbn [omap list_omap row_turn]; simpl; rewrite Hturns; reflexivity|].
    split; [simpl; lia|].
    intros [|i].
    + split.
      * change (0 * 3)%nat with 0%nat. change (0 * 2)%nat with 0%nat.
        unfold Py.del_slice. simpl. exact Hturns.
      * intros _. exists q, ans. rewrite Nat.add_0_r. split; reflexivity.
    + destruct (Hat i) as [Hdel Hrow].
      replace (S i * 3)%nat with (S (S (S (i * 3)))) by lia.
      replace (S i * 2)%nat with (S (S (i * 2))) by lia. split.
      * change (S (S (S (i * 3))) + 3)%nat with (S (S (S (i * 3 + 3)))).
        change (S (S (i * 2)) + 2)%nat with (S (S (i * 2 + 2))).
        rewrite !del_slice_cons. cbn [omap list_omap row_turn]. rewrite Hdel. reflexivity.
      * intros Hlt. simpl in Hlt. destruct Hrow as (q' & ans' & Hr & Hc); [lia|].
        exists q', ans'. cbn [drop]. rewrite Hr, Hc.
        replace (S n + i)%nat with (n + S i)%nat by lia. split; reflexivity.
Qed.

(** X21. "Delete" removes the pair of the selected row: for a
    conversation of question and answer pairs that the list box shows,
    the selected row belongs to the pair numbered by a third of its
    position, whose question, answer and separator rows are the three
    rows from there; those two turns leave the conversation and those
    three rows leave the list box, and the remaining rows show the
    remaining turns in order. *)
Theorem delete_removes_selected_pair (a : ImageQAAnnotator) (s : nat) :
  let convs := deref (current_annotation a) a in
  paired convs = true -> forallb refs_named convs = true ->
  qa_listbox a = (qa_rows 0 convs).1 -> (s < length (qa_listbox a))%nat ->
  let i := (s `div` 3)%nat in
  let a' := after a [EvDelete (Some s)] in
  (exists q ans,
     take 3 (drop (i * 3) (qa_listbox a))
     = [RowTurn true (S i) q; RowTurn false (S i) ans; RowSeparator] /\
     take 2 (drop (i * 2) convs) = [q; ans]) /\
  deref (current_annotation a') a' = Py.del_slice (i * 2) (i * 2 + 2) convs /\
  qa_listbox a' = Py.del_slice (i * 3) (i * 3 + 3) (qa_listbox a) /\
  omap row_turn (qa_listbox a') = deref (current_annotation a') a'.
Proof.
  intros convs Hp Hn Hrows Hs i a'.
  destruct (qa_rows_layout convs Hp Hn 0%nat) as (_ & _ & Hat).
  destruct (Hat i) as [Hdel Hrow]. rewrite <- Hrows in Hdel, Hrow.
  assert (i * 3 < length (qa_listbox a))%nat as Hi.
  { pose proof (Nat.Div0.mul_div_le s 3). unfold i. lia. }
  split; [exact (Hrow Hi)|].
  subst a'. unfold after, run. cbn [map fold_left handle]. unfold step, delete_qa_pair.
  cbn [fmap option_fmap option_map]. fold i.
  cbv [mbind M_bind bind gets modify mutate]. cbn [final].
  cbn [current_annotation qa_listbox set_qa_listbox set_heap].
  split; [apply deref_set_heap|]. split; [reflexivity|].
  rewrite Hdel. symmetry. apply deref_set_heap.
Qed.

Lemma delete_removes_selected_pair_witness :
  let a := example_two_pairs in
  let convs := deref (current_annotation a) a in
  let a' := after a [EvDelete (Some 4%nat)] in
  (exists q ans,
     take 3 (drop 3 (qa_listbox a))
     = [RowTurn true 2 q; RowTurn false 2 ans; RowSeparator] /\
     take 2 (drop 2 convs) = [q; ans]) /\
  deref (current_annotation a') a' = Py.del_slice 2 4 convs /\
  qa_listbox a' = Py.del_slice 3 6 (qa_listbox a) /\
  omap row_turn (qa_listbox a') = deref (current_annotation a') a'.
Proof.
  apply (delete_removes_selected_pair example_two_pairs 4);
    vm_compute; first [reflexivity | lia].
Defined.

(** X22. "Edit" takes the selected pair out for editing: for a selected
    row whose pair has a question without regions, the two entry fields
    get the texts of the pair, the pair leaves the conversation and its
    three rows leave the list box, the canvas is cleared of shapes, and
    what is staged stays staged. *)
Theorem edit_takes_selected_pair_out (a : ImageQAAnnotator) (s : nat)
    (q ans : QAAnnotation) :
  let convs := deref (current_annotation a) a in
  let i := (s `div` 3)%nat in
  convs !! (i * 2)%nat = Some q -> convs !! (i * 2 + 1)%nat = Some ans ->
  visual_refs q = None ->
  let a' := after a [EvEdit (Some s)] in
  question_entry a' = text q /\ answer_entry a' = text ans /\
  deref (current_annotation a') a' = Py.del_slice (i * 2) (i * 2 + 2) convs /\
  qa_listbox a' = Py.del_slice (i * 3) (i * 3 + 3) (qa_listbox a) /\
  items (drawing_canvas a') = [] /\
  current_draw_info a' = current_draw_info a.
Proof.
  intros convs i Hq Hans Hrefs a'.
  assert (i * 2 < length convs)%nat as Hlen.
  { apply lookup_lt_is_Some. eexists. exact Hq. }
  subst a'. unfold after, run. cbn [map fold_left handle]. unfold step, edit_qa_pair.
  fold i. cbv [mbind M_bind bind get modify].
  change (deref (current_annotation (set_question_entry "" a)) (set_question_entry "" a))
    with convs.
  rewrite Hq, Hans. unfold show_qa_pair. cbv [mbind M_bind bind get canvas_do modify].
  match goal with |- context [deref (current_annotation ?st) ?st] =>
    change (deref (current_annotation st) st) with convs end.
  assert ((Z.of_nat (i * 2) <? 0) || (Z.of_nat (length convs) <=? Z.of_nat (i * 2)) = false)
    as ->.
  { apply orb_false_iff. split; [apply Z.ltb_ge; lia | apply Z.leb_gt; lia]. }
  assert (py_index convs (Z.of_nat (i * 2) / 2 * 2) = Some q) as ->.
  { replace (Z.of_nat (i * 2) / 2 * 2) with (Z.of_nat (i * 2)).
    - unfold py_index.
      assert ((0 <=? Z.of_nat (i * 2)) = true) as -> by (apply Z.leb_le; lia).
      rewrite Nat2Z.id. exact Hq.
    - rewrite Nat2Z.inj_mul. change (Z.of_nat 2) with 2. rewrite Z.div_mul by lia.
      reflexivity. }
  rewrite Hrefs. cbv [mret M_ret ret]. unfold delete_qa_pair.
  cbv [mbind M_bind bind gets modify mutate]. cbn [final].
  repeat split. apply deref_set_heap.
Qed.

Lemma edit_takes_selected_pair_out_witness :
  let a := example_two_pairs in
  let convs := deref (current_annotation a) a in
  let a' := after a [EvEdit (Some 4%nat)] in
  question_entry a' = "Q2" /\ answer_entry a' = "A2" /\
  deref (current_annotation a') a' = Py.del_slice 2 4 convs /\
  qa_listbox a' = Py.del_slice 3 6 (qa_listbox a) /\
  items (drawing_canvas a') = [] /\
  current_draw_info a' = current_draw_info a.
Proof.
  apply (edit_takes_selected_pair_out example_two_pairs 4
           (mkQA "human" "Q2" None) (mkQA "gpt" "A2" None));
    vm_compute; reflexivity.
Defined.

(** * The invariants at work *)

Lemma reachable_well_formed_witness : well_formed example_answer_region.
Proof.
  apply (reachable_well_formed example_answer_region).
  apply example_answer_region_reachable.
Defined.

Lemma edits_leave_all_annotations_witness :
  annotation_items
    (run (map edit_op [OpType "Q2" "A2"; OpAdd])
         (after example_annotated [EvNext; EvPrevious]))
  = annotation_items (after example_annotated [EvNext; EvPrevious]).
Proof.
  apply (edits_leave_all_annotations [OpType "Q2" "A2"; OpAdd]).
  apply unshared_after_reload.
Defined.
